(** * api/submit.js — the plugin submission handler

    A shallow embedding of the serverless function [handler] of
    [api/submit.js] and of the parts of the JavaScript runtime it calls
    (property reads, string conversion, [JSON.stringify], [JSON.parse],
    [Buffer] and its base64 codec), followed by the properties of the
    handler.

    Conventions.
    - A JavaScript string, a sequence of UTF-16 code units, is
      represented by the bytes of its UTF-8 encoding, as a [string]; a
      surrogate without its partner keeps the three-byte form of its
      code.  [well_formed] tells the byte strings that stand for a
      string.  A [Buffer] is a [string] of raw bytes: writing a string
      to a buffer turns each lone surrogate into U+FFFD, and reading
      UTF-8 from a buffer turns each malformed part into U+FFFD.
    - A JavaScript number is a double.  An integer of at most 53 bits,
      which every double represents exactly, is a [VNum]; any other
      double is a [VDbl], a significand and a binary exponent, or an
      infinity.  Literals are rounded to the nearest double and printed
      with the fewest digits that read back.  [-0] is not told from [0]
      (the handler prints and tests numbers, and both print and test
      alike), and there is no [NaN], which neither JSON nor the handler
      produces.
    - An object is the list of its own properties in enumeration order.
    - Line numbers are those of [api/submit.js]. *)

From Stdlib Require Import ZArith List String Ascii Bool Lia.
From Stdlib Require Import Decimal DecimalString DecimalZ DecimalFacts DecimalN.
Import ListNotations.

#[local] Open Scope string_scope.
#[local] Open Scope Z_scope.

(** ** JavaScript values *)

(** A double that is not a [VNum]: [(-1)^s * m * 2^e], or an infinity. *)
Inductive double : Type :=
| Finite (negative : bool) (m : positive) (e : Z)
| Infinite (negative : bool).

#[local] Unset Elimination Schemes.
Inductive value : Type :=
| VUndefined
| VNull
| VBool (b : bool)
| VNum (n : Z)
| VDbl (x : double)
| VStr (s : string)
| VArr (elems : list value)
| VObj (props : list (string * value)).
#[local] Set Elimination Schemes.

(** Exceptions: the [Error] subclasses that the runtime raises, each
    carrying its [message]. *)
Inductive exn : Type :=
| TypeError (msg : string)
| SyntaxError (msg : string).

Definition message (e : exn) : string :=
  match e with
  | TypeError m => m
  | SyntaxError m => m
  end.

(** A computation that may throw. *)
Definition result (A : Type) : Type := (exn + A)%type.

Definition ok {A} (a : A) : result A := inr a.
Definition throw {A} (e : exn) : result A := inl e.

Definition rbind {A B} (m : result A) (f : A -> result B) : result B :=
  match m with
  | inl e => inl e
  | inr a => f a
  end.

Declare Scope result_scope.
Delimit Scope result_scope with res.
Notation "x <- m ;; k" := (rbind m (fun x => k))
  (at level 61, m at next level, right associativity) : result_scope.

(** ** Numbers *)

(** The quotient [a / (b * 2^e)] as a fraction of integers. *)
Definition scaled (a b e : Z) : Z * Z :=
  if 0 <=? e then (a, b * 2 ^ e) else (a * 2 ^ (- e), b).

(** The double nearest to [a / b], for [a] and [b] positive, ties going to
    the even significand: [Some (m, e)] stands for [m * 2^e], where [m]
    has 53 bits, or fewer when [e] is the least exponent, -1074 (then
    [m] may be 0); [None] is an overflow. *)
Definition nearest (a b : Z) : option (Z * Z) :=
  let e0 := Z.log2 a - Z.log2 b - 52 in
  let e1 := let (n, d) := scaled a b e0 in if n / d <? 2 ^ 52 then e0 - 1 else e0 in
  let e := Z.max e1 (-1074) in
  let (n, d) := scaled a b e in
  let q := n / d in
  let r := n mod d in
  let q' :=
    if 2 * r <? d then q
    else if d <? 2 * r then q + 1
    else if Z.even q then q else q + 1 in
  let (m, e') := if q' =? 2 ^ 53 then (2 ^ 52, e + 1) else (q', e) in
  if 971 <? e' then None else Some (m, e').

(** [m * 2^e] when it is an integer of at most 53 bits. *)
Definition small_integer (m e : Z) : option Z :=
  if 0 <=? e then
    if (e <=? 53) && (m * 2 ^ e <=? 2 ^ 53) then Some (m * 2 ^ e) else None
  else
    if m mod 2 ^ (- e) =? 0 then Some (m / 2 ^ (- e)) else None.

(** The number nearest to [a / b], with its sign. *)
Definition Number_of_ratio (negative : bool) (a b : Z) : value :=
  match nearest a b with
  | None => VDbl (Infinite negative)
  | Some (m, e) =>
      match small_integer m e with
      | Some n => VNum (if negative then - n else n)
      | None => VDbl (Finite negative (Z.to_pos m) e)
      end
  end.

(** The number that the literal [m * 10^x] denotes ([m] is not negative).
    The first two tests set aside the exponents whose literal is beyond
    all doubles or below them all, so that no large power is taken. *)
Definition Number_of_decimal (negative : bool) (m x : Z) : value :=
  if m =? 0 then VNum 0
  else if 400 <? x then VDbl (Infinite negative)
  else if Z.log2 m + 1 + 3 * x <? -1080 then VNum 0
  else if 0 <=? x then Number_of_ratio negative (m * 10 ^ x) 1
  else Number_of_ratio negative m (10 ^ (- x)).

(** The number nearest to an integer. *)
Definition Number_of_Z (n : Z) : value :=
  if Z.abs n <=? 2 ^ 53 then VNum n else Number_of_ratio (n <? 0) (Z.abs n) 1.

(** A number in the one form that stands for it; other values are left
    as they are. *)
Definition Number_canon (v : value) : value :=
  match v with
  | VNum n => Number_of_Z n
  | VDbl (Finite negative m e) =>
      let (a, b) := scaled (Zpos m) 1 (- e) in Number_of_ratio negative a b
  | _ => v
  end.

(** Decimal digits of an integer. *)
Definition Z_to_string (n : Z) : string :=
  NilZero.string_of_int (Z.to_int n).

(** [10^n <= m * 2^e] *)
Definition at_least_power (m e n : Z) : bool :=
  10 ^ Z.max n 0 * 2 ^ Z.max (- e) 0 <=? m * 2 ^ Z.max e 0 * 10 ^ Z.max (- n) 0.

(** The [n] with [10^(n-1) <= m * 2^e < 10^n]. *)
Definition magnitude (m e : Z) : Z :=
  let n0 := (Z.log2 m + e) * 30103 / 100000 in
  if at_least_power m e n0 then
    if at_least_power m e (n0 + 1) then n0 + 2 else n0 + 1
  else
    if at_least_power m e (n0 - 1) then n0 else n0 - 1.

(** Of the two integers around [m * 2^e / 10^(n-k)], the one that, as
    [k] digits before [10^(n-k)], reads back as the double [m * 2^e];
    the nearer one when both do, the even one when they are as near. *)
Definition digits_of_length (m e n k : Z) : option Z :=
  let j := n - k in
  let num := m * 2 ^ Z.max e 0 * 10 ^ Z.max (- j) 0 in
  let den := 2 ^ Z.max (- e) 0 * 10 ^ Z.max j 0 in
  let low := num / den in
  let high := low + 1 in
  let reads s :=
    match (if 0 <=? j then nearest (s * 10 ^ j) 1 else nearest s (10 ^ (- j))) with
    | Some (m', e') => (m' =? m) && (e' =? e)
    | None => false
    end in
  let below := num - low * den in
  let above := high * den - num in
  match reads low, reads high with
  | true, true =>
      if below <? above then Some low
      else if above <? below then Some high
      else Some (if Z.even low then low else high)
  | true, false => Some low
  | false, true => Some high
  | false, false => None
  end.

(** The fewest digits that read back, from [k] digits up; seventeen
    always do. *)
Fixpoint shortest (fuel : nat) (m e n k : Z) : Z * Z :=
  match fuel with
  | O =>
      (m * 2 ^ Z.max e 0 * 10 ^ Z.max (17 - n) 0
         / (2 ^ Z.max (- e) 0 * 10 ^ Z.max (n - 17) 0), 17)
  | S fuel' =>
      match digits_of_length m e n k with
      | Some s => (s, k)
      | None => shortest fuel' m e n (k + 1)
      end
  end.

Fixpoint zeros (n : nat) : string :=
  match n with
  | O => ""
  | S n' => String "0" (zeros n')
  end.

Definition exponent_text (n : Z) : string :=
  "e" ++ (if 0 <=? n then "+" else "-") ++ Z_to_string (Z.abs n).

(** Number::toString on the [k] digits [s] with the point after the
    first [n] of them. *)
Definition decimal_text (s k n : Z) : string :=
  let ds := Z_to_string s in
  if (k <=? n) && (n <=? 21) then ds ++ zeros (Z.to_nat (n - k))
  else if (0 <? n) && (n <=? 21) then
    substring 0 (Z.to_nat n) ds ++ "." ++ substring (Z.to_nat n) (Z.to_nat (k - n)) ds
  else if (-6 <? n) && (n <=? 0) then "0." ++ zeros (Z.to_nat (- n)) ++ ds
  else if k =? 1 then ds ++ exponent_text (n - 1)
  else
    substring 0 1 ds ++ "." ++ substring 1 (Z.to_nat (k - 1)) ds
      ++ exponent_text (n - 1).

Definition finite_text (m e : Z) : string :=
  let n := magnitude m e in
  let (s, k) := shortest 17 m e n 1 in
  if s =? 10 ^ k then decimal_text 1 1 (n + 1) else decimal_text s k n.

(** Number::toString, radix 10. *)
Definition Number_toString (v : value) : string :=
  match Number_canon v with
  | VNum n => Z_to_string n
  | VDbl (Finite negative m e) =>
      (if negative then "-" else "") ++ finite_text (Zpos m) e
  | VDbl (Infinite negative) => (if negative then "-" else "") ++ "Infinity"
  | _ => ""
  end.

(** A number as [JSON.stringify] writes it: [null] when it is not finite. *)
Definition Number_json (v : value) : string :=
  match Number_canon v with
  | VDbl (Infinite _) => "null"
  | _ => Number_toString v
  end.

(** ** Conversions and tests *)

(** [!v] is [negb (truthy v)]. *)
Definition truthy (v : value) : bool :=
  match v with
  | VUndefined | VNull => false
  | VBool b => b
  | VNum n => negb (n =? 0)
  | VDbl x =>
      match Number_canon (VDbl x) with
      | VNum n => negb (n =? 0)
      | _ => true
      end
  | VStr s => negb (s =? "")%string
  | VArr _ | VObj _ => true
  end.

(** [a || b] *)
Definition or_else (a b : value) : value := if truthy a then a else b.

Fixpoint lookup (k : string) (props : list (string * value)) : option value :=
  match props with
  | [] => None
  | (k', v) :: rest => if (k =? k')%string then Some v else lookup k rest
  end.

(** [o[k]] and [o.k].  Reading a property of [undefined] or [null] throws.
    On an object the own property is returned, [undefined] when there is
    none; on a string, number, boolean or array the result is [undefined].
    This is exact for the names the handler reads ([id], [cn_name],
    [author], [description], [code], [version], [full_description],
    [category], [commands], [features], [usage], [changelog], [notes],
    [content], [sha], [plugins]): none of them is defined on a built-in
    prototype or is an index or [length]. *)
Definition get (o : value) (k : string) : result value :=
  match o with
  | VUndefined =>
      throw (TypeError ("Cannot read properties of undefined (reading '" ++ k ++ "')"))
  | VNull =>
      throw (TypeError ("Cannot read properties of null (reading '" ++ k ++ "')"))
  | VObj props =>
      ok (match lookup k props with Some v => v | None => VUndefined end)
  | _ => ok VUndefined
  end.

Fixpoint join (sep : string) (parts : list string) : string :=
  match parts with
  | [] => ""
  | [p] => p
  | p :: rest => p ++ sep ++ join sep rest
  end.

(** [String(v)], the conversion applied by template literals and by
    [RegExp.prototype.test].  An array converts through [join(",")], in
    which [undefined] and [null] elements give the empty string.  An
    object converts to ["[object Object]"] through the inherited
    [toString]; when it has an own property of that name (which, coming
    from JSON, is not callable) no conversion exists and a [TypeError] is
    thrown. *)
Fixpoint to_string (v : value) : result string :=
  match v with
  | VUndefined => ok "undefined"
  | VNull => ok "null"
  | VBool true => ok "true"
  | VBool false => ok "false"
  | VNum _ | VDbl _ => ok (Number_toString v)
  | VStr s => ok s
  | VArr elems =>
      let parts :=
        (fix parts (l : list value) : result (list string) :=
           match l with
           | [] => ok []
           | e :: rest =>
               (s <- match e with
                     | VUndefined | VNull => ok ""
                     | _ => to_string e
                     end ;;
                ss <- parts rest ;;
                ok (s :: ss))%res
           end) in
      (ss <- parts elems ;; ok (join "," ss))%res
  | VObj props =>
      match lookup "toString" props with
      | Some _ => throw (TypeError "Cannot convert object to primitive value")
      | None => ok "[object Object]"
      end
  end.

(** [SameValueZero] between an element of [existingIds] and [pluginId],
    as applied by [Array.prototype.includes].  Primitives compare by
    value.  Arrays and objects compare by identity; the two sides here
    come from two different parses (the index document and the request
    body), so they are never the same object. *)
Definition same_primitive (a b : value) : bool :=
  match a, b with
  | VUndefined, VUndefined => true
  | VNull, VNull => true
  | VBool x, VBool y => Bool.eqb x y
  | VNum x, VNum y => (x =? y)
  | VDbl (Finite s m e), VDbl (Finite s' m' e') =>
      Bool.eqb s s' && (m =? m')%positive && (e =? e')
  | VDbl (Infinite s), VDbl (Infinite s') => Bool.eqb s s'
  | VStr x, VStr y => (x =? y)%string
  | _, _ => false
  end.

Definition same_value_zero (a b : value) : bool :=
  same_primitive (Number_canon a) (Number_canon b).

Definition includes (l : list value) (v : value) : bool :=
  existsb (fun x => same_value_zero x v) l.

(** ** Base64, as [Buffer] implements it *)

Module Base64.

(** Six bits, most significant first. *)
Definition sextet : Type := (bool * bool * bool * bool * bool * bool)%type.

Definition bit (b : bool) : N := if b then 1%N else 0%N.

Definition index (x : sextet) : N :=
  let '(b5, b4, b3, b2, b1, b0) := x in
  (32 * bit b5 + 16 * bit b4 + 8 * bit b3 + 4 * bit b2 + 2 * bit b1 + bit b0)%N.

Definition of_index (n : N) : sextet :=
  (N.testbit n 5, N.testbit n 4, N.testbit n 3,
   N.testbit n 2, N.testbit n 1, N.testbit n 0).

Definition alphabet : string :=
  "ABCDEFGHIJKLMNOPQRSTUVWXYZabcdefghijklmnopqrstuvwxyz0123456789+/".

Definition char (x : sextet) : ascii :=
  match String.get (N.to_nat (index x)) alphabet with
  | Some c => c
  | None => "="%char
  end.

(** The decoding table accepts the standard and the URL-safe alphabet. *)
Definition unbase64 (c : ascii) : option sextet :=
  let n := N_of_ascii c in
  if ((65 <=? n) && (n <=? 90))%N then Some (of_index (n - 65))
  else if ((97 <=? n) && (n <=? 122))%N then Some (of_index (n - 97 + 26))
  else if ((48 <=? n) && (n <=? 57))%N then Some (of_index (n - 48 + 52))
  else if ((n =? 43) || (n =? 45))%N then Some (of_index 62)
  else if ((n =? 47) || (n =? 95))%N then Some (of_index 63)
  else None.

(** [buf.toString('base64')]: three bytes give four characters; a final
    group of one or two bytes is padded with [=]. *)
Fixpoint encode (bytes : string) : string :=
  match bytes with
  | EmptyString => EmptyString
  | String (Ascii a0 a1 a2 a3 a4 a5 a6 a7) EmptyString =>
      String (char (a7, a6, a5, a4, a3, a2))
        (String (char (a1, a0, false, false, false, false)) "==")
  | String (Ascii a0 a1 a2 a3 a4 a5 a6 a7)
      (String (Ascii b0 b1 b2 b3 b4 b5 b6 b7) EmptyString) =>
      String (char (a7, a6, a5, a4, a3, a2))
        (String (char (a1, a0, b7, b6, b5, b4))
           (String (char (b3, b2, b1, b0, false, false)) "="))
  | String (Ascii a0 a1 a2 a3 a4 a5 a6 a7)
      (String (Ascii b0 b1 b2 b3 b4 b5 b6 b7)
         (String (Ascii c0 c1 c2 c3 c4 c5 c6 c7) rest)) =>
      String (char (a7, a6, a5, a4, a3, a2))
        (String (char (a1, a0, b7, b6, b5, b4))
           (String (char (b3, b2, b1, b0, c7, c6))
              (String (char (c5, c4, c3, c2, c1, c0)) (encode rest))))
  end.

(** [Buffer.from(s, 'base64')] is lenient: characters outside the table
    are skipped and decoding stops at the first [=]. *)
Fixpoint scan (s : string) : list sextet :=
  match s with
  | EmptyString => []
  | String c rest =>
      if (c =? "=")%char then []
      else match unbase64 c with
           | Some x => x :: scan rest
           | None => scan rest
           end
  end.

(** Four sextets give three bytes; a final group of three gives two
    bytes, of two gives one, and a single left-over sextet gives none. *)
Fixpoint bytes (l : list sextet) : string :=
  match l with
  | (a7, a6, a5, a4, a3, a2) :: (a1, a0, b7, b6, b5, b4)
      :: (b3, b2, b1, b0, c7, c6) :: (c5, c4, c3, c2, c1, c0) :: rest =>
      String (Ascii a0 a1 a2 a3 a4 a5 a6 a7)
        (String (Ascii b0 b1 b2 b3 b4 b5 b6 b7)
           (String (Ascii c0 c1 c2 c3 c4 c5 c6 c7) (bytes rest)))
  | [(a7, a6, a5, a4, a3, a2); (a1, a0, b7, b6, b5, b4); (b3, b2, b1, b0, _, _)] =>
      String (Ascii a0 a1 a2 a3 a4 a5 a6 a7)
        (String (Ascii b0 b1 b2 b3 b4 b5 b6 b7) EmptyString)
  | [(a7, a6, a5, a4, a3, a2); (a1, a0, _, _, _, _)] =>
      String (Ascii a0 a1 a2 a3 a4 a5 a6 a7) EmptyString
  | _ => EmptyString
  end.

Definition decode (s : string) : string := bytes (scan s).

End Base64.

(** A [Buffer] is its bytes. *)
Definition Buffer : Type := string.

Inductive encoding : Type := utf8 | base64.

(** ** Strings and UTF-8 *)

Definition between (lo hi : N) (c : ascii) : bool :=
  let n := N_of_ascii c in ((lo <=? n) && (n <=? hi))%N.

(** What a byte opens in UTF-8: a character of one byte, or a form of
    two, three or four bytes.  The other bytes open nothing: they are
    the continuation bytes, and C0, C1 and F5 to FF, which no form
    holds. *)
Inductive lead : Type := Single | Double | Triple | Quadruple | Stray.

Definition lead_of (c : ascii) : lead :=
  if between 0 127 c then Single
  else if between 194 223 c then Double
  else if between 224 239 c then Triple
  else if between 240 244 c then Quadruple
  else Stray.

Definition is_continuation (c : ascii) : bool := between 128 191 c.

(** The second byte [c1] of a form of three or four bytes that [c]
    opens.  Its range is narrower after E0 and F0 (no form longer than
    needed), after ED (no surrogate) and after F4 (nothing beyond
    U+10FFFF). *)
Definition second (c c1 : ascii) : bool :=
  let n := N_of_ascii c in
  between (if n =? 224 then 160 else if n =? 240 then 144 else 128)%N
          (if n =? 237 then 159 else if n =? 244 then 143 else 191)%N c1.

(** The surrogate whose code the three bytes hold, if they hold one:
    ED, then A0 to BF, then a continuation byte. *)
Definition surrogate_of (c c1 c2 : ascii) : option N :=
  if (N_of_ascii c =? 237)%N && between 160 191 c1 && is_continuation c2 then
    Some (53248 + (N_of_ascii c1 - 128) * 64 + (N_of_ascii c2 - 128))%N
  else None.

Definition is_high_surrogate (u : N) : bool := ((55296 <=? u) && (u <=? 56319))%N.
Definition is_low_surrogate (u : N) : bool := ((56320 <=? u) && (u <=? 57343))%N.

(** The byte strings that stand for a string of the program: the forms
    of UTF-8 and the three-byte forms of the surrogates, where no low
    surrogate follows a high one (the two together are one character,
    of four bytes).  [high] tells that a high surrogate came just
    before. *)
Fixpoint well_formed_after (high : bool) (s : string) : bool :=
  match s with
  | EmptyString => true
  | String c rest =>
      match lead_of c with
      | Single => well_formed_after false rest
      | Double =>
          match rest with
          | String c1 rest1 => is_continuation c1 && well_formed_after false rest1
          | EmptyString => false
          end
      | Triple =>
          match rest with
          | String c1 (String c2 rest2) =>
              if second c c1 then is_continuation c2 && well_formed_after false rest2
              else
                match surrogate_of c c1 c2 with
                | Some u =>
                    (is_high_surrogate u || negb high)
                    && well_formed_after (is_high_surrogate u) rest2
                | None => false
                end
          | _ => false
          end
      | Quadruple =>
          match rest with
          | String c1 (String c2 (String c3 rest3)) =>
              second c c1 && is_continuation c2 && is_continuation c3
              && well_formed_after false rest3
          | _ => false
          end
      | Stray => false
      end
  end.

Definition well_formed (s : string) : bool := well_formed_after false s.

(** U+FFFD in UTF-8 *)
Definition replacement : string :=
  String (ascii_of_N 239) (String (ascii_of_N 191) (String (ascii_of_N 189) "")).

(** The UTF-8 bytes that [Buffer.from(s)] writes for a string: a
    surrogate without its partner is written as U+FFFD. *)
Fixpoint utf8_of_string (s : string) : string :=
  match s with
  | EmptyString => EmptyString
  | String c rest =>
      match rest with
      | String c1 (String c2 rest2) =>
          match surrogate_of c c1 c2 with
          | Some _ => replacement ++ utf8_of_string rest2
          | None => String c (utf8_of_string rest)
          end
      | _ => String c (utf8_of_string rest)
      end
  end.

(** The string that [buf.toString('utf-8')] reads from bytes: the
    decoder keeps a well-formed sequence, and writes U+FFFD for a byte
    that opens nothing and for a sequence that breaks off, at its end
    or at a byte that cannot continue it; that byte is read again as a
    first byte. *)
Fixpoint string_of_utf8 (buf : string) : string :=
  match buf with
  | EmptyString => EmptyString
  | String c rest =>
      match lead_of c with
      | Single => String c (string_of_utf8 rest)
      | Double =>
          match rest with
          | String c1 rest1 =>
              if is_continuation c1 then String c (String c1 (string_of_utf8 rest1))
              else replacement ++ string_of_utf8 rest
          | EmptyString => replacement
          end
      | Triple =>
          match rest with
          | String c1 rest1 =>
              if second c c1 then
                match rest1 with
                | String c2 rest2 =>
                    if is_continuation c2 then
                      String c (String c1 (String c2 (string_of_utf8 rest2)))
                    else replacement ++ string_of_utf8 rest1
                | EmptyString => replacement
                end
              else replacement ++ string_of_utf8 rest
          | EmptyString => replacement
          end
      | Quadruple =>
          match rest with
          | String c1 rest1 =>
              if second c c1 then
                match rest1 with
                | String c2 rest2 =>
                    if is_continuation c2 then
                      match rest2 with
                      | String c3 rest3 =>
                          if is_continuation c3 then
                            String c
                              (String c1 (String c2 (String c3 (string_of_utf8 rest3))))
                          else replacement ++ string_of_utf8 rest2
                      | EmptyString => replacement
                      end
                    else replacement ++ string_of_utf8 rest1
                | EmptyString => replacement
                end
              else replacement ++ string_of_utf8 rest
          | EmptyString => replacement
          end
      | Stray => replacement ++ string_of_utf8 rest
      end
  end.

(** ** JSON.stringify *)

Definition dquote : ascii := ascii_of_N 34.
Definition backslash : ascii := ascii_of_N 92.
Definition newline : string := String (ascii_of_N 10) "".

Definition hex_digit (n : N) : ascii :=
  match String.get (N.to_nat n) "0123456789abcdef" with
  | Some c => c
  | None => "0"%char
  end.

(** QuoteJSONString on one character.  Bytes from 128 up belong to the
    encoding of a character beyond ASCII, which is copied as it is. *)
Definition quote_char (c : ascii) : string :=
  let n := N_of_ascii c in
  if (n =? 8)%N then "\b"
  else if (n =? 9)%N then "\t"
  else if (n =? 10)%N then "\n"
  else if (n =? 12)%N then "\f"
  else if (n =? 13)%N then "\r"
  else if (n =? 34)%N then String backslash (String dquote "")
  else if (n =? 92)%N then String backslash (String backslash "")
  else if (n <? 32)%N then
    "\u00" ++ String (hex_digit (n / 16)) (String (hex_digit (n mod 16)) "")
  else String c "".

(** UnicodeEscape: [\u] and four hexadecimal digits, in lower case. *)
Definition unicode_escape (u : N) : string :=
  String backslash
    (String "u"
       (String (hex_digit (u / 4096))
          (String (hex_digit ((u / 256) mod 16))
             (String (hex_digit ((u / 16) mod 16))
                (String (hex_digit (u mod 16)) ""))))).

(** QuoteJSONString on the characters of a string: a surrogate without
    its partner is written as its escape, any other character as
    [quote_char] writes its bytes. *)
Fixpoint quote_body (s : string) : string :=
  match s with
  | EmptyString => EmptyString
  | String c rest =>
      match rest with
      | String c1 (String c2 rest2) =>
          match surrogate_of c c1 c2 with
          | Some u => unicode_escape u ++ quote_body rest2
          | None => quote_char c ++ quote_body rest
          end
      | _ => quote_char c ++ quote_body rest
      end
  end.

Definition quote (s : string) : string :=
  String dquote (quote_body s ++ String dquote "").

(** The closing steps of SerializeJSONArray and SerializeJSONObject. *)
Definition wrap (opening closing gap stepback indent : string)
    (partial : list string) : string :=
  match partial with
  | [] => opening ++ closing
  | _ =>
      if (gap =? "")%string then opening ++ join "," partial ++ closing
      else opening ++ newline ++ indent
             ++ join ("," ++ newline ++ indent) partial
             ++ newline ++ stepback ++ closing
  end.

(** SerializeJSONProperty for a value in an array or object, with the
    current indentation.  An [undefined] array element is written [null];
    an object member whose value is [undefined] is left out. *)
Fixpoint serialize (gap indent : string) (v : value) : string :=
  match v with
  | VUndefined | VNull => "null"
  | VBool true => "true"
  | VBool false => "false"
  | VNum _ | VDbl _ => Number_json v
  | VStr s => quote s
  | VArr elems =>
      wrap "[" "]" gap indent (indent ++ gap)
        (map (serialize gap (indent ++ gap)) elems)
  | VObj props =>
      wrap "{" "}" gap indent (indent ++ gap)
        ((fix members (l : list (string * value)) : list string :=
            match l with
            | [] => []
            | (k, VUndefined) :: rest => members rest
            | (k, x) :: rest =>
                (quote k ++ ":" ++ (if (gap =? "")%string then "" else " ")
                   ++ serialize gap (indent ++ gap) x) :: members rest
            end) props)
  end.

Fixpoint spaces (n : nat) : string :=
  match n with
  | O => ""
  | S m => String " " (spaces m)
  end.

(** [JSON.stringify(v, null, space)] for a numeric [space] (at most ten
    spaces are used), and [JSON.stringify(v)] as [space = 0].  The result
    is [undefined] for [undefined]. *)
Definition JSON_stringify (v : value) (space : nat) : value :=
  match v with
  | VUndefined => VUndefined
  | _ => VStr (serialize (spaces (Nat.min space 10)) "" v)
  end.

(** ** JSON.parse *)

Definition is_ws (c : ascii) : bool :=
  let n := N_of_ascii c in
  ((n =? 32) || (n =? 9) || (n =? 10) || (n =? 13))%N.

Fixpoint skip_ws (s : string) : string :=
  match s with
  | EmptyString => EmptyString
  | String c rest => if is_ws c then skip_ws rest else s
  end.

Fixpoint strip_prefix (p s : string) : option string :=
  match p, s with
  | EmptyString, _ => Some s
  | String a p', String b s' => if (a =? b)%char then strip_prefix p' s' else None
  | String _ _, EmptyString => None
  end.

Definition hex_value (c : ascii) : option N :=
  let n := N_of_ascii c in
  if ((48 <=? n) && (n <=? 57))%N then Some (n - 48)%N
  else if ((97 <=? n) && (n <=? 102))%N then Some (n - 87)%N
  else if ((65 <=? n) && (n <=? 70))%N then Some (n - 55)%N
  else None.

Definition hex4 (a b c d : ascii) : option N :=
  match hex_value a, hex_value b, hex_value c, hex_value d with
  | Some x, Some y, Some z, Some w => Some (4096 * x + 256 * y + 16 * z + w)%N
  | _, _, _, _ => None
  end.

(** UTF-8 bytes of a code point.  A surrogate left alone by a [\u] escape
    keeps the three-byte form of its code. *)
Definition utf8_encode (cp : N) : string :=
  if (cp <? 128)%N then String (ascii_of_N cp) ""
  else if (cp <? 2048)%N then
    String (ascii_of_N (192 + cp / 64))
      (String (ascii_of_N (128 + cp mod 64)) "")
  else if (cp <? 65536)%N then
    String (ascii_of_N (224 + cp / 4096))
      (String (ascii_of_N (128 + (cp / 64) mod 64))
         (String (ascii_of_N (128 + cp mod 64)) ""))
  else
    String (ascii_of_N (240 + cp / 262144))
      (String (ascii_of_N (128 + (cp / 4096) mod 64))
         (String (ascii_of_N (128 + (cp / 64) mod 64))
            (String (ascii_of_N (128 + cp mod 64)) ""))).

Definition surrogate_pair (hi lo : N) : N :=
  (65536 + (hi - 55296) * 1024 + (lo - 56320))%N.

Definition simple_escape (e : ascii) : option ascii :=
  let n := N_of_ascii e in
  if (n =? 34)%N then Some dquote
  else if (n =? 92)%N then Some backslash
  else if (n =? 47)%N then Some "/"%char
  else if (n =? 98)%N then Some (ascii_of_N 8)
  else if (n =? 102)%N then Some (ascii_of_N 12)
  else if (n =? 110)%N then Some (ascii_of_N 10)
  else if (n =? 114)%N then Some (ascii_of_N 13)
  else if (n =? 116)%N then Some (ascii_of_N 9)
  else None.

Definition prepend (p : string) (r : option (string * string))
    : option (string * string) :=
  match r with
  | Some (s, rest) => Some (p ++ s, rest)
  | None => None
  end.

(** The characters of a string literal after its opening quote, up to and
    including the closing quote; [pending] is a high surrogate read from
    the escape just before, waiting for its low surrogate. *)
Fixpoint parse_chars (pending : option N) (s : string)
    : option (string * string) :=
  let flush := match pending with Some hi => utf8_encode hi | None => "" end in
  match s with
  | EmptyString => None
  | String c rest =>
      if (c =? dquote)%char then Some (flush, rest)
      else if (c =? backslash)%char then
        match rest with
        | EmptyString => None
        | String e rest1 =>
            if (e =? "u")%char then
              match rest1 with
              | String h1 (String h2 (String h3 (String h4 rest2))) =>
                  match hex4 h1 h2 h3 h4 with
                  | None => None
                  | Some u =>
                      match pending with
                      | Some hi =>
                          if is_low_surrogate u then
                            prepend (utf8_encode (surrogate_pair hi u))
                              (parse_chars None rest2)
                          else if is_high_surrogate u then
                            prepend (utf8_encode hi) (parse_chars (Some u) rest2)
                          else
                            prepend (utf8_encode hi ++ utf8_encode u)
                              (parse_chars None rest2)
                      | None =>
                          if is_high_surrogate u then parse_chars (Some u) rest2
                          else prepend (utf8_encode u) (parse_chars None rest2)
                      end
                  end
              | _ => None
              end
            else
              match simple_escape e with
              | Some b => prepend (flush ++ String b "") (parse_chars None rest1)
              | None => None
              end
        end
      else if (N_of_ascii c <? 32)%N then None
      else prepend (flush ++ String c "") (parse_chars None rest)
  end.

Definition is_digit (c : ascii) : bool :=
  let n := N_of_ascii c in ((48 <=? n) && (n <=? 57))%N.

Fixpoint scan_digits (s : string) : string * string :=
  match s with
  | EmptyString => (EmptyString, EmptyString)
  | String c rest =>
      if is_digit c then
        let (ds, r) := scan_digits rest in (String c ds, r)
      else (EmptyString, s)
  end.

Definition starts_fraction_or_exponent (s : string) : bool :=
  match s with
  | EmptyString => false
  | String c _ => ((c =? ".") || (c =? "e") || (c =? "E"))%char
  end.

(** The fraction of a number token, if any: a point and at least one
    digit. *)
Definition parse_fraction (s : string) : option (string * string) :=
  match s with
  | String "." r =>
      match scan_digits r with
      | (EmptyString, _) => None
      | (ds, rest) => Some (ds, rest)
      end
  | _ => Some (EmptyString, s)
  end.

(** The exponent, if any: [e] or [E], a sign or none, and at least one
    digit. *)
Definition parse_exponent (s : string) : option (Z * string) :=
  match s with
  | String c r =>
      if ((c =? "e") || (c =? "E"))%char then
        let (negative, r1) :=
          match r with
          | String "-" r' => (true, r')
          | String "+" r' => (false, r')
          | _ => (false, r)
          end in
        match scan_digits r1 with
        | (EmptyString, _) => None
        | (ds, rest) =>
            match NilEmpty.uint_of_string ds with
            | Some u => Some (if negative then - Z.of_uint u else Z.of_uint u, rest)
            | None => None
            end
        end
      else Some (0, s)
  | EmptyString => Some (0, s)
  end.

(** A number token: a sign or none, digits with no needless [0] in front,
    then a fraction and an exponent if any.  The value is the double
    nearest to what the token denotes. *)
Definition parse_number (s : string) : option (value * string) :=
  let (negative, s1) :=
    match s with
    | String "-" r => (true, r)
    | _ => (false, s)
    end in
  let (ds, rest) := scan_digits s1 in
  match ds with
  | EmptyString => None
  | String d more =>
      if ((d =? "0")%char && negb (more =? "")%string) then None
      else if starts_fraction_or_exponent rest then
        match parse_fraction rest with
        | Some (fs, rest1) =>
            match parse_exponent rest1 with
            | Some (x, rest2) =>
                match NilEmpty.uint_of_string (ds ++ fs) with
                | Some u =>
                    Some (Number_of_decimal negative (Z.of_uint u)
                            (x - Z.of_nat (String.length fs)), rest2)
                | None => None
                end
            | None => None
            end
        | None => None
        end
      else
        match NilEmpty.uint_of_string ds with
        | Some u =>
            Some (Number_of_Z (if negative then - Z.of_uint u else Z.of_uint u), rest)
        | None => None
        end
  end.

(** An array index is the canonical decimal form of an integer below
    [2^32 - 1]; own properties with such keys are enumerated first, in
    ascending order, before the other keys in order of creation. *)
Definition array_index (k : string) : option N :=
  match k with
  | EmptyString => None
  | String d more =>
      if ((d =? "0")%char && negb (more =? "")%string) then None
      else
        match NilEmpty.uint_of_string k with
        | Some u => let n := N.of_uint u in
                    if (n <? 4294967295)%N then Some n else None
        | None => None
        end
  end.

Fixpoint has_key (k : string) (props : list (string * value)) : bool :=
  match props with
  | [] => false
  | (k', _) :: rest => (k =? k')%string || has_key k rest
  end.

Fixpoint replace (k : string) (v : value) (props : list (string * value))
    : list (string * value) :=
  match props with
  | [] => []
  | (k', v') :: rest =>
      if (k =? k')%string then (k', v) :: rest else (k', v') :: replace k v rest
  end.

Fixpoint insert_index (n : N) (k : string) (v : value)
    (props : list (string * value)) : list (string * value) :=
  match props with
  | [] => [(k, v)]
  | (k', v') :: rest =>
      match array_index k' with
      | Some m =>
          if (m <? n)%N then (k', v') :: insert_index n k v rest
          else (k, v) :: props
      | None => (k, v) :: props
      end
  end.

(** CreateDataProperty on an ordinary object, also the effect of the
    assignment [o.k = v]: an existing property keeps its place. *)
Definition define_property (k : string) (v : value)
    (props : list (string * value)) : list (string * value) :=
  if has_key k props then replace k v props
  else
    match array_index k with
    | Some n => insert_index n k v props
    | None => props ++ [(k, v)]
    end.

Section Parser.

(** The parser of values one nesting level down. *)
Variable parse_inner : string -> option (value * string).

(** After [[] and a first look past white space: the elements and the
    closing bracket. *)
Fixpoint parse_elements (fuel : nat) (s : string) : option (list value * string) :=
  match fuel with
  | O => None
  | S fuel' =>
      match parse_inner s with
      | None => None
      | Some (v, rest) =>
          match skip_ws rest with
          | String c rest' =>
              if (c =? "]")%char then Some ([v], rest')
              else if (c =? ",")%char then
                match parse_elements fuel' rest' with
                | Some (vs, rest'') => Some (v :: vs, rest'')
                | None => None
                end
              else None
          | EmptyString => None
          end
      end
  end.

(** The members of an object and the closing brace; [acc] holds the
    properties created so far. *)
Fixpoint parse_members (fuel : nat) (acc : list (string * value)) (s : string)
    : option (list (string * value) * string) :=
  match fuel with
  | O => None
  | S fuel' =>
      match skip_ws s with
      | String q s1 =>
          if negb (q =? dquote)%char then None
          else
            match parse_chars None s1 with
            | None => None
            | Some (k, s2) =>
                match skip_ws s2 with
                | String colon s3 =>
                    if negb (colon =? ":")%char then None
                    else
                      match parse_inner s3 with
                      | None => None
                      | Some (v, s4) =>
                          let acc' := define_property k v acc in
                          match skip_ws s4 with
                          | String c s5 =>
                              if (c =? "}")%char then Some (acc', s5)
                              else if (c =? ",")%char then parse_members fuel' acc' s5
                              else None
                          | EmptyString => None
                          end
                      end
                | EmptyString => None
                end
            end
      | EmptyString => None
      end
  end.

End Parser.

Definition map_fst {A B C} (f : A -> B) (r : option (A * C)) : option (B * C) :=
  match r with
  | Some (a, c) => Some (f a, c)
  | None => None
  end.

(** One JSON value, white space before it allowed; the rest of the text is
    returned.  [fuel] bounds the nesting and the number of elements. *)
Fixpoint parse_value (fuel : nat) (s : string) : option (value * string) :=
  match fuel with
  | O => None
  | S fuel' =>
      match skip_ws s with
      | EmptyString => None
      | String c rest as s' =>
          if (c =? "[")%char then
            match skip_ws rest with
            | String c' rest' =>
                if (c' =? "]")%char then Some (VArr [], rest')
                else map_fst VArr (parse_elements (parse_value fuel') fuel' rest)
            | EmptyString => None
            end
          else if (c =? "{")%char then
            match skip_ws rest with
            | String c' rest' =>
                if (c' =? "}")%char then Some (VObj [], rest')
                else map_fst VObj (parse_members (parse_value fuel') fuel' [] rest)
            | EmptyString => None
            end
          else if (c =? dquote)%char then map_fst VStr (parse_chars None rest)
          else if (c =? "t")%char then
            option_map (fun r => (VBool true, r)) (strip_prefix "true" s')
          else if (c =? "f")%char then
            option_map (fun r => (VBool false, r)) (strip_prefix "false" s')
          else if (c =? "n")%char then
            option_map (fun r => (VNull, r)) (strip_prefix "null" s')
          else parse_number s'
      end
  end.

(** [JSON.parse(text)]: one value and nothing but white space after it;
    anything else is a [SyntaxError].  Its message stands for the one of
    the engine, which names the offending token and its position and has
    changed between versions; no property below depends on it. *)
Definition JSON_parse (text : string) : result value :=
  match parse_value (S (String.length text)) text with
  | Some (v, rest) =>
      match skip_ws rest with
      | EmptyString => ok v
      | _ => throw (SyntaxError "Unexpected non-whitespace character after JSON")
      end
  | None => throw (SyntaxError "Unexpected token in JSON")
  end.

Definition key_before (k k' : string) : bool :=
  match array_index k, array_index k' with
  | Some a, Some b => (a <? b)%N
  | Some _, None => true
  | None, Some _ => false
  | None, None => true
  end.

(** The keys of an object: well-formed strings, distinct, in enumeration
    order. *)
Fixpoint keys_ordered (ks : list string) : bool :=
  match ks with
  | [] => true
  | k :: rest =>
      well_formed k
      && forallb (fun k' => negb (k =? k')%string && key_before k k') rest
      && keys_ordered rest
  end.

(** The values for which [JSON.parse] is shown below to undo
    [JSON.stringify]: no [undefined] anywhere, for numbers the integers of
    at most 53 bits, every string well-formed, and the properties of
    every object under distinct keys in enumeration order. *)
Fixpoint is_json (v : value) : bool :=
  match v with
  | VUndefined => false
  | VNull | VBool _ => true
  | VStr s => well_formed s
  | VNum n => Z.abs n <=? 2 ^ 53
  | VDbl _ => false
  | VArr elems => forallb is_json elems
  | VObj props =>
      keys_ordered (map fst props)
      && (fix all (l : list (string * value)) : bool :=
            match l with
            | [] => true
            | (_, x) :: rest => is_json x && all rest
            end) props
  end.

(** ** The platform around the handler *)

(** The incoming request, as far as the handler reads it. *)
Record request : Type := {
  method : string;
  body : value;
}.

(** What the handler answers through [res]: the status given to
    [res.status], the headers put on [res] with [res.setHeader] up to that
    moment, and the object given to [res.json]. *)
Record reply : Type := {
  status : Z;
  headers : list (string * string);
  json : value;
}.

(** The arguments of a call of [fetch]. *)
Record fetch_call : Type := {
  fetch_url : string;
  fetch_method : string;
  fetch_headers : list (string * string);
  fetch_body : value;
}.

(** The [Response] a call of [fetch] resolves to: its status, and what
    reading its body to the end gives, the text or a rejection. *)
Record Response : Type := {
  Response_status : Z;
  Response_text : result string;
}.

Definition Response_ok (r : Response) : bool :=
  (200 <=? Response_status r) && (Response_status r <=? 299).

(** What lies outside the function: the network behind [fetch], which may
    answer or reject and changes state as it is written to; the clock;
    and [Buffer.from] on arrays and objects, whose result the handler
    passes on without looking at it. *)
Class Platform : Type := {
  World : Type;
  fetch : fetch_call -> World -> (exn + Response) * World;
  Date_toISOString : World -> string;
  Buffer_from_object : value -> result Buffer;
}.

(** [process.env] *)
Definition environment : Type := list (string * string).

Fixpoint getenv (env : environment) (name : string) : value :=
  match env with
  | [] => VUndefined
  | (k, v) :: rest => if (name =? k)%string then VStr v else getenv rest name
  end.

(** What Node says of an argument that [Buffer.from] refuses. *)
Definition received (v : value) : string :=
  match v with
  | VUndefined => " Received undefined"
  | VNull => " Received null"
  | VBool true => " Received type boolean (true)"
  | VBool false => " Received type boolean (false)"
  | _ => " Received type number (" ++ Number_toString v ++ ")"
  end.

(** [Buffer.from(v)] and [Buffer.from(v, 'base64')] *)
Definition Buffer_from `{Platform} (v : value) (enc : encoding) : result Buffer :=
  match v with
  | VStr s =>
      ok (match enc with
          | utf8 => utf8_of_string s
          | base64 => Base64.decode s
          end)
  | VArr _ | VObj _ => Buffer_from_object v
  | _ =>
      throw (TypeError ("The first argument must be of type string or an instance of Buffer, ArrayBuffer, or Array or an Array-like Object." ++ received v))
  end.

(** [buf.toString('base64')] and [buf.toString('utf-8')] *)
Definition Buffer_toString (buf : Buffer) (enc : encoding) : string :=
  match enc with
  | base64 => Base64.encode buf
  | utf8 => string_of_utf8 buf
  end.

(** A template literal: the conversions of its parts, joined. *)
Fixpoint template (parts : list value) : result string :=
  match parts with
  | [] => ok ""
  | p :: rest =>
      (s <- to_string p ;;
       t <- template rest ;;
       ok (s ++ t))%res
  end.

(** [o.k = v] in strict code. *)
Definition assign (o : value) (k : string) (v : value) : result value :=
  match o with
  | VObj props => ok (VObj (define_property k v props))
  | VUndefined =>
      throw (TypeError ("Cannot set properties of undefined (setting '" ++ k ++ "')"))
  | VNull =>
      throw (TypeError ("Cannot set properties of null (setting '" ++ k ++ "')"))
  | _ => throw (TypeError ("Cannot create property '" ++ k ++ "'"))
  end.

(** [s.split('T')[0]] *)
Fixpoint before_T (s : string) : string :=
  match s with
  | EmptyString => EmptyString
  | String c rest => if (c =? "T")%char then EmptyString else String c (before_T rest)
  end.

(** [/^[a-z][a-z0-9_]*$/.test(s)] *)
Definition is_lower (c : ascii) : bool :=
  let n := N_of_ascii c in ((97 <=? n) && (n <=? 122))%N.

Fixpoint all_chars (p : ascii -> bool) (s : string) : bool :=
  match s with
  | EmptyString => true
  | String c rest => p c && all_chars p rest
  end.

Definition id_pattern (s : string) : bool :=
  match s with
  | EmptyString => false
  | String c rest =>
      is_lower c && all_chars (fun x => is_lower x || is_digit x || (x =? "_")%char) rest
  end.

(** ** The handler's effects *)

Record state `{Platform} : Type := {
  world : World;
  calls : list fetch_call;            (* the calls of [fetch], oldest first *)
  console : list (string * string);   (* the lines of [console.error] *)
  res_headers : list (string * string);
}.

Definition start `{Platform} (w : World) : state :=
  {| world := w; calls := []; console := []; res_headers := [] |}.

Inductive outcome (A : Type) : Type :=
| Value (a : A)
| Return (r : reply)
| Throw (e : exn).
Arguments Value {A} a.
Arguments Return {A} r.
Arguments Throw {A} e.

Definition M `{Platform} (A : Type) : Type := state -> outcome A * state.

Definition pure `{Platform} {A} (a : A) : M A := fun st => (Value a, st).

Definition bind `{Platform} {A B} (m : M A) (f : A -> M B) : M B :=
  fun st =>
    match m st with
    | (Value a, st') => f a st'
    | (Return r, st') => (Return r, st')
    | (Throw e, st') => (Throw e, st')
    end.

Definition lift `{Platform} {A} (r : result A) : M A :=
  fun st =>
    match r with
    | inl e => (Throw e, st)
    | inr a => (Value a, st)
    end.

Declare Scope handler_scope.
Delimit Scope handler_scope with M.
Notation "x <- m ;; k" := (bind m (fun x => k))
  (at level 61, m at next level, right associativity) : handler_scope.
Notation "m ;; k" := (bind m (fun _ => k))
  (at level 61, right associativity) : handler_scope.

(** [return res.status(code).json(obj)] *)
Definition res_json `{Platform} {A} (code : Z) (obj : value) : M A :=
  fun st =>
    (Return {| status := code; headers := res_headers st; json := obj |}, st).

(** [res.setHeader(name, v)] *)
Definition setHeader `{Platform} (name v : string) (st : state) : state :=
  {| world := world st;
     calls := calls st;
     console := console st;
     res_headers :=
       filter (fun h => negb (fst h =? name)%string) (res_headers st) ++ [(name, v)] |}.

(** [await fetch(url, init)] *)
Definition await_fetch `{Platform} (c : fetch_call) : M Response :=
  fun st =>
    let (answer, w) := fetch c (world st) in
    let st' := {| world := w;
                  calls := calls st ++ [c];
                  console := console st;
                  res_headers := res_headers st |} in
    match answer with
    | inl e => (Throw e, st')
    | inr r => (Value r, st')
    end.

(** [console.error(label, detail)] *)
Definition console_error `{Platform} (label detail : string) : M unit :=
  fun st =>
    (Value tt,
     {| world := world st;
        calls := calls st;
        console := console st ++ [(label, detail)];
        res_headers := res_headers st |}).

(** [new Date().toISOString()] *)
Definition now `{Platform} : M string :=
  fun st => (Value (Date_toISOString (world st)), st).

(** ** api/submit.js *)

Definition failure (error : string) : value :=
  VObj [("success", VBool false); ("error", VStr error)].

Definition required : list string :=
  ["id"; "cn_name"; "author"; "description"; "code"].

(** [for (const field of required) { if (!data[field]) return ... }] *)
Fixpoint check_required `{Platform} (data : value) (fields : list string) : M unit :=
  match fields with
  | [] => pure tt
  | field :: rest =>
      (x <- lift (get data field) ;;
       if negb (truthy x) then
         res_json 400 (failure ("缺少必填字段: " ++ field))
       else check_required data rest)%M
  end.

Definition configContent (data pluginId : value) : result value :=
  (cn_name <- get data "cn_name" ;;
   version <- get data "version" ;;
   author <- get data "author" ;;
   description <- get data "description" ;;
   full_description <- get data "full_description" ;;
   description' <- get data "description" ;;
   category <- get data "category" ;;
   triggers <- get data "commands" ;;
   features <- get data "features" ;;
   usage <- get data "usage" ;;
   commands <- get data "commands" ;;
   changelog <- get data "changelog" ;;
   notes <- get data "notes" ;;
   ok (VObj
         [("id", pluginId);
          ("name", pluginId);
          ("cn_name", cn_name);
          ("version", or_else version (VStr "1.0.0"));
          ("author", author);
          ("description", description);
          ("full_description", or_else full_description description');
          ("category", or_else category (VStr "工具"));
          ("keywords", VArr []);
          ("triggers", or_else triggers (VArr []));
          ("features", or_else features (VArr []));
          ("usage", or_else usage (VStr ""));
          ("commands", or_else commands (VArr []));
          ("changelog", or_else changelog (VStr "v1.0.0 - 初始版本"));
          ("notes", or_else notes (VStr ""));
          ("featured", VBool false)]))%res.

Definition headers_for (GITHUB_TOKEN : value) : result (list (string * string)) :=
  (authorization <- template [VStr "token "; GITHUB_TOKEN] ;;
   ok [("Authorization", authorization);
       ("Accept", "application/vnd.github.v3+json");
       ("Content-Type", "application/json")])%res.

Definition contents_url (GITHUB_REPO : value) (path : string) : result string :=
  template [VStr "https://api.github.com/repos/"; GITHUB_REPO;
            VStr "/contents/"; VStr path].

Definition pluginData `{Platform} (data : value) : result value :=
  (cn_name <- get data "cn_name" ;;
   message <- template [VStr "Add plugin: "; cn_name] ;;
   code <- get data "code" ;;
   buf <- Buffer_from code utf8 ;;
   ok (VObj [("message", VStr message);
             ("content", VStr (Buffer_toString buf base64));
             ("branch", VStr "main")]))%res.

Definition configData `{Platform} (data configContent : value) : result value :=
  (cn_name <- get data "cn_name" ;;
   message <- template [VStr "Add config for: "; cn_name] ;;
   buf <- Buffer_from (JSON_stringify configContent 2) utf8 ;;
   ok (VObj [("message", VStr message);
             ("content", VStr (Buffer_toString buf base64));
             ("branch", VStr "main")]))%res.

(** The fetched [plugins.json], or the empty catalogue when the fetch did
    not succeed: [pluginsData] and [sha]. *)
Definition read_index `{Platform} (pluginsRes : Response) : result (value * value) :=
  if Response_ok pluginsRes then
    (text <- Response_text pluginsRes ;;
     pluginsFile <- JSON_parse text ;;
     content <- get pluginsFile "content" ;;
     buf <- Buffer_from content base64 ;;
     let currentContent := Buffer_toString buf utf8 in
     pluginsData <- JSON_parse currentContent ;;
     sha <- get pluginsFile "sha" ;;
     ok (pluginsData, sha))%res
  else
    ok (VObj [("version", VStr "1.0.0");
              ("last_updated", VStr "");
              ("plugins", VArr [])],
        VNull).

Fixpoint map_result {A B} (f : A -> result B) (l : list A) : result (list B) :=
  match l with
  | [] => ok []
  | a :: rest =>
      (b <- f a ;;
       bs <- map_result f rest ;;
       ok (b :: bs))%res
  end.

(** [pluginsData.plugins], which must be an array for [map] and [push]
    to be callable on it. *)
Definition plugins_of (pluginsData : value) (callee : string) : result (list value) :=
  (plugins <- get pluginsData "plugins" ;;
   match plugins with
   | VArr l => ok l
   | VUndefined =>
       throw (TypeError ("Cannot read properties of undefined (reading '" ++ callee ++ "')"))
   | VNull =>
       throw (TypeError ("Cannot read properties of null (reading '" ++ callee ++ "')"))
   | _ => throw (TypeError ("pluginsData.plugins." ++ callee ++ " is not a function"))
   end)%res.

(** [pluginsData.plugins.map(p => p.id)] *)
Definition existingIds (pluginsData : value) : result (list value) :=
  (plugins <- plugins_of pluginsData "map" ;;
   map_result (fun p => get p "id") plugins)%res.

Definition newPlugin (data pluginId GITHUB_REPO : value) : result value :=
  (cn_name <- get data "cn_name" ;;
   version <- get data "version" ;;
   author <- get data "author" ;;
   description <- get data "description" ;;
   full_description <- get data "full_description" ;;
   description' <- get data "description" ;;
   category <- get data "category" ;;
   triggers <- get data "commands" ;;
   features <- get data "features" ;;
   usage <- get data "usage" ;;
   commands <- get data "commands" ;;
   changelog <- get data "changelog" ;;
   notes <- get data "notes" ;;
   download_url <-
     template [VStr "https://raw.githubusercontent.com/"; GITHUB_REPO;
               VStr "/main/plugins/"; pluginId] ;;
   ok (VObj
         [("id", pluginId);
          ("name", pluginId);
          ("cn_name", cn_name);
          ("version", or_else version (VStr "1.0.0"));
          ("author", author);
          ("description", description);
          ("full_description", or_else full_description description');
          ("category", or_else category (VStr "工具"));
          ("keywords", VArr []);
          ("triggers", or_else triggers (VArr []));
          ("features", or_else features (VArr []));
          ("usage", or_else usage (VStr ""));
          ("commands", or_else commands (VArr []));
          ("changelog", or_else changelog (VStr "v1.0.0 - 初始版本"));
          ("notes", or_else notes (VStr ""));
          ("downloads", VNum 0);
          ("rating", VNum 5);
          ("featured", VBool false);
          ("download_url", VStr download_url)]))%res.

(** [pluginsData.plugins.push(newPlugin)] followed by
    [pluginsData.last_updated = today]. *)
Definition add_plugin (pluginsData newPlugin : value) (today : string) : result value :=
  (plugins <- plugins_of pluginsData "push" ;;
   withPlugin <-
     match pluginsData with
     | VObj props => ok (VObj (replace "plugins" (VArr (plugins ++ [newPlugin])) props))
     | other => ok other
     end ;;
   assign withPlugin "last_updated" (VStr today))%res.

Definition updateData `{Platform} (data pluginsData sha : value) : result value :=
  (cn_name <- get data "cn_name" ;;
   message <- template [VStr "Add plugin to list: "; cn_name] ;;
   buf <- Buffer_from (JSON_stringify pluginsData 2) utf8 ;;
   let updateData :=
     [("message", VStr message);
      ("content", VStr (Buffer_toString buf base64));
      ("branch", VStr "main")] in
   ok (VObj (if truthy sha then define_property "sha" sha updateData
             else updateData)))%res.

Definition default_repo : string := "VBHC-UHY/whitesalary-plugins".

(** [process.env.GITHUB_TOKEN] and
    [process.env.GITHUB_REPO || 'VBHC-UHY/whitesalary-plugins'] *)
Definition GITHUB_TOKEN (env : environment) : value := getenv env "GITHUB_TOKEN".
Definition GITHUB_REPO (env : environment) : value :=
  or_else (getenv env "GITHUB_REPO") (VStr default_repo).

Definition put `{Platform} (url : string) (headers : list (string * string))
    (payload : value) : fetch_call :=
  {| fetch_url := url;
     fetch_method := "PUT";
     fetch_headers := headers;
     fetch_body := JSON_stringify payload 0 |}.

(** The last part of the [try] block, under the comment that announces
    the update of [plugins.json]: lines 109 to 176. *)
Definition update_index `{Platform} (env : environment) (data pluginId : value)
    (headers : list (string * string)) : M Empty_set :=
  (let GITHUB_REPO := GITHUB_REPO env in
   pluginsUrl <- lift (contents_url GITHUB_REPO "plugins.json") ;;
   pluginsRes <- await_fetch {| fetch_url := pluginsUrl;
                                fetch_method := "GET";
                                fetch_headers := headers;
                                fetch_body := VUndefined |} ;;
   index <- lift (read_index pluginsRes) ;;
   let (pluginsData, sha) := index : value * value in
   existingIds <- lift (existingIds pluginsData) ;;
   if includes existingIds pluginId then
     res_json 400 (failure "该插件ID已存在")
   else
   newPlugin <- lift (newPlugin data pluginId GITHUB_REPO) ;;
   date <- now ;;
   pluginsData <- lift (add_plugin pluginsData newPlugin (before_T date)) ;;
   updateData <- lift (updateData data pluginsData sha) ;;
   await_fetch (put pluginsUrl headers updateData) ;;
   cn_name <- lift (get data "cn_name") ;;
   message <- lift (template [VStr "插件 "; cn_name; VStr " 提交成功！"]) ;;
   res_json 200 (VObj [("success", VBool true); ("message", VStr message)]))%M.

(** The [try] block from the configuration on: lines 31 to 176.  Every
    path through it ends in [return]. *)
Definition publish `{Platform} (env : environment) (data pluginId : value)
    : M Empty_set :=
  (let GITHUB_TOKEN := GITHUB_TOKEN env in
   let GITHUB_REPO := GITHUB_REPO env in
   if negb (truthy GITHUB_TOKEN) then
     res_json 500 (failure "GitHub Token 未配置")
   else
   configContent <- lift (configContent data pluginId) ;;
   headers <- lift (headers_for GITHUB_TOKEN) ;;
   (* plugin.py *)
   pluginPath <- lift (template [VStr "plugins/"; pluginId; VStr "/plugin.py"]) ;;
   pluginUrl <- lift (contents_url GITHUB_REPO pluginPath) ;;
   pluginData <- lift (pluginData data) ;;
   pluginRes <- await_fetch (put pluginUrl headers pluginData) ;;
   if negb (Response_ok pluginRes) then
     errorText <- lift (Response_text pluginRes) ;;
     console_error "GitHub API error (plugin.py):" errorText ;;
     error <- lift (template [VStr "上传 plugin.py 失败: ";
                              VNum (Response_status pluginRes)]) ;;
     res_json 500 (failure error)
   else
   (* config.json *)
   configPath <- lift (template [VStr "plugins/"; pluginId; VStr "/config.json"]) ;;
   configUrl <- lift (contents_url GITHUB_REPO configPath) ;;
   configData <- lift (configData data configContent) ;;
   configRes <- await_fetch (put configUrl headers configData) ;;
   if negb (Response_ok configRes) then
     errorText <- lift (Response_text configRes) ;;
     console_error "GitHub API error (config.json):" errorText ;;
     error <- lift (template [VStr "上传 config.json 失败: ";
                              VNum (Response_status configRes)]) ;;
     res_json 500 (failure error)
   else
   (* plugins.json *)
   update_index env data pluginId headers)%M.

(** The body of the [try] block. *)
Definition submit `{Platform} (env : environment) (data : value) : M Empty_set :=
  (check_required data required ;;
   pluginId <- lift (get data "id") ;;
   idText <- lift (to_string pluginId) ;;
   if negb (id_pattern idText) then
     res_json 400 (failure "插件ID格式不正确")
   else publish env data pluginId)%M.

(** [try { ... } catch (error) { ... }] around a block whose every path
    ends in [return]: it yields no value of its own. *)
Definition try_catch `{Platform} (run : outcome Empty_set * state) : reply * state :=
  match run with
  | (Value nothing, _) => match nothing with end
  | (Return r, st) => (r, st)
  | (Throw error, st) =>
      match console_error "Submit error:" (message error) st with
      | (_, st') =>
          ({| status := 500;
              headers := res_headers st';
              json := failure (message error) |}, st')
      end
  end.

Definition handler `{Platform} (env : environment) (req : request) (w : World)
    : reply * state :=
  let st := start w in
  if negb (method req =? "POST")%string then
    ({| status := 405;
        headers := res_headers st;
        json := failure "Method not allowed" |}, st)
  else
    let st := setHeader "Access-Control-Allow-Origin" "*" st in
    let st := setHeader "Access-Control-Allow-Methods" "POST" st in
    let st := setHeader "Access-Control-Allow-Headers" "Content-Type" st in
    try_catch (submit env req.(body) st).

(** ** Vocabulary of the properties *)

Fixpoint assoc (name : string) (l : list (string * string)) : option string :=
  match l with
  | [] => None
  | (k, v) :: rest => if (name =? k)%string then Some v else assoc name rest
  end.

Definition header (r : reply) (name : string) : option string :=
  assoc name (headers r).

(** The three cross-origin headers of lines 9 to 11. *)
Definition cors (r : reply) : Prop :=
  header r "Access-Control-Allow-Origin" = Some "*"
  /\ header r "Access-Control-Allow-Methods" = Some "POST"
  /\ header r "Access-Control-Allow-Headers" = Some "Content-Type".

Definition cors_headers : list (string * string) :=
  [("Access-Control-Allow-Origin", "*");
   ("Access-Control-Allow-Methods", "POST");
   ("Access-Control-Allow-Headers", "Content-Type")].

(** The state of a run inside the [try] block: the world as it is now,
    the calls of [fetch] made and the lines logged so far. *)
Definition after `{Platform} (w : World) (sent : list fetch_call)
    (logged : list (string * string)) : state :=
  {| world := w; calls := sent; console := logged; res_headers := cors_headers |}.

(** A reply sent from inside the [try] block or from its [catch]. *)
Definition answer (code : Z) (obj : value) : reply :=
  {| status := code; headers := cors_headers; json := obj |}.

(** A computation that leaves the headers of [res] alone and replies, if
    it does, with them. *)
Definition keeps_headers `{Platform} {A} (m : M A) : Prop :=
  forall st,
    res_headers (snd (m st)) = res_headers st
    /\ forall r, fst (m st) = Return r -> headers r = res_headers st.

(** The value of a property, [undefined] when it cannot be read. *)
Definition field (o : value) (k : string) : value :=
  match get o k with
  | inr v => v
  | inl _ => VUndefined
  end.

(** A field that is there and truthy. *)
Definition present (data : value) (field : string) : bool :=
  match get data field with
  | inr v => truthy v
  | inl _ => false
  end.

(** A lowercase letter followed by lowercase letters, digits and
    underscores, in the words of the specification. *)
Inductive id_tail : string -> Prop :=
| tail_end : id_tail ""
| tail_lower c s : is_lower c = true -> id_tail s -> id_tail (String c s)
| tail_digit c s : is_digit c = true -> id_tail s -> id_tail (String c s)
| tail_underscore s : id_tail s -> id_tail (String "_" s).

Inductive identifier : string -> Prop :=
| identifier_intro c s : is_lower c = true -> id_tail s -> identifier (String c s).

(** A request body that passes the two validations: every required field
    present, and [id] with a string form that is an identifier. *)
Definition valid (data pluginId : value) (idText : string) : Prop :=
  forallb (present data) required = true
  /\ get data "id" = ok pluginId
  /\ to_string pluginId = ok idText
  /\ identifier idText.

(** The values that [SameValueZero] compares by what they are. *)
Definition is_primitive (v : value) : bool :=
  match v with
  | VArr _ | VObj _ => false
  | _ => true
  end.

(** The configured token and repository as strings, and the calls of
    [fetch] they lead to. *)
Definition token (env : environment) : string :=
  match GITHUB_TOKEN env with
  | VStr s => s
  | _ => ""
  end.

Definition repository (env : environment) : string :=
  match GITHUB_REPO env with
  | VStr s => s
  | _ => default_repo
  end.

Definition api_headers (env : environment) : list (string * string) :=
  [("Authorization", "token " ++ token env);
   ("Accept", "application/vnd.github.v3+json");
   ("Content-Type", "application/json")].

Definition contents (env : environment) (path : string) : string :=
  "https://api.github.com/repos/" ++ repository env ++ "/contents/" ++ path.

Definition put_plugin `{Platform} (env : environment) (idText : string)
    (payload : value) : fetch_call :=
  {| fetch_url := contents env ("plugins/" ++ idText ++ "/plugin.py");
     fetch_method := "PUT";
     fetch_headers := api_headers env;
     fetch_body := JSON_stringify payload 0 |}.

Definition put_config `{Platform} (env : environment) (idText : string)
    (payload : value) : fetch_call :=
  {| fetch_url := contents env ("plugins/" ++ idText ++ "/config.json");
     fetch_method := "PUT";
     fetch_headers := api_headers env;
     fetch_body := JSON_stringify payload 0 |}.

Definition get_index (env : environment) : fetch_call :=
  {| fetch_url := contents env "plugins.json";
     fetch_method := "GET";
     fetch_headers := api_headers env;
     fetch_body := VUndefined |}.

Definition put_index `{Platform} (env : environment) (payload : value) : fetch_call :=
  {| fetch_url := contents env "plugins.json";
     fetch_method := "PUT";
     fetch_headers := api_headers env;
     fetch_body := JSON_stringify payload 0 |}.

(** The two files of a plugin written with success, from world [w] to
    world [w'], with the payloads [pluginData'] and [configData']. *)
Definition uploaded `{Platform} (env : environment) (data pluginId : value)
    (idText : string) (w w' : World) (pluginData' configData' : value) : Prop :=
  exists configContent' pluginRes configRes w1,
    configContent data pluginId = ok configContent'
    /\ pluginData data = ok pluginData'
    /\ configData data configContent' = ok configData'
    /\ fetch (put_plugin env idText pluginData') w = (inr pluginRes, w1)
    /\ Response_ok pluginRes = true
    /\ fetch (put_config env idText configData') w1 = (inr configRes, w')
    /\ Response_ok configRes = true.

(** [result] is [source || fallback]. *)
Definition defaulted (source fallback result : value) : Prop :=
  (truthy source = true -> result = source)
  /\ (truthy source = false -> result = fallback).

(** The fields of the configuration document. *)
Definition config_fields : list string :=
  ["id"; "name"; "cn_name"; "version"; "author"; "description";
   "full_description"; "category"; "keywords"; "triggers"; "features";
   "usage"; "commands"; "changelog"; "notes"; "featured"].

(** The string form of the submitted [id], empty when it has none. *)
Definition id_text (data : value) : string :=
  match get data "id" with
  | inr pluginId =>
      match to_string pluginId with
      | inr idText => idText
      | inl _ => ""
      end
  | inl _ => ""
  end.

(** The four calls of a complete run, in the order of lines 75, 97, 112
    and 167, with the payloads of the three writes. *)
Definition plan `{Platform} (env : environment) (idText : string)
    (pluginData' configData' updateData' : value) : list fetch_call :=
  [put_plugin env idText pluginData';
   put_config env idText configData';
   get_index env;
   put_index env updateData'].

(** The ways a run of the [try] block ends: the reply, the calls of
    [fetch] made by then and the lines logged. *)
Inductive ending `{Platform} (env : environment) (idText : string)
    : reply * state -> Prop :=
| refused (error : string) w :
    ending env idText (answer 400 (failure error), after w [] [])
| not_configured w :
    ending env idText (answer 500 (failure "GitHub Token 未配置"), after w [] [])
| plugin_not_written p1 error detail w :
    ending env idText
      (answer 500 (failure error),
       after w (firstn 1 (plan env idText p1 VNull VNull))
         [("GitHub API error (plugin.py):", detail)])
| config_not_written p1 p2 error detail w :
    ending env idText
      (answer 500 (failure error),
       after w (firstn 2 (plan env idText p1 p2 VNull))
         [("GitHub API error (config.json):", detail)])
| duplicate p1 p2 w :
    ending env idText
      (answer 400 (failure "该插件ID已存在"),
       after w (firstn 3 (plan env idText p1 p2 VNull)) [])
| published p1 p2 p3 (message : string) w :
    ending env idText
      (answer 200 (VObj [("success", VBool true); ("message", VStr message)]),
       after w (plan env idText p1 p2 p3) [])
| caught e (n : nat) p1 p2 p3 w :
    ending env idText
      (answer 500 (failure (message e)),
       after w (firstn n (plan env idText p1 p2 p3)) [("Submit error:", message e)]).

(** ** Vocabulary of JSON text *)

(** A text of ASCII characters only. *)
Definition ascii_text (s : string) : bool :=
  forallb (fun c => match lead_of c with Single => true | _ => false end)
    (list_ascii_of_string s).

Definition high_byte (c : ascii) : bool := between 128 255 c.

Definition all_bytes : list ascii := map ascii_of_nat (seq 0 256).

(** A text that [Buffer.from] writes as it is and [toString('utf-8')]
    reads back as it is, whatever follows it. *)
Definition plain (a : string) : Prop :=
  forall k,
    string_of_utf8 (utf8_of_string (a ++ k)) = a ++ string_of_utf8 (utf8_of_string k).

(** What [parse_chars] holds back: the bytes of a high surrogate that
    waits for its partner. *)
Definition flush (pending : option N) : string :=
  match pending with Some hi => utf8_encode hi | None => "" end.

(** What is checked of the three bytes of every surrogate: they are the
    UTF-8 form of its code, its escape reads back as the code and is
    ASCII, and it is a high surrogate or a low one, never both. *)
Definition surrogate_checked (c1 c2 : ascii) : bool :=
  match surrogate_of (ascii_of_N 237) c1 c2 with
  | Some u =>
      (utf8_encode u =? String (ascii_of_N 237) (String c1 (String c2 "")))%string
      && match hex4 (hex_digit (u / 4096)) (hex_digit ((u / 256) mod 16))
                 (hex_digit ((u / 16) mod 16)) (hex_digit (u mod 16)) with
         | Some u' => (u' =? u)%N
         | None => false
         end
      && negb (is_high_surrogate u && is_low_surrogate u)
      && (is_high_surrogate u || is_low_surrogate u)
      && ascii_text (unicode_escape u)
  | None => true
  end.

(** What may come after a value in a JSON text: the end, white space, a
    comma, or a closing bracket or brace. *)
Definition follows_value (k : string) : bool :=
  match k with
  | EmptyString => true
  | String c _ => is_ws c || (c =? ",")%char || (c =? "]")%char || (c =? "}")%char
  end.

(** The characters a JSON value can begin with are none of these. *)
Definition opens_value (c : ascii) : bool :=
  negb (is_ws c) && negb (c =? "]")%char && negb (c =? "}")%char
  && negb (c =? ",")%char && negb (c =? ":")%char.

Definition blank (s : string) : bool := all_chars is_ws s.

(** The number of values in a value, itself included: the fuel that
    parsing its text takes. *)
Fixpoint size (v : value) : nat :=
  match v with
  | VArr elems => S (fold_right (fun e n => (size e + n)%nat) O elems)
  | VObj props =>
      S ((fix sum (l : list (string * value)) : nat :=
            match l with
            | [] => O
            | (_, x) :: rest => (size x + sum rest)%nat
            end) props)
  | _ => 1%nat
  end.

(** The line break and indentation that [JSON.stringify] puts before an
    element or a closing bracket when there is a gap. *)
Definition line_break (gap indent : string) : string :=
  if (gap =? "")%string then "" else newline ++ indent.

(** The text of one member of an object. *)
Definition member_text (gap indent : string) (p : string * value) : string :=
  quote (fst p) ++ ":" ++ (if (gap =? "")%string then "" else " ")
    ++ serialize gap indent (snd p).

(** ** A platform and requests for examples *)

(** The network answers from a script, one entry per call of [fetch], and
    rejects once the script is used up. *)
Definition scripted : Platform :=
  {| World := list (exn + Response);
     fetch := fun _ w =>
       match w with
       | next :: rest => (next, rest)
       | [] => (inl (TypeError "fetch failed"), [])
       end;
     Date_toISOString := fun _ => "2024-05-06T07:08:09.000Z";
     Buffer_from_object := fun _ =>
       throw (TypeError "The first argument must be of type string or an instance of Buffer, ArrayBuffer, or Array or an Array-like Object.") |}.

Definition post (data : value) : request := {| method := "POST"; body := data |}.

(** A submission with the required fields only. *)
Definition sample : value :=
  VObj [("id", VStr "newplug");
        ("cn_name", VStr "测试");
        ("author", VStr "someone");
        ("description", VStr "a plugin");
        ("code", VStr "print(1)")].

Definition sample_env : environment := [("GITHUB_TOKEN", "t0ken")].

Definition created : exn + Response :=
  inr {| Response_status := 201; Response_text := ok "{}" |}.

Definition not_found : exn + Response :=
  inr {| Response_status := 404; Response_text := ok "Not Found" |}.

Definition server_error : exn + Response :=
  inr {| Response_status := 502; Response_text := ok "Bad Gateway" |}.

Definition unreachable : exn + Response := inl (TypeError "fetch failed").

Definition catalogue (ids : list string) : value :=
  VObj [("version", VStr "1.0.0");
        ("last_updated", VStr "2024-01-01");
        ("plugins", VArr (map (fun i => VObj [("id", VStr i); ("name", VStr i)]) ids))].

(** The answer of the contents API for [plugins.json] holding the given
    catalogue. *)
Definition index_response (pluginsData : value) : exn + Response :=
  inr {| Response_status := 200;
         Response_text :=
           ok (serialize "" ""
                 (VObj [("content",
                         VStr (Base64.encode (serialize "  " "" pluginsData)));
                        ("sha", VStr "3d21ec53a331a6f037a91c368710b99387d012c1")])) |}.

(** An answer of the contents API for a [plugins.json] with a rating
    that is not an integer, and the catalogue it holds: the rating, 4.5,
    is the double [5066549580791808 * 2^-50]. *)
Definition rated_response : Response :=
  {| Response_status := 200;
     Response_text :=
       ok ("{" ++ quote "content" ++ ":"
             ++ quote (Base64.encode
                         ("{" ++ quote "plugins" ++ ":[{" ++ quote "id" ++ ":"
                            ++ quote "oldplug" ++ "," ++ quote "rating"
                            ++ ":4.5}]}"))
             ++ "," ++ quote "sha" ++ ":" ++ quote "0a1b" ++ "}") |}.

Definition rated_index : exn + Response := inr rated_response.

Definition rated_catalogue : value :=
  VObj [("plugins",
         VArr [VObj [("id", VStr "oldplug");
                     ("rating", VDbl (Finite false 5066549580791808 (-50)))]])].

(** A refusal whose body cannot be read to the end. *)
Definition interrupted : exn + Response :=
  inr {| Response_status := 502; Response_text := throw (TypeError "terminated") |}.

(** A submission whose [id] is an array, and a catalogue that holds an
    entry with an array like it. *)
Definition listed : value :=
  VObj [("id", VArr [VStr "abc"]);
        ("cn_name", VStr "n");
        ("author", VStr "a");
        ("description", VStr "d");
        ("code", VStr "c")].

Definition list_catalogue : value :=
  VObj [("version", VStr "1.0.0");
        ("last_updated", VStr "2024-01-01");
        ("plugins", VArr [VObj [("id", VStr "abc")]; VObj [("id", VArr [VStr "abc"])]])].

(** A string that is one high surrogate, U+D800, alone. *)
Definition lone_surrogate : string :=
  String (ascii_of_N 237) (String (ascii_of_N 160) (String (ascii_of_N 128) "")).

(** A submission whose [code] is a number. *)
Definition numbered : value :=
  VObj [("id", VStr "newplug");
        ("cn_name", VStr "n");
        ("author", VStr "a");
        ("description", VStr "d");
        ("code", VNum 123)].

(** An answer of status 200 that is not JSON. *)
Definition garbled : exn + Response :=
  inr {| Response_status := 200; Response_text := ok "<html>" |}.

(** * Properties *)

(** ** Running the handler's monad *)

Section Steps.
Context `{P : Platform}.

Lemma bind_value {A B} (m : M A) (f : A -> M B) st a st' :
  m st = (Value a, st') -> bind m f st = f a st'.
Proof. unfold bind; intros ->; reflexivity. Qed.

Lemma bind_return {A B} (m : M A) (f : A -> M B) st r st' :
  m st = (Return r, st') -> bind m f st = (Return r, st').
Proof. unfold bind; intros ->; reflexivity. Qed.

Lemma bind_lift {A B} (r : result A) (f : A -> M B) st a :
  r = ok a -> bind (lift r) f st = f a st.
Proof. intros ->; reflexivity. Qed.

Lemma bind_fetch {B} (c : fetch_call) (f : Response -> M B) w sent logged r w' :
  fetch c w = (inr r, w') ->
  bind (await_fetch c) f (after w sent logged) = f r (after w' (sent ++ [c]) logged).
Proof. unfold bind, await_fetch, after; simpl; intros ->; reflexivity. Qed.

Lemma bind_fetch_rejected {B} (c : fetch_call) (f : Response -> M B) w sent logged e w' :
  fetch c w = (inl e, w') ->
  bind (await_fetch c) f (after w sent logged) = (Throw e, after w' (sent ++ [c]) logged).
Proof. unfold bind, await_fetch, after; simpl; intros ->; reflexivity. Qed.

Lemma bind_console {B} (label detail : string) (f : unit -> M B) w sent logged :
  bind (console_error label detail) f (after w sent logged)
  = f tt (after w sent (logged ++ [(label, detail)])).
Proof. reflexivity. Qed.

Lemma bind_now {B} (f : string -> M B) w sent logged :
  bind now f (after w sent logged) = f (Date_toISOString w) (after w sent logged).
Proof. reflexivity. Qed.

(** ** Required fields *)

Lemma present_get data field :
  present data field = true -> exists v, get data field = ok v /\ truthy v = true.
Proof.
  unfold present. destruct (get data field) as [e|v]; [discriminate|].
  intros H; exists v; split; [reflexivity|exact H].
Qed.

Lemma absent_get data field :
  data <> VUndefined -> data <> VNull -> present data field = false ->
  exists v, get data field = ok v /\ truthy v = false.
Proof.
  unfold present. intros Hu Hn.
  destruct data; try congruence; simpl; intros H; eexists; (split; [reflexivity|exact H]).
Qed.

Lemma check_required_passes data fields st :
  forallb (present data) fields = true ->
  check_required data fields st = (Value tt, st).
Proof.
  induction fields as [|f fields IH]; simpl; [reflexivity|].
  intros H. apply andb_true_iff in H as [Hf Hrest].
  destruct (present_get _ _ Hf) as (v & Hv & Ht).
  rewrite (bind_lift _ _ _ _ Hv), Ht. simpl. auto.
Qed.

Lemma check_required_stops data before field after st :
  data <> VUndefined -> data <> VNull ->
  forallb (present data) before = true ->
  present data field = false ->
  check_required data (before ++ field :: after) st
  = (Return {| status := 400;
               headers := res_headers st;
               json := failure ("缺少必填字段: " ++ field) |}, st).
Proof.
  intros Hu Hn Hb Hf. induction before as [|f before IH]; simpl.
  - destruct (absent_get _ _ Hu Hn Hf) as (v & Hv & Ht).
    rewrite (bind_lift _ _ _ _ Hv), Ht. reflexivity.
  - simpl in Hb. apply andb_true_iff in Hb as [Hp Hb].
    destruct (present_get _ _ Hp) as (v & Hv & Ht).
    rewrite (bind_lift _ _ _ _ Hv), Ht. simpl. auto.
Qed.

(** Reading a property of [undefined] or [null] throws at the first field. *)
Lemma check_required_nullish data st :
  data = VUndefined \/ data = VNull ->
  exists e, check_required data required st = (Throw e, st).
Proof. intros [-> | ->]; eexists; reflexivity. Qed.

End Steps.

Section Validation.
Context `{P : Platform}.

Lemma handler_post env req w :
  method req = "POST" ->
  handler env req w = try_catch (submit env (body req) (after w [] [])).
Proof. unfold handler. intros ->. reflexivity. Qed.

Lemma try_catch_throw e w sent logged :
  try_catch (Throw e, after w sent logged)
  = (answer 500 (failure (message e)),
     after w sent (logged ++ [("Submit error:", message e)])).
Proof. reflexivity. Qed.

(** *** The identifier pattern *)

Lemma all_chars_id_tail s :
  all_chars (fun x => is_lower x || is_digit x || (x =? "_")%char) s = true
  <-> id_tail s.
Proof.
  induction s as [|c s IH]; simpl.
  - split; [constructor | reflexivity].
  - rewrite andb_true_iff, IH, !orb_true_iff, Ascii.eqb_eq. split.
    + intros [[[Hl|Hd]| ->] Ht]; [apply tail_lower|apply tail_digit|apply tail_underscore]; assumption.
    + intros H. inversion H; subst; auto.
Qed.

Lemma id_pattern_identifier s : id_pattern s = true <-> identifier s.
Proof.
  destruct s as [|c s]; simpl.
  - split; [discriminate | inversion 1].
  - rewrite andb_true_iff, all_chars_id_tail. split.
    + intros [Hc Ht]. constructor; assumption.
    + inversion 1; subst; auto.
Qed.

Lemma submit_valid env data pluginId idText st :
  valid data pluginId idText ->
  submit env data st = publish env data pluginId st.
Proof.
  intros (Hreq & Hid & Hs & Hpat). unfold submit.
  rewrite (bind_value _ _ _ _ _ (check_required_passes _ _ st Hreq)).
  rewrite (bind_lift _ _ _ _ Hid), (bind_lift _ _ _ _ Hs).
  apply id_pattern_identifier in Hpat. rewrite Hpat. reflexivity.
Qed.

End Validation.

(** ** Headers of the reply *)

Section Headers.
Context `{P : Platform}.

Lemma keeps_pure {A} (a : A) : keeps_headers (pure a).
Proof. intros st; split; [reflexivity | discriminate]. Qed.

Lemma keeps_lift {A} (r : result A) : keeps_headers (lift r).
Proof. intros st; destruct r; (split; [reflexivity | discriminate]). Qed.

Lemma keeps_res_json {A} code obj : keeps_headers (@res_json _ A code obj).
Proof. intros st; split; [reflexivity | intros r [= <-]; reflexivity]. Qed.

Lemma keeps_fetch c : keeps_headers (await_fetch c).
Proof.
  intros st. unfold await_fetch. destruct (fetch c (world st)) as [[e|r] w];
    (split; [reflexivity | discriminate]).
Qed.

Lemma keeps_console label detail : keeps_headers (console_error label detail).
Proof. intros st; split; [reflexivity | discriminate]. Qed.

Lemma keeps_now : keeps_headers now.
Proof. intros st; split; [reflexivity | discriminate]. Qed.

Lemma keeps_bind {A B} (m : M A) (f : A -> M B) :
  keeps_headers m -> (forall a, keeps_headers (f a)) -> keeps_headers (bind m f).
Proof.
  intros Hm Hf st. unfold bind. destruct (Hm st) as [Hs Hr].
  destruct (m st) as [[a|r|e] st']; simpl in *.
  - destruct (Hf a st') as [Hs' Hr']. rewrite Hs', Hs. split; [reflexivity|].
    intros r Hret. rewrite (Hr' r Hret). exact Hs.
  - split; [exact Hs|]. intros r' [= <-]. apply Hr. reflexivity.
  - split; [exact Hs|discriminate].
Qed.

Create HintDb keeps.
#[local] Hint Resolve keeps_pure keeps_lift keeps_res_json keeps_fetch
  keeps_console keeps_now : keeps.

Ltac keeps :=
  repeat first
    [ apply keeps_bind; [| intros ?]
    | match goal with
      | |- keeps_headers (if ?b then _ else _) => destruct b
      | |- keeps_headers (let (_, _) := ?x in _) => destruct x
      end
    | solve [auto with keeps] ].

Lemma keeps_check_required data fields : keeps_headers (check_required data fields).
Proof. induction fields as [|f fields IH]; simpl; keeps. Qed.

Lemma keeps_publish env data pluginId : keeps_headers (publish env data pluginId).
Proof. unfold publish. keeps. Qed.

Lemma keeps_submit env data : keeps_headers (submit env data).
Proof.
  unfold submit. apply keeps_bind; [apply keeps_check_required | intros ?].
  keeps. apply keeps_publish.
Qed.

(** Another method than POST is answered 405 before any header is set. *)
Lemma method_not_allowed env req w :
  (method req =? "POST")%string = false ->
  handler env req w
  = ({| status := 405; headers := []; json := failure "Method not allowed" |},
     start w).
Proof. unfold handler. intros ->. reflexivity. Qed.

(** X2: a POST request without a body: reading [data.id] throws, and the
    [catch] block answers 500 with the message of the error, which it
    logs; no call of [fetch] is made. *)
Lemma missing_body_caught env req w :
  method req = "POST" ->
  body req = VUndefined \/ body req = VNull ->
  exists e,
    handler env req w
    = (answer 500 (failure (message e)), after w [] [("Submit error:", message e)]).
Proof.
  intros Hm Hb. rewrite (handler_post _ _ _ Hm).
  destruct (check_required_nullish (body req) (after w [] []) Hb) as [e He].
  exists e. unfold submit. unfold bind at 1. rewrite He. reflexivity.
Qed.

(** C1 (as amended): every answer to a POST request, whatever its outcome,
    carries [Access-Control-Allow-Origin: *], [Access-Control-Allow-Methods:
    POST] and [Access-Control-Allow-Headers: Content-Type]. *)
Theorem cors_headers_on_post env req w :
  method req = "POST" -> cors (fst (handler env req w)).
Proof.
  intros Hm. rewrite (handler_post _ _ _ Hm).
  destruct (keeps_submit env (body req) (after w [] [])) as [Hs Hr].
  assert (Hh : headers (fst (try_catch (submit env (body req) (after w [] []))))
               = cors_headers).
  { destruct (submit env (body req) (after w [] [])) as [[[]|r|e] st]; simpl in *.
    - apply Hr; reflexivity.
    - exact Hs. }
  unfold cors, header. rewrite Hh. repeat split.
Qed.

(** C2 (as amended): a POST request whose body is neither [undefined] nor
    [null] and lacks a required field (absent or falsy) is answered 400,
    [success: false], with the error naming the first such field in the
    order [id], [cn_name], [author], [description], [code]; nothing is
    fetched or logged. *)
Theorem required_field_rejected env req w before field rest :
  method req = "POST" ->
  body req <> VUndefined -> body req <> VNull ->
  required = (before ++ field :: rest)%list ->
  forallb (present (body req)) before = true ->
  present (body req) field = false ->
  handler env req w
  = (answer 400 (failure ("缺少必填字段: " ++ field)), after w [] []).
Proof.
  intros Hm Hu Hn Hsplit Hb Hf. rewrite (handler_post _ _ _ Hm).
  unfold submit. rewrite Hsplit.
  rewrite (bind_return _ _ _ _ _ (check_required_stops _ _ _ rest _ Hu Hn Hb Hf)).
  reflexivity.
Qed.

(** The examples of the specification. *)
Lemma id_pattern_examples :
  map id_pattern ["Abc"; "1abc"; "ab-c"; ""; "abc"; "a1_b2"]
  = [false; false; false; false; true; true].
Proof. reflexivity. Qed.

(** X3: an [id] without a string form (an object with an own [toString]
    property): the test of the pattern throws, and the [catch] block
    answers 500 with the message of the error before any call of [fetch]. *)
Lemma id_conversion_caught env req w pluginId e :
  method req = "POST" ->
  forallb (present (body req)) required = true ->
  get (body req) "id" = ok pluginId ->
  to_string pluginId = throw e ->
  handler env req w
  = (answer 500 (failure (message e)), after w [] [("Submit error:", message e)]).
Proof.
  intros Hm Hreq Hid Hs. rewrite (handler_post _ _ _ Hm). unfold submit.
  rewrite (bind_value _ _ _ _ _ (check_required_passes _ _ _ Hreq)).
  rewrite (bind_lift _ _ _ _ Hid). unfold bind, lift. rewrite Hs. reflexivity.
Qed.

(** C3: on a POST request with every required field present, an [id]
    whose string form is not an identifier (a lowercase letter followed by
    lowercase letters, digits, underscores) is answered 400, [success:
    false]; with an identifier the handler goes on to the configuration
    and the uploads. *)
Theorem id_format_checked env req w pluginId idText :
  method req = "POST" ->
  forallb (present (body req)) required = true ->
  get (body req) "id" = ok pluginId ->
  to_string pluginId = ok idText ->
  (~ identifier idText ->
   handler env req w = (answer 400 (failure "插件ID格式不正确"), after w [] []))
  /\ (identifier idText ->
      handler env req w
      = try_catch (publish env (body req) pluginId (after w [] []))).
Proof.
  intros Hm Hreq Hid Hs. rewrite (handler_post _ _ _ Hm). split; intros Hpat.
  - unfold submit.
    rewrite (bind_value _ _ _ _ _ (check_required_passes _ _ _ Hreq)).
    rewrite (bind_lift _ _ _ _ Hid), (bind_lift _ _ _ _ Hs).
    destruct (id_pattern idText) eqn:E.
    + apply id_pattern_identifier in E. contradiction.
    + reflexivity.
  - rewrite (submit_valid env _ pluginId idText); [reflexivity|].
    repeat split; assumption.
Qed.

End Headers.

(** ** Base64 round trip *)

Section Base64Facts.
Import Base64.

Lemma unbase64_char (x : sextet) : unbase64 (char x) = Some x.
Proof.
  destruct x as [[[[[b5 b4] b3] b2] b1] b0].
  destruct b5, b4, b3, b2, b1, b0; reflexivity.
Qed.

Lemma char_not_padding (x : sextet) : (char x =? "=")%char = false.
Proof.
  destruct x as [[[[[b5 b4] b3] b2] b1] b0].
  destruct b5, b4, b3, b2, b1, b0; reflexivity.
Qed.

Lemma scan_char x rest : scan (String (char x) rest) = x :: scan rest.
Proof. simpl. rewrite char_not_padding, unbase64_char. reflexivity. Qed.

(** Induction on a string three characters at a time. *)
Lemma string_by_three (Q : string -> Prop) :
  Q "" ->
  (forall a, Q (String a "")) ->
  (forall a b, Q (String a (String b ""))) ->
  (forall a b c s, Q s -> Q (String a (String b (String c s)))) ->
  forall s, Q s.
Proof.
  intros H0 H1 H2 H3.
  fix IH 1.
  intros [|a [|b [|c s]]]; [apply H0 | apply H1 | apply H2 | apply H3; apply IH].
Qed.

Lemma decode_encode (bytes : string) : decode (encode bytes) = bytes.
Proof.
  unfold decode. induction bytes as [|a|a b|a b c s IH] using string_by_three.
  - reflexivity.
  - destruct a as [a0 a1 a2 a3 a4 a5 a6 a7]. cbn [encode].
    rewrite !scan_char. reflexivity.
  - destruct a as [a0 a1 a2 a3 a4 a5 a6 a7], b as [b0 b1 b2 b3 b4 b5 b6 b7].
    cbn [encode]. rewrite !scan_char. reflexivity.
  - destruct a as [a0 a1 a2 a3 a4 a5 a6 a7], b as [b0 b1 b2 b3 b4 b5 b6 b7],
      c as [c0 c1 c2 c3 c4 c5 c6 c7].
    cbn [encode]. rewrite !scan_char. cbn [bytes]. rewrite IH. reflexivity.
Qed.

End Base64Facts.

(** ** Strings, numbers and white space in JSON text *)

Section Lexical.

Lemma append_empty (s : string) : s ++ "" = s.
Proof. induction s as [|c s IH]; simpl; [reflexivity | rewrite IH; reflexivity]. Qed.

Lemma append_assoc (a b c : string) : (a ++ b) ++ c = a ++ (b ++ c).
Proof. induction a as [|x a IH]; simpl; [reflexivity | rewrite IH; reflexivity]. Qed.

Lemma skip_ws_blank (ws s : string) : blank ws = true -> skip_ws (ws ++ s) = skip_ws s.
Proof.
  induction ws as [|c ws IH]; simpl; [reflexivity|].
  intros H. apply andb_true_iff in H as [Hc Hws]. rewrite Hc. auto.
Qed.

Lemma skip_ws_head c s : is_ws c = false -> skip_ws (String c s) = String c s.
Proof. simpl. intros ->. reflexivity. Qed.

Lemma blank_app a b : blank a = true -> blank b = true -> blank (a ++ b) = true.
Proof.
  unfold blank. induction a as [|c a IH]; simpl; [auto|].
  intros H Hb. apply andb_true_iff in H as [Hc Ha]. rewrite Hc. simpl. auto.
Qed.

Lemma blank_spaces n : blank (spaces n) = true.
Proof. induction n; simpl; auto. Qed.

(** *** String literals *)

Ltac each_byte c := destruct c as [[] [] [] [] [] [] [] []].

Lemma in_all_bytes c : In c all_bytes.
Proof.
  unfold all_bytes. rewrite <- (ascii_nat_embedding c). apply in_map, in_seq.
  pose proof (nat_ascii_bounded c). lia.
Qed.

Lemma for_all_bytes (p : ascii -> bool) :
  forallb p all_bytes = true -> forall c, p c = true.
Proof.
  intros H c. rewrite forallb_forall in H. apply H, in_all_bytes.
Qed.

Lemma for_all_bytes2 (p : ascii -> ascii -> bool) :
  forallb (fun a => forallb (p a) all_bytes) all_bytes = true ->
  forall a b, p a b = true.
Proof.
  intros H a b.
  apply (for_all_bytes (p a)). apply (for_all_bytes (fun a => forallb (p a) all_bytes) H).
Qed.

Lemma surrogates_checked c1 c2 : surrogate_checked c1 c2 = true.
Proof. apply for_all_bytes2. vm_compute. reflexivity. Qed.

Lemma surrogate_lead c c1 c2 u :
  surrogate_of c c1 c2 = Some u -> c = ascii_of_N 237.
Proof.
  unfold surrogate_of. destruct (N.eqb_spec (N_of_ascii c) 237) as [E|E]; [|discriminate].
  intros _. rewrite <- (ascii_N_embedding c), E. reflexivity.
Qed.

Lemma surrogate_facts c c1 c2 u :
  surrogate_of c c1 c2 = Some u ->
  utf8_encode u = String c (String c1 (String c2 ""))
  /\ hex4 (hex_digit (u / 4096)) (hex_digit ((u / 256) mod 16))
          (hex_digit ((u / 16) mod 16)) (hex_digit (u mod 16)) = Some u
  /\ is_low_surrogate u = negb (is_high_surrogate u)
  /\ ascii_text (unicode_escape u) = true.
Proof.
  intros H. pose proof (surrogate_lead _ _ _ _ H) as ->.
  pose proof (surrogates_checked c1 c2) as K. unfold surrogate_checked in K.
  rewrite H in K.
  repeat (apply andb_true_iff in K as [K ?]).
  split; [apply String.eqb_eq; exact K|]. split.
  - destruct (hex4 _ _ _ _) as [u'|]; [|discriminate].
    f_equal. apply N.eqb_eq. assumption.
  - split; [|assumption].
    destruct (is_high_surrogate u), (is_low_surrogate u); simpl in *; congruence.
Qed.

(** Induction on a well-formed string, character by character. *)
Lemma well_formed_induction (P : bool -> string -> Prop) :
  (forall high, P high "") ->
  (forall high c s, lead_of c = Single -> P false s -> P high (String c s)) ->
  (forall high c c1 s,
      lead_of c = Double -> is_continuation c1 = true ->
      P false s -> P high (String c (String c1 s))) ->
  (forall high c c1 c2 s,
      lead_of c = Triple -> second c c1 = true -> is_continuation c2 = true ->
      P false s -> P high (String c (String c1 (String c2 s)))) ->
  (forall high c c1 c2 u s,
      surrogate_of c c1 c2 = Some u ->
      is_high_surrogate u || negb high = true ->
      P (is_high_surrogate u) s -> P high (String c (String c1 (String c2 s)))) ->
  (forall high c c1 c2 c3 s,
      lead_of c = Quadruple -> second c c1 = true ->
      is_continuation c2 = true -> is_continuation c3 = true ->
      P false s -> P high (String c (String c1 (String c2 (String c3 s))))) ->
  forall high s, well_formed_after high s = true -> P high s.
Proof.
  intros H0 H1 H2 H3 Hs H4. fix IH 2.
  intros high [|c rest]; [intros _; apply H0|].
  cbn [well_formed_after]. destruct (lead_of c) eqn:Hc.
  - intros H. apply H1; [exact Hc | apply IH; exact H].
  - destruct rest as [|c1 rest1]; [discriminate|]. intros H.
    apply andb_true_iff in H as [Hc1 H]. apply H2; [exact Hc | exact Hc1 | apply IH; exact H].
  - destruct rest as [|c1 [|c2 rest2]]; [discriminate | discriminate |].
    destruct (second c c1) eqn:Hc1.
    + intros H. apply andb_true_iff in H as [Hc2 H].
      apply H3; [exact Hc | exact Hc1 | exact Hc2 | apply IH; exact H].
    + destruct (surrogate_of c c1 c2) as [u|] eqn:Hu; [|discriminate].
      intros H. apply andb_true_iff in H as [Hh H].
      apply (Hs _ _ _ _ u); [exact Hu | exact Hh | apply IH; exact H].
  - destruct rest as [|c1 [|c2 [|c3 rest3]]]; try discriminate.
    intros H. apply andb_true_iff in H as [H Hr].
    apply andb_true_iff in H as [H Hc3]. apply andb_true_iff in H as [Hc1 Hc2].
    apply H4; [exact Hc | exact Hc1 | exact Hc2 | exact Hc3 | apply IH; exact Hr].
  - discriminate.
Qed.

(** Bytes *)

Lemma lead_high_byte c : lead_of c <> Single -> high_byte c = true.
Proof. each_byte c; intros H; try reflexivity; exfalso; apply H; reflexivity. Qed.

Lemma continuation_high_byte c : is_continuation c = true -> high_byte c = true.
Proof. each_byte c; intros H; try reflexivity; discriminate. Qed.

Lemma continuation_no_lead c c1 c2 :
  is_continuation c = true -> surrogate_of c c1 c2 = None.
Proof. each_byte c; intros H; try reflexivity; discriminate. Qed.

Lemma single_no_surrogate c c1 c2 : lead_of c = Single -> surrogate_of c c1 c2 = None.
Proof. each_byte c; intros H; try reflexivity; discriminate. Qed.

Lemma double_no_surrogate c c1 c2 : lead_of c = Double -> surrogate_of c c1 c2 = None.
Proof. each_byte c; intros H; try reflexivity; discriminate. Qed.

Lemma quadruple_no_surrogate c c1 c2 : lead_of c = Quadruple -> surrogate_of c c1 c2 = None.
Proof. each_byte c; intros H; try reflexivity; discriminate. Qed.

Lemma second_no_surrogate c c1 c2 : second c c1 = true -> surrogate_of c c1 c2 = None.
Proof.
  intros H.
  pose proof (for_all_bytes2
                (fun c c1 =>
                   negb (second c c1)
                   || negb ((N_of_ascii c =? 237)%N && between 160 191 c1))
                ltac:(vm_compute; reflexivity) c c1) as K.
  cbn beta in K. rewrite H in K. cbn [negb orb] in K.
  unfold surrogate_of. apply negb_true_iff in K. rewrite K. reflexivity.
Qed.

Lemma second_high_byte c c1 : second c c1 = true -> high_byte c1 = true.
Proof.
  intros H.
  pose proof (for_all_bytes2 (fun c c1 => negb (second c c1) || high_byte c1)
                ltac:(vm_compute; reflexivity) c c1) as K.
  cbn beta in K. rewrite H in K. exact K.
Qed.

Lemma second_no_lead c c1 a b : second c c1 = true -> surrogate_of c1 a b = None.
Proof.
  intros H.
  pose proof (for_all_bytes2
                (fun c c1 => negb (second c c1) || negb (N_of_ascii c1 =? 237)%N)
                ltac:(vm_compute; reflexivity) c c1) as K.
  cbn beta in K. rewrite H in K. cbn [negb orb] in K. apply negb_true_iff in K.
  unfold surrogate_of. rewrite K. reflexivity.
Qed.

Lemma quote_char_high_byte c : high_byte c = true -> quote_char c = String c "".
Proof. each_byte c; intros H; try reflexivity; discriminate. Qed.

Lemma quote_char_ascii c : lead_of c = Single -> ascii_text (quote_char c) = true.
Proof. each_byte c; intros H; try reflexivity; discriminate. Qed.

(** One step of each function on a character that opens no surrogate. *)

Lemma quote_body_head c rest :
  (forall c1 c2, surrogate_of c c1 c2 = None) ->
  quote_body (String c rest) = quote_char c ++ quote_body rest.
Proof.
  intros H. destruct rest as [|c1 [|c2 rest2]]; try reflexivity.
  cbn [quote_body]. rewrite H. reflexivity.
Qed.

Lemma utf8_of_string_head c rest :
  (forall c1 c2, surrogate_of c c1 c2 = None) ->
  utf8_of_string (String c rest) = String c (utf8_of_string rest).
Proof.
  intros H. destruct rest as [|c1 [|c2 rest2]]; try reflexivity.
  cbn [utf8_of_string]. rewrite H. reflexivity.
Qed.

(** *** String literals *)

Lemma parse_chars_quote_char pending c rest :
  parse_chars pending (quote_char c ++ rest)
  = prepend (flush pending ++ String c "") (parse_chars None rest).
Proof.
  destruct pending as [hi|]; each_byte c; reflexivity.
Qed.

Lemma prepend_some p s k : prepend p (Some (s, k)) = Some (p ++ s, k).
Proof. reflexivity. Qed.

Lemma parse_chars_quote_body_after high s :
  well_formed_after high s = true ->
  forall pending k,
    (pending = None \/ high = true) ->
    parse_chars pending (quote_body s ++ String dquote k) = Some (flush pending ++ s, k).
Proof.
  revert high s.
  apply (well_formed_induction
           (fun high s => forall pending k, pending = None \/ high = true ->
              parse_chars pending (quote_body s ++ String dquote k)
              = Some (flush pending ++ s, k))).
  - intros high pending k _. cbn [quote_body append parse_chars].
    replace (dquote =? dquote)%char with true by reflexivity.
    rewrite append_empty. destruct pending; reflexivity.
  - intros high c s Hc IH pending k _.
    rewrite quote_body_head by (intros; apply single_no_surrogate; exact Hc).
    rewrite append_assoc, parse_chars_quote_char, (IH None k) by (left; reflexivity).
    cbn [flush append prepend]. rewrite append_assoc. reflexivity.
  - intros high c c1 s Hc Hc1 IH pending k _.
    rewrite quote_body_head by (intros; apply double_no_surrogate; exact Hc).
    rewrite quote_body_head by (intros; apply continuation_no_lead; exact Hc1).
    rewrite !append_assoc, !parse_chars_quote_char, (IH None k) by (left; reflexivity).
    cbn [flush append prepend]. rewrite append_assoc. reflexivity.
  - intros high c c1 c2 s Hc Hc1 Hc2 IH pending k _.
    assert (E : quote_body (String c (String c1 (String c2 s)))
                = quote_char c ++ quote_body (String c1 (String c2 s))).
    { cbn [quote_body]. rewrite (second_no_surrogate _ _ _ Hc1). reflexivity. }
    rewrite E.
    rewrite quote_body_head by (intros; apply (second_no_lead c); exact Hc1).
    rewrite quote_body_head by (intros; apply continuation_no_lead; exact Hc2).
    rewrite !append_assoc, !parse_chars_quote_char, (IH None k) by (left; reflexivity).
    cbn [flush append prepend]. rewrite append_assoc. reflexivity.
  - intros high c c1 c2 u s Hu Hh IH pending k Hp.
    destruct (surrogate_facts _ _ _ _ Hu) as (Hbytes & Hhex & Hlow & _).
    assert (E : quote_body (String c (String c1 (String c2 s)))
                = unicode_escape u ++ quote_body s).
    { cbn [quote_body]. rewrite Hu. reflexivity. }
    rewrite E, append_assoc. unfold unicode_escape. cbn [append parse_chars].
    replace (backslash =? dquote)%char with false by reflexivity.
    replace (backslash =? backslash)%char with true by reflexivity.
    replace ("u" =? "u")%char with true by reflexivity.
    rewrite Hhex, Hlow.
    destruct pending as [hi|].
    + destruct Hp as [Hp|Hp]; [discriminate|]. subst high.
      rewrite orb_false_r in Hh. rewrite Hh in *. cbn [negb].
      rewrite (IH (Some u) k) by (right; reflexivity).
      cbn [flush prepend]. rewrite Hbytes. reflexivity.
    + destruct (is_high_surrogate u) eqn:Hhigh.
      * rewrite (IH (Some u) k) by (right; reflexivity).
        cbn [flush append]. rewrite Hbytes. reflexivity.
      * rewrite (IH None k) by (left; reflexivity).
        cbn [flush append prepend]. rewrite Hbytes. reflexivity.
  - intros high c c1 c2 c3 s Hc Hc1 Hc2 Hc3 IH pending k _.
    rewrite quote_body_head by (intros; apply quadruple_no_surrogate; exact Hc).
    rewrite (quote_body_head c1) by (intros; apply (second_no_lead c); exact Hc1).
    rewrite quote_body_head by (intros; apply continuation_no_lead; exact Hc2).
    rewrite quote_body_head by (intros; apply continuation_no_lead; exact Hc3).
    rewrite !append_assoc, !parse_chars_quote_char, (IH None k) by (left; reflexivity).
    cbn [flush append prepend]. rewrite append_assoc. reflexivity.
Qed.

(** *** Text that is its own UTF-8 *)

Lemma plain_empty : plain "".
Proof. intros k. reflexivity. Qed.

Lemma plain_app a b : plain a -> plain b -> plain (a ++ b).
Proof. intros Ha Hb k. rewrite !append_assoc, Ha, Hb. reflexivity. Qed.

Lemma plain_single c : lead_of c = Single -> plain (String c "").
Proof.
  intros Hc k. cbn [append].
  rewrite utf8_of_string_head by (intros; apply single_no_surrogate; exact Hc).
  cbn [string_of_utf8]. rewrite Hc. reflexivity.
Qed.

Lemma plain_ascii a : ascii_text a = true -> plain a.
Proof.
  unfold ascii_text. induction a as [|c a IH]; cbn [list_ascii_of_string forallb].
  - intros _. apply plain_empty.
  - intros H. apply andb_true_iff in H as [Hc Ha].
    apply (plain_app (String c "") a); [|exact (IH Ha)].
    apply plain_single. destruct (lead_of c); (reflexivity || discriminate).
Qed.

Lemma plain_double c c1 :
  lead_of c = Double -> is_continuation c1 = true -> plain (String c (String c1 "")).
Proof.
  intros Hc Hc1 k. cbn [append].
  rewrite utf8_of_string_head by (intros; apply double_no_surrogate; exact Hc).
  rewrite utf8_of_string_head by (intros; apply continuation_no_lead; exact Hc1).
  cbn [string_of_utf8]. rewrite Hc, Hc1. reflexivity.
Qed.

Lemma plain_triple c c1 c2 :
  lead_of c = Triple -> second c c1 = true -> is_continuation c2 = true ->
  plain (String c (String c1 (String c2 ""))).
Proof.
  intros Hc Hc1 Hc2 k. cbn [append].
  assert (E : utf8_of_string (String c (String c1 (String c2 k)))
              = String c (utf8_of_string (String c1 (String c2 k)))).
  { cbn [utf8_of_string]. rewrite (second_no_surrogate _ _ _ Hc1). reflexivity. }
  rewrite E.
  rewrite utf8_of_string_head by (intros; apply (second_no_lead c); exact Hc1).
  rewrite utf8_of_string_head by (intros; apply continuation_no_lead; exact Hc2).
  cbn [string_of_utf8]. rewrite Hc, Hc1, Hc2. reflexivity.
Qed.

Lemma plain_quadruple c c1 c2 c3 :
  lead_of c = Quadruple -> second c c1 = true ->
  is_continuation c2 = true -> is_continuation c3 = true ->
  plain (String c (String c1 (String c2 (String c3 "")))).
Proof.
  intros Hc Hc1 Hc2 Hc3 k. cbn [append].
  rewrite utf8_of_string_head by (intros; apply quadruple_no_surrogate; exact Hc).
  rewrite utf8_of_string_head by (intros; apply (second_no_lead c); exact Hc1).
  rewrite utf8_of_string_head by (intros; apply continuation_no_lead; exact Hc2).
  rewrite utf8_of_string_head by (intros; apply continuation_no_lead; exact Hc3).
  cbn [string_of_utf8]. rewrite Hc, Hc1, Hc2, Hc3. reflexivity.
Qed.

Lemma plain_quote_body high s : well_formed_after high s = true -> plain (quote_body s).
Proof.
  revert high s. apply (well_formed_induction (fun _ s => plain (quote_body s))).
  - intros _. apply plain_empty.
  - intros _ c s Hc IH.
    rewrite quote_body_head by (intros; apply single_no_surrogate; exact Hc).
    apply plain_app; [apply plain_ascii, quote_char_ascii; exact Hc | exact IH].
  - intros _ c c1 s Hc Hc1 IH.
    rewrite quote_body_head by (intros; apply double_no_surrogate; exact Hc).
    rewrite quote_body_head by (intros; apply continuation_no_lead; exact Hc1).
    rewrite (quote_char_high_byte c) by (apply lead_high_byte; rewrite Hc; discriminate).
    rewrite (quote_char_high_byte c1) by (apply continuation_high_byte; exact Hc1).
    apply (plain_app (String c (String c1 ""))); [apply plain_double; assumption | exact IH].
  - intros _ c c1 c2 s Hc Hc1 Hc2 IH.
    assert (E : quote_body (String c (String c1 (String c2 s)))
                = quote_char c ++ quote_body (String c1 (String c2 s))).
    { cbn [quote_body]. rewrite (second_no_surrogate _ _ _ Hc1). reflexivity. }
    rewrite E.
    rewrite quote_body_head by (intros; apply (second_no_lead c); exact Hc1).
    rewrite quote_body_head by (intros; apply continuation_no_lead; exact Hc2).
    rewrite (quote_char_high_byte c) by (apply lead_high_byte; rewrite Hc; discriminate).
    rewrite (quote_char_high_byte c1) by (apply (second_high_byte c); exact Hc1).
    rewrite (quote_char_high_byte c2) by (apply continuation_high_byte; exact Hc2).
    apply (plain_app (String c (String c1 (String c2 ""))));
      [apply plain_triple; assumption | exact IH].
  - intros high c c1 c2 u s Hu _ IH.
    destruct (surrogate_facts _ _ _ _ Hu) as (_ & _ & _ & Hascii).
    assert (E : quote_body (String c (String c1 (String c2 s)))
                = unicode_escape u ++ quote_body s).
    { cbn [quote_body]. rewrite Hu. reflexivity. }
    rewrite E. apply plain_app; [apply plain_ascii; exact Hascii | exact IH].
  - intros _ c c1 c2 c3 s Hc Hc1 Hc2 Hc3 IH.
    rewrite quote_body_head by (intros; apply quadruple_no_surrogate; exact Hc).
    rewrite quote_body_head by (intros; apply (second_no_lead c); exact Hc1).
    rewrite quote_body_head by (intros; apply continuation_no_lead; exact Hc2).
    rewrite quote_body_head by (intros; apply continuation_no_lead; exact Hc3).
    rewrite (quote_char_high_byte c) by (apply lead_high_byte; rewrite Hc; discriminate).
    rewrite (quote_char_high_byte c1) by (apply (second_high_byte c); exact Hc1).
    rewrite (quote_char_high_byte c2) by (apply continuation_high_byte; exact Hc2).
    rewrite (quote_char_high_byte c3) by (apply continuation_high_byte; exact Hc3).
    apply (plain_app (String c (String c1 (String c2 (String c3 "")))));
      [apply plain_quadruple; assumption | exact IH].
Qed.

(** Well-formed strings put together *)

Lemma well_formed_high high s :
  well_formed_after high s = true -> well_formed_after false s = true.
Proof.
  destruct high; [|auto]. destruct s as [|c rest]; [reflexivity|].
  cbn [well_formed_after]. destruct (lead_of c); try (intros H; exact H).
  destruct rest as [|c1 [|c2 rest2]]; try discriminate.
  destruct (second c c1); [auto|].
  destruct (surrogate_of c c1 c2) as [u|]; [|discriminate].
  cbn [negb]. rewrite !orb_false_r, orb_true_r. intros H.
  apply andb_true_iff in H as [_ H]. exact H.
Qed.

Lemma well_formed_app_ascii high s c t :
  well_formed_after high s = true ->
  lead_of c = Single ->
  well_formed (String c t) = true ->
  well_formed_after high (s ++ String c t) = true.
Proof.
  intros Hs Hc Ht. revert high s Hs.
  apply (well_formed_induction
           (fun high s => well_formed_after high (s ++ String c t) = true)).
  - intros high. cbn [append]. unfold well_formed in Ht. cbn [well_formed_after] in *.
    rewrite Hc in *. exact Ht.
  - intros high a s Ha IH. cbn [append well_formed_after]. rewrite Ha. exact IH.
  - intros high a a1 s Ha Ha1 IH. cbn [append well_formed_after]. rewrite Ha, Ha1. exact IH.
  - intros high a a1 a2 s Ha Ha1 Ha2 IH. cbn [append well_formed_after].
    rewrite Ha, Ha1, Ha2. exact IH.
  - intros high a a1 a2 u s Hu Hh IH.
    assert (Ha : lead_of a = Triple) by (rewrite (surrogate_lead _ _ _ _ Hu); reflexivity).
    assert (Ha1 : second a a1 = false).
    { destruct (second a a1) eqn:E; [|reflexivity].
      rewrite (second_no_surrogate _ _ a2 E) in Hu. discriminate. }
    cbn [append well_formed_after]. rewrite Ha, Ha1, Hu, Hh. exact IH.
  - intros high a a1 a2 a3 s Ha Ha1 Ha2 Ha3 IH. cbn [append well_formed_after].
    rewrite Ha, Ha1, Ha2, Ha3. exact IH.
Qed.

Lemma well_formed_ascii s : ascii_text s = true -> well_formed s = true.
Proof.
  unfold ascii_text, well_formed. induction s as [|c s IH]; [reflexivity|].
  cbn [list_ascii_of_string forallb well_formed_after].
  destruct (lead_of c); try discriminate. exact IH.
Qed.

Lemma well_formed_ascii_app a s :
  ascii_text a = true -> well_formed s = true -> well_formed (a ++ s) = true.
Proof.
  unfold ascii_text, well_formed. induction a as [|c a IH]; [intros _ H; exact H|].
  cbn [list_ascii_of_string forallb append well_formed_after].
  destruct (lead_of c); try discriminate. exact IH.
Qed.


Lemma parse_chars_quote_body s k :
  well_formed s = true ->
  parse_chars None (quote_body s ++ String dquote k) = Some (s, k).
Proof.
  intros H. apply (parse_chars_quote_body_after false s H None k). left. reflexivity.
Qed.

Lemma plain_quote s : well_formed s = true -> plain (quote s).
Proof.
  intros H. unfold quote.
  apply (plain_app (String dquote "")); [apply plain_ascii; reflexivity|].
  apply plain_app; [exact (plain_quote_body _ _ H) | apply plain_ascii; reflexivity].
Qed.

(** *** Numbers *)

Lemma scan_digits_uint (d : uint) (k : string) :
  match k with String c _ => is_digit c = false | EmptyString => True end ->
  scan_digits (NilEmpty.string_of_uint d ++ k) = (NilEmpty.string_of_uint d, k).
Proof.
  intros Hk. induction d; cbn [NilEmpty.string_of_uint append];
    try (cbn [scan_digits]; change (is_digit _) with true; cbv iota; rewrite IHd; reflexivity).
  destruct k as [|c k]; simpl; [reflexivity | rewrite Hk; reflexivity].
Qed.

Lemma to_uint_head p d : Pos.to_uint p <> D0 d.
Proof.
  intros E.
  assert (Hn : unorm (Pos.to_uint p) = Pos.to_uint p).
  { rewrite <- (DecimalPos.Unsigned.to_of (Pos.to_uint p)).
    rewrite DecimalPos.Unsigned.of_to. reflexivity. }
  rewrite E, unorm_D0 in Hn. unfold unorm in Hn.
  destruct (nzhead d) eqn:En; try (apply (nzhead_nonzero d d); congruence).
  injection Hn as <-. apply (DecimalPos.Unsigned.to_uint_nonzero p). exact E.
Qed.

Lemma follows_not_digit k :
  follows_value k = true ->
  match k with String c _ => is_digit c = false | EmptyString => True end.
Proof.
  destruct k as [|c k]; [trivial|]. simpl.
  destruct c as [[] [] [] [] [] [] [] []]; cbv; congruence.
Qed.

Lemma follows_not_fraction k :
  follows_value k = true -> starts_fraction_or_exponent k = false.
Proof.
  destruct k as [|c k]; [trivial|]. simpl.
  destruct c as [[] [] [] [] [] [] [] []]; cbv; congruence.
Qed.

End Lexical.

Section Numbers.

Lemma parse_digits_uint (negative : bool) (d : uint) (k : string) :
  d <> Nil ->
  (forall d', d = D0 d' -> d' = Nil) ->
  follows_value k = true ->
  parse_number ((if negative then "-" else "") ++ NilEmpty.string_of_uint d ++ k)
  = Some (Number_of_Z (if negative then - Z.of_uint d else Z.of_uint d), k).
Proof.
  intros Hnil Hzero Hk.
  pose proof (scan_digits_uint d k (follows_not_digit k Hk)) as Hscan.
  pose proof (NilEmpty.usu d) as Husu.
  pose proof (follows_not_fraction k Hk) as Hfrac.
  destruct d; [congruence | | | | | | | | | |];
    try (destruct negative; unfold parse_number;
         cbn [append NilEmpty.string_of_uint] in *;
         rewrite Hscan, Hfrac, Husu; reflexivity).
  rewrite (Hzero d eq_refl) in *.
  destruct negative; unfold parse_number;
    cbn [append NilEmpty.string_of_uint] in *;
    rewrite Hscan, Hfrac; reflexivity.
Qed.

Lemma Number_of_small n : Z.abs n <= 2 ^ 53 -> Number_of_Z n = VNum n.
Proof.
  intros H. unfold Number_of_Z. apply Z.leb_le in H. rewrite H. reflexivity.
Qed.

Lemma parse_number_Z (n : Z) (k : string) :
  Z.abs n <= 2 ^ 53 ->
  follows_value k = true -> parse_number (Z_to_string n ++ k) = Some (VNum n, k).
Proof.
  intros Hn Hk. rewrite <- (Number_of_small n Hn).
  unfold Z_to_string. destruct n as [|p|p]; cbn [Z.to_int].
  - exact (parse_digits_uint false zero k (fun E => ltac:(discriminate))
             (fun d' E => ltac:(injection E as <-; reflexivity)) Hk).
  - cbn [NilZero.string_of_int]. unfold NilZero.string_of_uint.
    pose proof (DecimalPos.Unsigned.to_uint_nonnil p) as Hnil.
    pose proof (parse_digits_uint false (Pos.to_uint p) k Hnil
                  (fun d' E => False_ind _ (to_uint_head p d' E)) Hk) as H.
    cbn [append] in H.
    destruct (Pos.to_uint p) eqn:E; [congruence | | | | | | | | | |];
      rewrite H; unfold Z.of_uint; rewrite <- E, DecimalPos.Unsigned.of_to; reflexivity.
  - cbn [NilZero.string_of_int]. unfold NilZero.string_of_uint.
    pose proof (DecimalPos.Unsigned.to_uint_nonnil p) as Hnil.
    pose proof (parse_digits_uint true (Pos.to_uint p) k Hnil
                  (fun d' E => False_ind _ (to_uint_head p d' E)) Hk) as H.
    destruct (Pos.to_uint p) eqn:E; [congruence | | | | | | | | | |];
      cbn [append] in *; rewrite H; unfold Z.of_uint;
      rewrite <- E, DecimalPos.Unsigned.of_to; reflexivity.
Qed.

End Numbers.

(** ** The shape of serialized text *)

Section Shape.

Lemma value_induction (Q : value -> Prop) :
  Q VUndefined -> Q VNull -> (forall b, Q (VBool b)) -> (forall n, Q (VNum n)) ->
  (forall x, Q (VDbl x)) -> (forall s, Q (VStr s)) ->
  (forall elems, Forall Q elems -> Q (VArr elems)) ->
  (forall props, Forall (fun p => Q (snd p)) props -> Q (VObj props)) ->
  forall v, Q v.
Proof.
  intros Hu Hn Hb Hz Hd Hs Ha Ho. fix IH 1. intros [| |b|n|x|s|elems|props].
  - exact Hu.
  - exact Hn.
  - apply Hb.
  - apply Hz.
  - apply Hd.
  - apply Hs.
  - apply Ha. induction elems as [|e elems IHe]; constructor; [apply IH | exact IHe].
  - apply Ho. induction props as [|[k x] props IHp]; constructor; [apply IH | exact IHp].
Qed.

Lemma is_json_array elems :
  is_json (VArr elems) = true -> Forall (fun e => is_json e = true) elems.
Proof. simpl. intros H. apply Forall_forall. apply forallb_forall. exact H. Qed.

Lemma is_json_object props :
  is_json (VObj props) = true ->
  keys_ordered (map fst props) = true
  /\ Forall (fun p => is_json (snd p) = true) props.
Proof.
  simpl. intros H. apply andb_true_iff in H as [Hk Hall]. split; [exact Hk|].
  induction props as [|[k x] props IH]; constructor.
  - apply andb_true_iff in Hall as [Hx _]. exact Hx.
  - apply andb_true_iff in Hall as [_ Hrest]. apply IH.
    + simpl in Hk. apply andb_true_iff in Hk as [_ Hk]. exact Hk.
    + exact Hrest.
Qed.

Lemma wrap_nonempty opening closing gap stepback indent p ps :
  wrap opening closing gap stepback indent (p :: ps)
  = opening ++ line_break gap indent
      ++ join ("," ++ line_break gap indent) (p :: ps)
      ++ line_break gap stepback ++ closing.
Proof.
  unfold wrap, line_break. destruct (gap =? "")%string.
  - reflexivity.
  - rewrite !append_assoc. reflexivity.
Qed.

Lemma blank_line_break gap indent :
  blank indent = true -> blank (line_break gap indent) = true.
Proof.
  unfold line_break. intros H. destruct (gap =? "")%string; [reflexivity|].
  apply blank_app; [reflexivity | exact H].
Qed.

Lemma serialize_object_members gap indent props :
  Forall (fun p => is_json (snd p) = true) props ->
  serialize gap indent (VObj props)
  = wrap "{" "}" gap indent (indent ++ gap) (map (member_text gap (indent ++ gap)) props).
Proof.
  intros H. cbn [serialize]. f_equal.
  induction H as [|[k x] props Hx _ IH]; [reflexivity|].
  cbn [map]. rewrite <- IH. unfold member_text. simpl in Hx.
  destruct x; try reflexivity. discriminate.
Qed.

Lemma Z_to_string_head n :
  exists c s, Z_to_string n = String c s /\ (is_digit c || (c =? "-")%char) = true.
Proof.
  unfold Z_to_string. destruct n as [|p|p]; cbn [Z.to_int NilZero.string_of_int].
  - exists "0"%char, "". split; reflexivity.
  - unfold NilZero.string_of_uint.
    pose proof (DecimalPos.Unsigned.to_uint_nonnil p) as Hnil.
    destruct (Pos.to_uint p); [congruence | | | | | | | | | |];
      cbn [NilEmpty.string_of_uint]; eexists _, _; (split; [reflexivity | reflexivity]).
  - eexists _, _. split; reflexivity.
Qed.

Lemma number_opens c :
  (is_digit c || (c =? "-")%char) = true -> opens_value c = true.
Proof. destruct c as [[] [] [] [] [] [] [] []]; cbv; congruence. Qed.

Lemma serialize_number gap indent n :
  is_json (VNum n) = true -> serialize gap indent (VNum n) = Z_to_string n.
Proof.
  cbn [is_json serialize]. intros H. apply Z.leb_le in H.
  unfold Number_json, Number_toString, Number_canon. rewrite (Number_of_small n H).
  reflexivity.
Qed.

Lemma serialize_head gap indent v :
  is_json v = true ->
  exists c s, serialize gap indent v = String c s /\ opens_value c = true.
Proof.
  intros Hjson. destruct v as [| |[]|n|x|s|elems|props]; try discriminate;
    try (cbn [serialize]; eexists _, _; split; reflexivity).
  - rewrite (serialize_number _ _ _ Hjson).
    destruct (Z_to_string_head n) as (c & s & E & H). exists c, s.
    split; [exact E | apply number_opens; exact H].
  - cbn [serialize]. unfold wrap.
    destruct (map (serialize gap (indent ++ gap)) elems);
      [|destruct (gap =? "")%string]; eexists _, _; split; reflexivity.
  - cbn [serialize]. unfold wrap.
    destruct ((fix members (l : list (string * value)) : list string := _) props);
      [|destruct (gap =? "")%string]; eexists _, _; split; reflexivity.
Qed.

End Shape.

(** ** Properties in enumeration order *)

Section Enumeration.

Lemma keys_ordered_before l1 k l2 :
  keys_ordered (l1 ++ k :: l2) = true ->
  forallb (fun a => negb (a =? k)%string && key_before a k) l1 = true.
Proof.
  induction l1 as [|a l1 IH]; [reflexivity|].
  cbn [List.app keys_ordered forallb]. intros H.
  apply andb_true_iff in H as [Ha Hrest]. apply andb_true_iff in Ha as [_ Ha].
  rewrite forallb_app in Ha. apply andb_true_iff in Ha as [_ Ha].
  cbn [forallb] in Ha. apply andb_true_iff in Ha as [Hak _].
  rewrite Hak. exact (IH Hrest).
Qed.

Lemma keys_ordered_well_formed l1 k l2 :
  keys_ordered (l1 ++ k :: l2) = true -> well_formed k = true.
Proof.
  induction l1 as [|a l1 IH]; cbn [List.app keys_ordered]; intros H;
    apply andb_true_iff in H as [Ha Hrest].
  - apply andb_true_iff in Ha as [Hk _]. exact Hk.
  - exact (IH Hrest).
Qed.

Lemma insert_index_last n k v acc :
  array_index k = Some n ->
  forallb (fun p => key_before (fst p) k) acc = true ->
  insert_index n k v acc = (acc ++ [(k, v)])%list.
Proof.
  intros Hk. induction acc as [|[k' v'] acc IH]; [reflexivity|].
  cbn [forallb insert_index fst List.app]. intros H.
  apply andb_true_iff in H as [Hb Hrest]. unfold key_before in Hb. rewrite Hk in Hb.
  destruct (array_index k') as [m|]; [|discriminate].
  rewrite Hb, (IH Hrest). reflexivity.
Qed.

Lemma define_property_last k v acc :
  forallb (fun a => negb (a =? k)%string && key_before a k) (map fst acc) = true ->
  define_property k v acc = (acc ++ [(k, v)])%list.
Proof.
  intros H. unfold define_property.
  assert (Hfresh : has_key k acc = false).
  { induction acc as [|[k' v'] acc IH]; [reflexivity|].
    cbn [map fst forallb has_key] in *. apply andb_true_iff in H as [Hk Hrest].
    apply andb_true_iff in Hk as [Hne _]. rewrite String.eqb_sym.
    apply negb_true_iff in Hne. rewrite Hne. exact (IH Hrest). }
  assert (Hbefore : forallb (fun p => key_before (fst p) k) acc = true).
  { induction acc as [|[k' v'] acc IH]; [reflexivity|].
    cbn [map fst forallb has_key] in *. apply andb_true_iff in H as [Hk Hrest].
    apply andb_true_iff in Hk as [_ Hb]. rewrite Hb.
    apply IH; [exact Hrest|].
    apply orb_false_iff in Hfresh as [_ Hfresh]. exact Hfresh. }
  rewrite Hfresh. destruct (array_index k) as [n|] eqn:E; [|reflexivity].
  apply insert_index_last; assumption.
Qed.

End Enumeration.

(** ** Parsing what was serialized *)

Section RoundTrip.

Lemma parse_value_blank fuel ws s :
  blank ws = true -> parse_value fuel (ws ++ s) = parse_value fuel s.
Proof.
  intros H. destruct fuel; [reflexivity|].
  cbn [parse_value]. rewrite (skip_ws_blank _ _ H). reflexivity.
Qed.

Lemma opens_not_ws c : opens_value c = true -> is_ws c = false.
Proof.
  unfold opens_value. rewrite !andb_true_iff, !negb_true_iff. tauto.
Qed.

Lemma follows_separator post c s :
  blank post = true ->
  ((c =? ",") || (c =? "]") || (c =? "}"))%char = true ->
  follows_value (post ++ String c s) = true.
Proof.
  intros Hp Hc. destruct post as [|p post]; cbn [append follows_value].
  - destruct (is_ws c); [reflexivity | exact Hc].
  - unfold blank in Hp. cbn [all_chars] in Hp. apply andb_true_iff in Hp as [Hc' _].
    rewrite Hc'. reflexivity.
Qed.

Lemma skip_ws_separator post c s :
  blank post = true -> is_ws c = false ->
  skip_ws (post ++ String c s) = String c s.
Proof.
  intros Hp Hc. rewrite (skip_ws_blank _ _ Hp). apply skip_ws_head. exact Hc.
Qed.

End RoundTrip.

Section Sequences.

Variable pv : string -> option (value * string).

Lemma parse_elements_join fuel pre post (text : value -> string) elems k :
  blank pre = true -> blank post = true ->
  (forall e, In e elems -> forall k', follows_value k' = true ->
             pv (pre ++ text e ++ k') = Some (e, k')) ->
  elems <> [] -> (List.length elems <= fuel)%nat ->
  parse_elements pv fuel
    (pre ++ join ("," ++ pre) (map text elems) ++ post ++ "]" ++ k)
  = Some (elems, k).
Proof.
  intros Hpre Hpost. revert fuel.
  induction elems as [|e elems IH]; [congruence|].
  intros fuel Hpv _ Hfuel. destruct fuel as [|fuel]; [simpl in Hfuel; lia|].
  destruct elems as [|e2 elems].
  - cbn [map join parse_elements].
    rewrite (Hpv e (or_introl eq_refl) (post ++ "]" ++ k))
      by (apply follows_separator; [exact Hpost | reflexivity]).
    change (post ++ "]" ++ k) with (post ++ String "]" k).
    rewrite skip_ws_separator by (exact Hpost || reflexivity). reflexivity.
  - change (map text (e :: e2 :: elems)) with (text e :: map text (e2 :: elems)).
    change (join ("," ++ pre) (text e :: map text (e2 :: elems)))
      with (text e ++ ("," ++ pre) ++ join ("," ++ pre) (map text (e2 :: elems))).
    rewrite !append_assoc. cbn [parse_elements].
    rewrite (Hpv e (or_introl eq_refl)) by reflexivity.
    cbn [append]. rewrite skip_ws_head by reflexivity.
    cbn [Ascii.eqb Bool.eqb andb].
    cbv iota. rewrite IH; [reflexivity | | discriminate | simpl in *; lia].
    intros e' Hin. apply Hpv. right. exact Hin.
Qed.

Lemma join_cons sep a l :
  l <> [] -> join sep (a :: l) = a ++ sep ++ join sep l.
Proof. destruct l; [congruence | reflexivity]. Qed.

Lemma quote_then key rest :
  quote key ++ rest = String dquote (quote_body key ++ String dquote rest).
Proof. unfold quote. cbn [append]. rewrite append_assoc. reflexivity. Qed.

Lemma parse_members_join fuel pre post sp (text : value -> string) props acc k :
  blank pre = true -> blank post = true -> blank sp = true ->
  (forall p, In p props -> forall k', follows_value k' = true ->
             pv (sp ++ text (snd p) ++ k') = Some (snd p, k')) ->
  keys_ordered (map fst (acc ++ props)%list) = true ->
  props <> [] -> (List.length props <= fuel)%nat ->
  parse_members pv fuel acc
    (pre ++ join ("," ++ pre)
              (map (fun p => quote (fst p) ++ ":" ++ sp ++ text (snd p)) props)
         ++ post ++ "}" ++ k)
  = Some ((acc ++ props)%list, k).
Proof.
  intros Hpre Hpost Hsp. revert fuel acc.
  induction props as [|[key x] props IH]; [congruence|].
  intros fuel acc Hpv Hkeys _ Hfuel. destruct fuel as [|fuel]; [simpl in Hfuel; lia|].
  assert (Hdef : define_property key x acc = (acc ++ [(key, x)])%list).
  { apply define_property_last. rewrite map_app in Hkeys.
    exact (keys_ordered_before _ _ _ Hkeys). }
  assert (Hkey : well_formed key = true).
  { rewrite map_app in Hkeys. exact (keys_ordered_well_formed _ _ _ Hkeys). }
  pose proof (Hpv (key, x) (or_introl eq_refl)) as Hx. cbn [snd] in Hx.
  destruct props as [|p2 props].
  - cbn [map join fst snd]. rewrite !append_assoc. rewrite quote_then.
    cbn [parse_members]. rewrite (skip_ws_blank _ _ Hpre).
    rewrite skip_ws_head by reflexivity.
    change (negb (dquote =? dquote)%char) with false. cbv iota.
    rewrite parse_chars_quote_body by exact Hkey.
    cbn [append]. rewrite skip_ws_head by reflexivity.
    change (negb (":" =? ":")%char) with false. cbv iota.
    rewrite (Hx (post ++ String "}" k))
      by (apply follows_separator; [exact Hpost | reflexivity]).
    rewrite skip_ws_separator by (exact Hpost || reflexivity).
    rewrite Hdef. reflexivity.
  - change (map ?f ((key, x) :: p2 :: props)) with (f (key, x) :: map f (p2 :: props)).
    rewrite join_cons by discriminate. cbn [fst snd].
    rewrite !append_assoc. rewrite quote_then.
    cbn [parse_members]. rewrite (skip_ws_blank _ _ Hpre).
    rewrite skip_ws_head by reflexivity.
    change (negb (dquote =? dquote)%char) with false. cbv iota.
    rewrite parse_chars_quote_body by exact Hkey.
    cbn [append]. rewrite skip_ws_head by reflexivity.
    change (negb (":" =? ":")%char) with false. cbv iota.
    rewrite Hx by reflexivity.
    rewrite skip_ws_head by reflexivity.
    cbn [Ascii.eqb Bool.eqb andb]. rewrite Hdef.
    rewrite IH.
    + rewrite <- app_assoc. reflexivity.
    + intros p Hin. apply Hpv. right. exact Hin.
    + rewrite <- app_assoc. exact Hkeys.
    + discriminate.
    + simpl in *; lia.
Qed.

End Sequences.

Section ParseSerialize.

Lemma size_positive v : (1 <= size v)%nat.
Proof. destruct v; simpl; lia. Qed.

Lemma size_elements elems :
  let total := fold_right (fun e n => (size e + n)%nat) O elems in
  (List.length elems <= total)%nat /\ Forall (fun e => (size e <= total)%nat) elems.
Proof.
  induction elems as [|e elems [IHl IHf]]; cbn [fold_right List.length].
  - split; [lia | constructor].
  - pose proof (size_positive e). split; [lia|].
    constructor; [lia|]. eapply Forall_impl; [|exact IHf]. cbv beta. intros; lia.
Qed.

Lemma size_properties props :
  let total := (fix sum (l : list (string * value)) : nat :=
                  match l with
                  | [] => O
                  | (_, x) :: rest => (size x + sum rest)%nat
                  end) props in
  (List.length props <= total)%nat /\ Forall (fun p => (size (snd p) <= total)%nat) props.
Proof.
  induction props as [|[k x] props [IHl IHf]]; cbn [List.length].
  - split; [lia | constructor].
  - pose proof (size_positive x). split; [lia|].
    constructor; [cbn [snd]; lia|]. eapply Forall_impl; [|exact IHf]. cbv beta. intros; lia.
Qed.

Lemma parse_value_number fuel c s :
  (is_digit c || (c =? "-")%char) = true ->
  parse_value (S fuel) (String c s) = parse_number (String c s).
Proof.
  destruct c as [[] [] [] [] [] [] [] []]; cbv [is_digit N_of_ascii N_of_digits]; 
    try discriminate; intros _; reflexivity.
Qed.

Lemma parse_value_array fuel rest :
  parse_value (S fuel) (String "[" rest)
  = match skip_ws rest with
    | String c' rest' =>
        if (c' =? "]")%char then Some (VArr [], rest')
        else map_fst VArr (parse_elements (parse_value fuel) fuel rest)
    | EmptyString => None
    end.
Proof. reflexivity. Qed.

Lemma parse_value_object fuel rest :
  parse_value (S fuel) (String "{" rest)
  = match skip_ws rest with
    | String c' rest' =>
        if (c' =? "}")%char then Some (VObj [], rest')
        else map_fst VObj (parse_members (parse_value fuel) fuel [] rest)
    | EmptyString => None
    end.
Proof. reflexivity. Qed.

Lemma parse_value_string fuel rest :
  parse_value (S fuel) (String dquote rest) = map_fst VStr (parse_chars None rest).
Proof. reflexivity. Qed.

Lemma opens_not_bracket c : opens_value c = true -> (c =? "]")%char = false.
Proof. unfold opens_value. rewrite !andb_true_iff, !negb_true_iff. tauto. Qed.

Lemma join_head sep a l c s :
  a = String c s -> exists s', join sep (a :: l) = String c s'.
Proof. intros ->. destruct l; eexists; reflexivity. Qed.

Lemma skip_ws_join pre sep a l c s rest :
  blank pre = true -> a = String c s -> is_ws c = false ->
  exists s', skip_ws (pre ++ join sep (a :: l) ++ rest) = String c s'.
Proof.
  intros Hpre E Hc. destruct (join_head sep a l c s E) as [s' Ej].
  rewrite (skip_ws_blank _ _ Hpre), Ej. cbn [append].
  rewrite (skip_ws_head _ _ Hc). eauto.
Qed.

Theorem parse_serialize gap :
  blank gap = true ->
  forall v, is_json v = true ->
  forall indent k fuel,
    blank indent = true -> follows_value k = true -> (size v <= fuel)%nat ->
    parse_value fuel (serialize gap indent v ++ k) = Some (v, k).
Proof.
  intros Hgap v. induction v as [| |b|n|x|s|elems IH|props IH] using value_induction;
    intros Hjson indent k fuel Hind Hk Hfuel.
  - discriminate.
  - destruct fuel; [simpl in Hfuel; lia | reflexivity].
  - destruct fuel; [simpl in Hfuel; lia | destruct b; reflexivity].
  - destruct fuel; [simpl in Hfuel; lia |]. rewrite (serialize_number _ _ _ Hjson).
    destruct (Z_to_string_head n) as (c & s & E & Hc).
    cbn [is_json] in Hjson. apply Z.leb_le in Hjson.
    pose proof (parse_number_Z n k Hjson Hk) as Hnum. rewrite E in *. cbn [append] in *.
    rewrite (parse_value_number _ _ _ Hc), Hnum. reflexivity.
  - discriminate.
  - destruct fuel; [simpl in Hfuel; lia |]. cbn [serialize]. rewrite quote_then.
    rewrite parse_value_string, parse_chars_quote_body by exact Hjson. reflexivity.
  - (* arrays *)
    destruct fuel as [|fuel]; [simpl in Hfuel; lia |].
    destruct elems as [|e elems]; [reflexivity|].
    cbn [serialize]. change (map ?f (e :: elems)) with (f e :: map f elems).
    rewrite wrap_nonempty. rewrite !append_assoc.
    change ("[" ++ ?x) with (String "[" x).
    rewrite parse_value_array.
    assert (Hblank : blank (line_break gap (indent ++ gap)) = true)
      by (apply blank_line_break, blank_app; assumption).
    assert (He : is_json e = true)
      by (apply is_json_array in Hjson; inversion Hjson; assumption).
    destruct (serialize_head gap (indent ++ gap) e He) as (c & s & E & Hc).
    destruct (skip_ws_join (line_break gap (indent ++ gap))
                ("," ++ line_break gap (indent ++ gap)) _
                (map (serialize gap (indent ++ gap)) elems) c s
                (line_break gap indent ++ "]" ++ k) Hblank E (opens_not_ws _ Hc))
      as [s' Hskip].
    rewrite Hskip, (opens_not_bracket _ Hc).
    change (serialize gap (indent ++ gap) e :: map (serialize gap (indent ++ gap)) elems)
      with (map (serialize gap (indent ++ gap)) (e :: elems)).
    cbn [size] in Hfuel. destruct (size_elements (e :: elems)) as [Hlen Hsizes].
    rewrite (parse_elements_join (parse_value fuel) fuel); [reflexivity | exact Hblank | | | discriminate | lia].
    + apply blank_line_break. exact Hind.
    + intros x Hin k' Hk'. rewrite (parse_value_blank _ _ _ Hblank).
      rewrite Forall_forall in IH, Hsizes.
      apply (IH x Hin).
      * apply is_json_array in Hjson. rewrite Forall_forall in Hjson. exact (Hjson x Hin).
      * apply blank_app; assumption.
      * exact Hk'.
      * specialize (Hsizes x Hin). lia.
  - (* objects *)
    destruct fuel as [|fuel]; [simpl in Hfuel; lia |].
    destruct (is_json_object _ Hjson) as [Hkeys Hvalues].
    rewrite (serialize_object_members _ _ _ Hvalues).
    destruct props as [|[key x] props]; [reflexivity|].
    change (map ?f ((key, x) :: props)) with (f (key, x) :: map f props).
    rewrite wrap_nonempty. rewrite !append_assoc.
    change ("{" ++ ?x) with (String "{" x).
    rewrite parse_value_object.
    assert (Hblank : blank (line_break gap (indent ++ gap)) = true)
      by (apply blank_line_break, blank_app; assumption).
    assert (E : member_text gap (indent ++ gap) (key, x)
                = String dquote (quote_body key ++ String dquote
                    (":" ++ (if (gap =? "")%string then "" else " ")
                         ++ serialize gap (indent ++ gap) x)))
      by (unfold member_text; cbn [fst snd]; apply quote_then).
    destruct (skip_ws_join (line_break gap (indent ++ gap))
                ("," ++ line_break gap (indent ++ gap)) _
                (map (member_text gap (indent ++ gap)) props) _ _
                (line_break gap indent ++ "}" ++ k) Hblank E eq_refl)
      as [s' Hskip].
    rewrite Hskip.
    change (dquote =? "}")%char with false. cbv iota.
    change (member_text gap (indent ++ gap) (key, x) :: map (member_text gap (indent ++ gap)) props)
      with (map (member_text gap (indent ++ gap)) ((key, x) :: props)).
    cbn [size] in Hfuel. destruct (size_properties ((key, x) :: props)) as [Hlen Hsizes].
    unfold member_text.
    rewrite (parse_members_join (parse_value fuel) fuel
               (line_break gap (indent ++ gap)) (line_break gap indent)
               (if (gap =? "")%string then "" else " ")
               (serialize gap (indent ++ gap)) ((key, x) :: props) [] k);
      [reflexivity | exact Hblank | | | | exact Hkeys | discriminate | lia].
    + apply blank_line_break. exact Hind.
    + destruct (gap =? "")%string; reflexivity.
    + intros p Hin k' Hk'.
      rewrite parse_value_blank by (destruct (gap =? "")%string; reflexivity).
      rewrite Forall_forall in IH, Hsizes, Hvalues.
      apply (IH p Hin).
      * exact (Hvalues p Hin).
      * apply blank_app; assumption.
      * exact Hk'.
      * specialize (Hsizes p Hin). simpl in Hsizes. lia.
Qed.

End ParseSerialize.

Section StringifyParse.

Lemma length_append (a b : string) :
  String.length (a ++ b) = (String.length a + String.length b)%nat.
Proof. induction a as [|c a IH]; simpl; [reflexivity | rewrite IH; reflexivity]. Qed.

Lemma length_join sep (f : value -> string) (g : value -> nat) elems :
  Forall (fun e => (g e <= String.length (f e))%nat) elems ->
  (fold_right (fun e n => (g e + n)%nat) O elems
   <= String.length (join sep (map f elems)))%nat.
Proof.
  induction 1 as [|e elems He _ IH]; [simpl; lia|].
  destruct elems as [|e2 elems]; [simpl in *; lia|].
  change (map f (e :: e2 :: elems)) with (f e :: map f (e2 :: elems)).
  rewrite join_cons by discriminate. rewrite !length_append.
  cbn [fold_right] in *. lia.
Qed.

Lemma length_wrap opening closing gap stepback indent parts :
  (String.length opening + String.length (join "" parts)
   <= String.length (wrap opening closing gap stepback indent parts))%nat.
Proof.
  destruct parts as [|p ps].
  - unfold wrap. rewrite length_append. simpl. lia.
  - rewrite wrap_nonempty. rewrite !length_append.
    enough (String.length (join "" (p :: ps))
            <= String.length (join ("," ++ line_break gap indent) (p :: ps)))%nat by lia.
    generalize ("," ++ line_break gap indent). intros sep. revert p.
    induction ps as [|q ps IH]; intros p; [simpl; lia|].
    rewrite (join_cons "" p), (join_cons sep p) by discriminate.
    rewrite !length_append.
    specialize (IH q). change (String.length "") with O. lia.
Qed.

Lemma size_serialize gap indent v :
  is_json v = true -> (size v <= String.length (serialize gap indent v))%nat.
Proof.
  revert indent.
  induction v as [| |b|n|x|s|elems IH|props IH] using value_induction; intros indent Hjson.
  - discriminate.
  - simpl; lia.
  - destruct b; simpl; lia.
  - rewrite (serialize_number _ _ _ Hjson). cbn [size].
    destruct (Z_to_string_head n) as (c & s & -> & _). simpl. lia.
  - discriminate.
  - cbn [size serialize]. unfold quote. simpl. lia.
  - cbn [size serialize].
    pose proof (length_wrap "[" "]" gap indent (indent ++ gap)
                  (map (serialize gap (indent ++ gap)) elems)) as Hw.
    assert (Hsum : (fold_right (fun e n => (size e + n)%nat) O elems
                    <= String.length (join "" (map (serialize gap (indent ++ gap)) elems)))%nat).
    { apply length_join. apply is_json_array in Hjson.
      rewrite Forall_forall in *. intros e Hin. apply IH; auto. }
    simpl in Hw. lia.
  - destruct (is_json_object _ Hjson) as [_ Hvalues].
    rewrite (serialize_object_members _ _ _ Hvalues). cbn [size].
    pose proof (length_wrap "{" "}" gap indent (indent ++ gap)
                  (map (member_text gap (indent ++ gap)) props)) as Hw.
    assert (Hsum : ((fix sum (l : list (string * value)) : nat :=
                       match l with
                       | [] => O
                       | (_, x) :: rest => (size x + sum rest)%nat
                       end) props
                    <= String.length (join "" (map (member_text gap (indent ++ gap)) props)))%nat).
    { clear Hw Hjson. induction props as [|[key x] props IHp]; [simpl; lia|].
      inversion IH as [|? ? Hx IH']; subst. inversion Hvalues as [|? ? Jx Hvalues']; subst.
      specialize (IHp IH' Hvalues'). specialize (Hx (indent ++ gap) Jx).
      cbn [snd] in *.
      destruct props as [|p2 props].
      - cbn [map join]. unfold member_text. cbn [fst snd]. rewrite !length_append. lia.
      - change (map ?f ((key, x) :: p2 :: props)) with (f (key, x) :: map f (p2 :: props)).
        rewrite join_cons by discriminate. unfold member_text at 1. cbn [fst snd].
        rewrite !length_append. lia. }
    simpl in Hw. lia.
Qed.

(** [JSON.parse] gives back what [JSON.stringify] was given. *)
Theorem JSON_parse_stringify v space :
  is_json v = true ->
  exists text, JSON_stringify v space = VStr text /\ JSON_parse text = ok v.
Proof.
  intros Hjson.
  exists (serialize (spaces (Nat.min space 10)) "" v). split.
  - destruct v; try reflexivity. discriminate.
  - unfold JSON_parse.
    pose proof (size_serialize (spaces (Nat.min space 10)) "" v Hjson) as Hsize.
    pose proof (parse_serialize (spaces (Nat.min space 10)) (blank_spaces _) v Hjson
                  "" "" (S (String.length (serialize (spaces (Nat.min space 10)) "" v)))
                  eq_refl eq_refl ltac:(lia)) as Hparse.
    rewrite append_empty in Hparse. rewrite Hparse. reflexivity.
Qed.

End StringifyParse.

(** ** Serialized text as UTF-8 *)

Section Utf8Text.
Import Base64.

Lemma ascii_text_app a b :
  ascii_text a = true -> ascii_text b = true -> ascii_text (a ++ b) = true.
Proof.
  unfold ascii_text. induction a as [|c a IH]; [intros _ H; exact H|].
  cbn [append list_ascii_of_string forallb]. intros H Hb.
  apply andb_true_iff in H as [Hc Ha]. rewrite Hc. exact (IH Ha Hb).
Qed.

Lemma ascii_spaces n : ascii_text (spaces n) = true.
Proof. induction n as [|n IH]; [reflexivity | exact IH]. Qed.

Lemma ascii_uint d : ascii_text (NilEmpty.string_of_uint d) = true.
Proof. induction d; [reflexivity | exact IHd ..]. Qed.

Lemma ascii_Z_to_string n : ascii_text (Z_to_string n) = true.
Proof.
  unfold Z_to_string. destruct (Z.to_int n) as [d|d]; cbn [NilZero.string_of_int].
  - unfold NilZero.string_of_uint. destruct d; try reflexivity; apply (ascii_uint (_ d)).
  - apply (ascii_text_app "-"); [reflexivity|].
    unfold NilZero.string_of_uint. destruct d; try reflexivity; apply (ascii_uint (_ d)).
Qed.

Lemma char_ascii x : lead_of (char x) = Single.
Proof.
  destruct x as [[[[[b5 b4] b3] b2] b1] b0].
  destruct b5, b4, b3, b2, b1, b0; reflexivity.
Qed.

Lemma ascii_encode bytes : ascii_text (encode bytes) = true.
Proof.
  unfold ascii_text.
  induction bytes as [|a|a b|a b c s IH] using string_by_three.
  - reflexivity.
  - destruct a as [a0 a1 a2 a3 a4 a5 a6 a7].
    cbn [encode list_ascii_of_string forallb]. rewrite !char_ascii. reflexivity.
  - destruct a as [a0 a1 a2 a3 a4 a5 a6 a7], b as [b0 b1 b2 b3 b4 b5 b6 b7].
    cbn [encode list_ascii_of_string forallb]. rewrite !char_ascii. reflexivity.
  - destruct a as [a0 a1 a2 a3 a4 a5 a6 a7], b as [b0 b1 b2 b3 b4 b5 b6 b7],
      c as [c0 c1 c2 c3 c4 c5 c6 c7].
    cbn [encode list_ascii_of_string forallb]. rewrite !char_ascii. exact IH.
Qed.

Lemma plain_join sep parts :
  plain sep -> Forall plain parts -> plain (join sep parts).
Proof.
  intros Hsep. induction 1 as [|p parts Hp Hparts IH]; [apply plain_empty|].
  destruct parts as [|q parts]; [exact Hp|].
  rewrite join_cons by discriminate.
  apply plain_app; [exact Hp|]. apply plain_app; [exact Hsep | exact IH].
Qed.

Lemma plain_line_break gap indent : plain indent -> plain (line_break gap indent).
Proof.
  intros H. unfold line_break. destruct (gap =? "")%string; [apply plain_empty|].
  apply plain_app; [apply plain_ascii; reflexivity | exact H].
Qed.

Lemma plain_wrap opening closing gap stepback indent parts :
  ascii_text opening = true -> ascii_text closing = true ->
  plain stepback -> plain indent -> Forall plain parts ->
  plain (wrap opening closing gap stepback indent parts).
Proof.
  intros Ho Hc Hs Hi Hparts. destruct parts as [|p ps].
  - unfold wrap. apply plain_app; apply plain_ascii; assumption.
  - rewrite wrap_nonempty.
    apply plain_app; [apply plain_ascii; exact Ho|].
    apply plain_app; [apply plain_line_break; exact Hi|].
    apply plain_app.
    + apply plain_join; [|exact Hparts].
      apply plain_app; [apply plain_ascii; reflexivity | apply plain_line_break; exact Hi].
    + apply plain_app; [apply plain_line_break; exact Hs | apply plain_ascii; exact Hc].
Qed.

Lemma keys_ordered_all ks :
  keys_ordered ks = true -> Forall (fun k => well_formed k = true) ks.
Proof.
  induction ks as [|k ks IH]; [constructor|].
  cbn [keys_ordered]. intros H. apply andb_true_iff in H as [H Hrest].
  apply andb_true_iff in H as [Hk _]. constructor; [exact Hk | exact (IH Hrest)].
Qed.

(** The text of a JSON value is UTF-8 as it stands: every character
    beyond ASCII is in a string, and the surrogates are escaped. *)
Lemma plain_serialize gap :
  plain gap ->
  forall v, is_json v = true ->
  forall indent, plain indent -> plain (serialize gap indent v).
Proof.
  intros Hgap v. induction v as [| |b|n|x|s|elems IH|props IH] using value_induction;
    intros Hjson indent Hind.
  - discriminate.
  - apply plain_ascii. reflexivity.
  - apply plain_ascii. destruct b; reflexivity.
  - rewrite (serialize_number _ _ _ Hjson). apply plain_ascii, ascii_Z_to_string.
  - discriminate.
  - cbn [serialize]. apply plain_quote. exact Hjson.
  - cbn [serialize]. apply plain_wrap; try reflexivity; try exact Hind.
    + apply plain_app; assumption.
    + apply is_json_array in Hjson. apply Forall_forall. intros t Ht.
      apply in_map_iff in Ht as (e & <- & He). rewrite Forall_forall in IH, Hjson.
      apply IH; [exact He | exact (Hjson e He) | apply plain_app; assumption].
  - destruct (is_json_object _ Hjson) as [Hkeys Hvalues].
    rewrite (serialize_object_members _ _ _ Hvalues).
    apply plain_wrap; try reflexivity; try exact Hind.
    + apply plain_app; assumption.
    + apply keys_ordered_all in Hkeys. apply Forall_forall. intros t Ht.
      apply in_map_iff in Ht as ([k x] & <- & Hp). unfold member_text. cbn [fst snd].
      rewrite Forall_forall in IH, Hvalues, Hkeys.
      apply plain_app; [apply plain_quote, Hkeys, in_map_iff; exists (k, x); auto|].
      apply (plain_app ":"); [apply plain_ascii; reflexivity|].
      apply plain_app; [destruct (gap =? "")%string; apply plain_ascii; reflexivity|].
      apply (IH (k, x) Hp); [exact (Hvalues (k, x) Hp) | apply plain_app; assumption].
Qed.

(** What [JSON.stringify] gives for a JSON value is written to a buffer
    and read back from it unchanged. *)
Lemma JSON_stringify_utf8 v space text :
  is_json v = true -> JSON_stringify v space = VStr text ->
  string_of_utf8 (utf8_of_string text) = text.
Proof.
  intros Hjson Ht.
  assert (E : text = serialize (spaces (Nat.min space 10)) "" v).
  { destruct v; try discriminate; cbn [JSON_stringify] in Ht; congruence. }
  pose proof (plain_serialize _ (plain_ascii _ (ascii_spaces (Nat.min space 10)))
                v Hjson "" plain_empty "") as H.
  rewrite append_empty in H. cbn [utf8_of_string string_of_utf8] in H.
  rewrite append_empty in H. rewrite E. exact H.
Qed.

(** The string form of a JSON value is a well-formed string. *)
Lemma well_formed_join parts :
  Forall (fun p => well_formed p = true) parts -> well_formed (join "," parts) = true.
Proof.
  induction 1 as [|p parts Hp Hparts IH]; [reflexivity|].
  destruct parts as [|q parts]; [exact Hp|].
  rewrite join_cons by discriminate.
  apply (well_formed_app_ascii false p ","%char); [exact Hp | reflexivity | exact IH].
Qed.

Lemma to_string_well_formed v :
  is_json v = true -> forall text, to_string v = ok text -> well_formed text = true.
Proof.
  induction v as [| |b|n|x|s|elems IH|props IH] using value_induction;
    intros Hjson text Ht.
  - discriminate.
  - injection Ht as <-. reflexivity.
  - destruct b; injection Ht as <-; reflexivity.
  - cbn [to_string] in Ht. injection Ht as <-.
    cbn [is_json] in Hjson. apply Z.leb_le in Hjson.
    unfold Number_toString, Number_canon. rewrite (Number_of_small n Hjson).
    apply well_formed_ascii, ascii_Z_to_string.
  - discriminate.
  - injection Ht as <-. exact Hjson.
  - apply is_json_array in Hjson. cbn [to_string] in Ht.
    match type of Ht with
    | context [rbind (?f elems)] => set (parts := f) in Ht
    end.
    assert (Hparts : forall ss, parts elems = ok ss ->
              Forall (fun p => well_formed p = true) ss).
    { clear Ht. induction elems as [|e elems IHe]; intros ss Hss.
      - injection Hss as <-. constructor.
      - inversion IH as [|? ? He IH']; subst. inversion Hjson as [|? ? Je Hjson']; subst.
        cbn [parts] in Hss. fold parts in Hss.
        destruct (match e with VUndefined | VNull => ok "" | _ => to_string e end)
          as [err|t] eqn:Et; [discriminate|].
        cbn [rbind] in Hss. destruct (parts elems) as [err|ts] eqn:Ets; [discriminate|].
        cbn [rbind] in Hss. injection Hss as <-.
        constructor; [|exact (IHe IH' Hjson' ts eq_refl)].
        destruct e; try (injection Et as <-; reflexivity); apply (He Je t Et). }
    destruct (parts elems) as [err|ss]; [discriminate|].
    cbn [rbind] in Ht. injection Ht as <-. apply well_formed_join, Hparts. reflexivity.
  - cbn [to_string] in Ht. destruct (lookup "toString" props); [discriminate|].
    injection Ht as <-. reflexivity.
Qed.

Lemma well_formed_label label v text :
  ascii_text label = true -> is_json v = true -> to_string v = ok text ->
  well_formed (label ++ text) = true.
Proof.
  intros Hl Hv Ht. apply well_formed_ascii_app; [exact Hl|].
  exact (to_string_well_formed v Hv text Ht).
Qed.

End Utf8Text.

(** ** The uploads *)

(** One step of the [try] block whose result is known. *)
Ltac step H := rewrite (bind_lift _ _ _ _ H).

Section Uploads.
Context `{P : Platform}.

Lemma present_object data field :
  present data field = true -> exists props, data = VObj props.
Proof.
  unfold present. destruct data; simpl; try discriminate. eauto.
Qed.

Lemma valid_object data pluginId idText :
  valid data pluginId idText -> exists props, data = VObj props.
Proof.
  intros (Hreq & _). simpl in Hreq. apply andb_true_iff in Hreq as [Hid _].
  exact (present_object _ _ Hid).
Qed.

Lemma getenv_string env name :
  getenv env name = VUndefined \/ exists s, getenv env name = VStr s.
Proof.
  induction env as [|[k v] env IH]; simpl; [left; reflexivity|].
  destruct (name =? k)%string; [right; eauto | exact IH].
Qed.

Lemma token_configured env :
  truthy (GITHUB_TOKEN env) = true -> GITHUB_TOKEN env = VStr (token env).
Proof.
  unfold token. destruct (getenv_string env "GITHUB_TOKEN") as [E|[s E]];
    unfold GITHUB_TOKEN; rewrite E; [discriminate | reflexivity].
Qed.

Lemma repository_string env : GITHUB_REPO env = VStr (repository env).
Proof.
  unfold repository, GITHUB_REPO, or_else.
  destruct (getenv_string env "GITHUB_REPO") as [E|[s E]]; rewrite E; simpl;
    [reflexivity|]. destruct (negb (s =? "")%string); reflexivity.
Qed.

Lemma headers_for_token env :
  truthy (GITHUB_TOKEN env) = true ->
  headers_for (GITHUB_TOKEN env) = ok (api_headers env).
Proof.
  intros H. rewrite (token_configured _ H). unfold headers_for, api_headers. simpl.
  rewrite append_empty. reflexivity.
Qed.

Lemma contents_url_repository env path :
  contents_url (GITHUB_REPO env) path = ok (contents env path).
Proof.
  rewrite repository_string. unfold contents_url, contents. simpl.
  rewrite append_empty. reflexivity.
Qed.

Lemma template_path pluginId idText suffix :
  to_string pluginId = ok idText ->
  template [VStr "plugins/"; pluginId; VStr suffix] = ok ("plugins/" ++ idText ++ suffix).
Proof.
  intros H. simpl. rewrite H. simpl. rewrite append_empty. reflexivity.
Qed.

Lemma template_status (label : string) (code : Z) :
  template [VStr label; VNum code] = ok (label ++ Number_toString (VNum code)).
Proof. simpl. rewrite append_empty. reflexivity. Qed.

(** The [try] block up to the call that writes [plugin.py]. *)
Lemma publish_to_plugin_put env data pluginId idText configContent' pluginData' w :
  truthy (GITHUB_TOKEN env) = true ->
  to_string pluginId = ok idText ->
  configContent data pluginId = ok configContent' ->
  pluginData data = ok pluginData' ->
  publish env data pluginId (after w [] [])
  = bind (await_fetch (put_plugin env idText pluginData'))
      (fun pluginRes =>
         if negb (Response_ok pluginRes) then
           (errorText <- lift (Response_text pluginRes) ;;
            console_error "GitHub API error (plugin.py):" errorText ;;
            error <- lift (template [VStr "上传 plugin.py 失败: ";
                                     VNum (Response_status pluginRes)]) ;;
            res_json 500 (failure error))%M
         else
           (configPath <- lift (template [VStr "plugins/"; pluginId; VStr "/config.json"]) ;;
            configUrl <- lift (contents_url (GITHUB_REPO env) configPath) ;;
            configData <- lift (configData data configContent') ;;
            configRes <- await_fetch (put configUrl (api_headers env) configData) ;;
            if negb (Response_ok configRes) then
              errorText <- lift (Response_text configRes) ;;
              console_error "GitHub API error (config.json):" errorText ;;
              error <- lift (template [VStr "上传 config.json 失败: ";
                                       VNum (Response_status configRes)]) ;;
              res_json 500 (failure error)
            else update_index env data pluginId (api_headers env))%M)
      (after w [] []).
Proof.
  intros Ht Hs Hc Hp. unfold publish. cbv zeta. rewrite Ht. cbv [negb].
  step Hc. step (headers_for_token _ Ht). step (template_path _ _ "/plugin.py" Hs).
  step (contents_url_repository env ("plugins/" ++ idText ++ "/plugin.py")).
  step Hp. reflexivity.
Qed.

(** A number that is an integer of at most 53 bits is printed as its
    decimal digits. *)
Lemma Number_toString_small n :
  Z.abs n <= 2 ^ 53 -> Number_toString (VNum n) = NilZero.string_of_int (Z.to_int n).
Proof.
  intros H. unfold Number_toString, Number_canon. rewrite (Number_of_small n H).
  reflexivity.
Qed.

(** C5 (as amended): when the call that writes [plugins/<id>/plugin.py] is
    answered with a status outside 200..299 and the body of the answer can
    be read, the reply is 500 with [success: false] and an error that
    ends in that status, in decimal digits; the body is logged, not sent.
    The call is the only one made, so neither [config.json] nor the index
    is written or read. *)
Theorem plugin_upload_failure env req w pluginId idText payload pluginRes w' errorText :
  method req = "POST" ->
  valid (body req) pluginId idText ->
  truthy (GITHUB_TOKEN env) = true ->
  pluginData (body req) = ok payload ->
  fetch (put_plugin env idText payload) w = (inr pluginRes, w') ->
  Response_ok pluginRes = false ->
  Response_text pluginRes = ok errorText ->
  handler env req w
  = (answer 500
       (VObj [("success", VBool false);
              ("error",
               VStr ("上传 plugin.py 失败: "
                       ++ Number_toString (VNum (Response_status pluginRes))))]),
     after w' [put_plugin env idText payload]
       [("GitHub API error (plugin.py):", errorText)])
  /\ (Z.abs (Response_status pluginRes) <= 2 ^ 53 ->
      Number_toString (VNum (Response_status pluginRes))
      = NilZero.string_of_int (Z.to_int (Response_status pluginRes))).
Proof.
  intros Hm Hv Ht Hp Hf Hok Htext. split; [|apply Number_toString_small].
  rewrite (handler_post _ _ _ Hm), (submit_valid _ _ _ _ _ Hv).
  destruct (valid_object _ _ _ Hv) as [props Hobj].
  assert (Hc : exists c, configContent (body req) pluginId = ok c)
    by (rewrite Hobj; eexists; reflexivity).
  destruct Hc as [c Hc]. destruct Hv as (_ & _ & Hs & _).
  rewrite (publish_to_plugin_put _ _ _ _ _ _ _ Ht Hs Hc Hp).
  rewrite (bind_fetch _ _ _ _ _ _ _ Hf). rewrite Hok. cbv [negb].
  step Htext. rewrite bind_console.
  step (template_status "上传 plugin.py 失败: " (Response_status pluginRes)).
  reflexivity.
Qed.

End Uploads.

(** ** The documents *)

Section Documents.
Context `{P : Platform}.

Lemma field_object props k :
  field (VObj props) k = match lookup k props with Some v => v | None => VUndefined end.
Proof. reflexivity. Qed.

Lemma lookup_is_json props k v :
  is_json (VObj props) = true -> lookup k props = Some v -> is_json v = true.
Proof.
  intros Hjson. destruct (is_json_object _ Hjson) as [_ Hvalues]. clear Hjson.
  induction Hvalues as [|[k' x] props Hx _ IH]; cbn [lookup]; [discriminate|].
  destruct (k =? k')%string; [intros [= <-]; exact Hx | exact IH].
Qed.

Lemma is_json_truthy_field props k :
  is_json (VObj props) = true -> truthy (field (VObj props) k) = true ->
  is_json (field (VObj props) k) = true.
Proof.
  intros Hjson. rewrite field_object. destruct (lookup k props) as [v|] eqn:E.
  - intros _. exact (lookup_is_json _ _ _ Hjson E).
  - discriminate.
Qed.

Lemma is_json_or_else props k fallback :
  is_json (VObj props) = true -> is_json fallback = true ->
  is_json (or_else (field (VObj props) k) fallback) = true.
Proof.
  intros Hjson Hf. unfold or_else.
  destruct (truthy (field (VObj props) k)) eqn:E; [|exact Hf].
  apply is_json_truthy_field; assumption.
Qed.

Lemma defaulted_or_else source fallback : defaulted source fallback (or_else source fallback).
Proof. unfold defaulted, or_else. split; intros ->; reflexivity. Qed.

Lemma present_field data k : present data k = true -> truthy (field data k) = true.
Proof. unfold present, field. destruct (get data k); [discriminate | trivial]. Qed.

Lemma valid_present data pluginId idText k :
  valid data pluginId idText -> In k required -> present data k = true.
Proof. intros (Hreq & _) Hin. rewrite forallb_forall in Hreq. auto. Qed.

(** The configuration document of a request whose body is an object. *)
Lemma configContent_object props pluginId :
  let data := VObj props in
  configContent data pluginId
  = ok (VObj
          [("id", pluginId);
           ("name", pluginId);
           ("cn_name", field data "cn_name");
           ("version", or_else (field data "version") (VStr "1.0.0"));
           ("author", field data "author");
           ("description", field data "description");
           ("full_description",
            or_else (field data "full_description") (field data "description"));
           ("category", or_else (field data "category") (VStr "工具"));
           ("keywords", VArr []);
           ("triggers", or_else (field data "commands") (VArr []));
           ("features", or_else (field data "features") (VArr []));
           ("usage", or_else (field data "usage") (VStr ""));
           ("commands", or_else (field data "commands") (VArr []));
           ("changelog", or_else (field data "changelog") (VStr "v1.0.0 - 初始版本"));
           ("notes", or_else (field data "notes") (VStr ""));
           ("featured", VBool false)]).
Proof. reflexivity. Qed.

Lemma valid_id_field data pluginId idText :
  valid data pluginId idText -> field data "id" = pluginId.
Proof. intros (_ & Hid & _). unfold field. rewrite Hid. reflexivity. Qed.


(** The message of a commit, a label and the name of the plugin, is a
    well-formed string. *)
Lemma well_formed_commit_message props pluginId idText label cn m :
  valid (VObj props) pluginId idText ->
  is_json (VObj props) = true ->
  ascii_text label = true ->
  get (VObj props) "cn_name" = ok cn ->
  template [VStr label; cn] = ok m ->
  well_formed m = true.
Proof.
  intros Hv Hjson Hl Hcn Hm. cbn [get] in Hcn. unfold ok in Hcn. injection Hcn as <-.
  rewrite <- field_object in Hm.
  assert (Hfield : is_json (field (VObj props) "cn_name") = true).
  { apply is_json_truthy_field; [exact Hjson|].
    apply present_field. apply (valid_present _ _ _ _ Hv). simpl; auto. }
  cbn [template to_string rbind] in Hm.
  destruct (to_string (field (VObj props) "cn_name")) as [e|t] eqn:Et; [discriminate|].
  cbn [rbind] in Hm. unfold ok in Hm. injection Hm as <-. rewrite append_empty.
  exact (well_formed_label _ _ _ Hl Hfield Et).
Qed.



(** C10: in the configuration document of a valid request,
    [full_description] is the submitted one or else [description], [usage]
    and [notes] are the submitted ones or else the empty string,
    [features] the submitted one or else the empty list, [commands] and
    [triggers] both the submitted [commands] or else the empty list, and
    [keywords] the empty list whatever was submitted. *)
Theorem optional_field_defaults data pluginId idText :
  valid data pluginId idText ->
  exists config,
    configContent data pluginId = ok config
    /\ defaulted (field data "full_description") (field data "description")
         (field config "full_description")
    /\ defaulted (field data "usage") (VStr "") (field config "usage")
    /\ defaulted (field data "notes") (VStr "") (field config "notes")
    /\ defaulted (field data "features") (VArr []) (field config "features")
    /\ defaulted (field data "commands") (VArr []) (field config "commands")
    /\ defaulted (field data "commands") (VArr []) (field config "triggers")
    /\ field config "triggers" = field config "commands"
    /\ field config "keywords" = VArr [].
Proof.
  intros Hv. destruct (valid_object _ _ _ Hv) as [props ->].
  eexists. split; [apply configContent_object|]. cbv zeta.
  repeat split; try reflexivity; apply defaulted_or_else.
Qed.

Lemma template_download_url env pluginId idText :
  to_string pluginId = ok idText ->
  template [VStr "https://raw.githubusercontent.com/"; GITHUB_REPO env;
            VStr "/main/plugins/"; pluginId]
  = ok ("https://raw.githubusercontent.com/" ++ repository env
          ++ "/main/plugins/" ++ idText).
Proof.
  intros H. rewrite repository_string. simpl. rewrite H. simpl.
  rewrite append_empty. reflexivity.
Qed.

Lemma lookup_replace k v props :
  has_key k props = true -> lookup k (replace k v props) = Some v.
Proof.
  induction props as [|[k' v'] props IH]; cbn [has_key replace]; [discriminate|].
  destruct (k =? k')%string eqn:E; cbn [lookup]; rewrite E; [reflexivity | exact IH].
Qed.

Lemma lookup_has_key k props v : lookup k props = Some v -> has_key k props = true.
Proof.
  induction props as [|[k' v'] props IH]; cbn [lookup has_key]; [discriminate|].
  destruct (k =? k')%string; [reflexivity | exact IH].
Qed.

Lemma lookup_replace_other k k' v props :
  (k =? k')%string = false -> lookup k (replace k' v props) = lookup k props.
Proof.
  intros Hne. induction props as [|[k2 v2] props IH]; [reflexivity|].
  cbn [replace]. destruct (k' =? k2)%string eqn:E; cbn [lookup].
  - apply String.eqb_eq in E. subst k2. rewrite Hne. reflexivity.
  - rewrite IH. reflexivity.
Qed.

Lemma lookup_app_other k k' v props :
  (k =? k')%string = false -> lookup k (props ++ [(k', v)]) = lookup k props.
Proof.
  intros Hne. induction props as [|[k2 v2] props IH]; cbn [List.app lookup].
  - rewrite Hne. reflexivity.
  - rewrite IH. reflexivity.
Qed.

Lemma lookup_insert_other n k k' v props :
  (k =? k')%string = false -> lookup k (insert_index n k' v props) = lookup k props.
Proof.
  intros Hne. induction props as [|[k2 v2] props IH]; cbn [insert_index lookup].
  - rewrite Hne. reflexivity.
  - destruct (array_index k2) as [m|]; [destruct (m <? n)%N|]; cbn [lookup];
      rewrite ?Hne, ?IH; reflexivity.
Qed.

Lemma lookup_define_other k k' v props :
  (k =? k')%string = false -> lookup k (define_property k' v props) = lookup k props.
Proof.
  intros Hne. unfold define_property. destruct (has_key k' props).
  - apply lookup_replace_other; exact Hne.
  - destruct (array_index k'); [apply lookup_insert_other | apply lookup_app_other]; exact Hne.
Qed.

Lemma plugins_of_array pluginsData callee plugins :
  plugins_of pluginsData callee = ok plugins ->
  exists props, pluginsData = VObj props /\ lookup "plugins" props = Some (VArr plugins).
Proof.
  unfold plugins_of. destruct pluginsData; try discriminate. cbn [get rbind].
  destruct (lookup "plugins" props) as [[| | | | | |l|]|] eqn:E; try discriminate.
  intros [= <-]. eauto.
Qed.

(** C9: the entry added to the index has, under each of the sixteen names
    of the configuration document, the value the configuration document
    has, and besides [downloads: 0], [rating: 5] and the [download_url] of
    the plugin in the repository; [push] puts it last in [plugins]. *)
Theorem index_entry_agrees env data pluginId idText :
  valid data pluginId idText ->
  exists config entry,
    configContent data pluginId = ok config
    /\ newPlugin data pluginId (GITHUB_REPO env) = ok entry
    /\ (forall name, In name config_fields -> field entry name = field config name)
    /\ field entry "downloads" = VNum 0
    /\ field entry "rating" = VNum 5
    /\ field entry "download_url"
       = VStr ("https://raw.githubusercontent.com/" ++ repository env
                 ++ "/main/plugins/" ++ idText)
    /\ (forall pluginsData plugins today,
          plugins_of pluginsData "push" = ok plugins ->
          exists updated,
            add_plugin pluginsData entry today = ok updated
            /\ plugins_of updated "map" = ok (plugins ++ [entry])%list).
Proof.
  intros Hv. destruct (valid_object _ _ _ Hv) as [props ->].
  destruct Hv as (_ & _ & Hs & _).
  eexists _, _. split; [apply configContent_object|]. split.
  { unfold newPlugin. cbn [get rbind]. rewrite (template_download_url _ _ _ Hs).
    reflexivity. }
  split.
  { intros name Hin. cbv zeta. repeat (destruct Hin as [<-|Hin]; [reflexivity|]).
    destruct Hin. }
  repeat (split; [reflexivity|]).
  intros pluginsData plugins today Hp.
  destruct (plugins_of_array _ _ _ Hp) as (iprops & -> & Hl).
  unfold add_plugin. rewrite Hp. cbn [rbind assign]. eexists. split; [reflexivity|].
  unfold plugins_of. cbn [get rbind].
  rewrite lookup_define_other by reflexivity.
  rewrite lookup_replace by (exact (lookup_has_key _ _ _ Hl)). reflexivity.
Qed.

End Documents.

(** ** The index *)

Section Index.
Context `{P : Platform}.

Lemma publish_uploaded env data pluginId idText w w' pluginData' configData' :
  truthy (GITHUB_TOKEN env) = true ->
  to_string pluginId = ok idText ->
  uploaded env data pluginId idText w w' pluginData' configData' ->
  publish env data pluginId (after w [] [])
  = update_index env data pluginId (api_headers env)
      (after w' [put_plugin env idText pluginData'; put_config env idText configData'] []).
Proof.
  intros Ht Hs (c & r1 & r2 & w1 & Hc & Hp & Hd & Hf1 & Hok1 & Hf2 & Hok2).
  rewrite (publish_to_plugin_put _ _ _ _ _ _ _ Ht Hs Hc Hp).
  rewrite (bind_fetch _ _ _ _ _ _ _ Hf1). rewrite Hok1. cbv [negb].
  step (template_path _ _ "/config.json" Hs).
  step (contents_url_repository env ("plugins/" ++ idText ++ "/config.json")).
  step Hd. fold (put_config env idText configData').
  rewrite (bind_fetch _ _ _ _ _ _ _ Hf2). rewrite Hok2. reflexivity.
Qed.

(** The canonical form of a number is a number. *)
Lemma Number_of_ratio_number negative a b :
  (exists n, Number_of_ratio negative a b = VNum n)
  \/ (exists x, Number_of_ratio negative a b = VDbl x).
Proof.
  unfold Number_of_ratio. destruct (nearest a b) as [[m e]|]; [|right; eauto].
  destruct (small_integer m e); [left | right]; eauto.
Qed.

Lemma Number_canon_cases v :
  Number_canon v = v
  \/ (exists n, Number_canon v = VNum n)
  \/ (exists x, Number_canon v = VDbl x).
Proof.
  destruct v as [| |b|n|[negative m e|negative]|s|elems|props]; try (left; reflexivity);
    right; cbn [Number_canon].
  - unfold Number_of_Z. destruct (Z.abs n <=? 2 ^ 53); [left; eauto|].
    apply Number_of_ratio_number.
  - destruct (scaled (Z.pos m) 1 (- e)) as [a b]. apply Number_of_ratio_number.
Qed.

Lemma same_primitive_refl v : is_primitive v = true -> same_primitive v v = true.
Proof.
  destruct v as [| |b|n|[negative m e|negative]|s|elems|props]; cbn [same_primitive];
    try discriminate; intros _; auto.
  - destruct b; reflexivity.
  - apply Z.eqb_refl.
  - rewrite Bool.eqb_reflx, Pos.eqb_refl, Z.eqb_refl. reflexivity.
  - apply Bool.eqb_reflx.
  - apply String.eqb_refl.
Qed.

Lemma same_value_zero_refl v : is_primitive v = true -> same_value_zero v v = true.
Proof.
  intros Hp. unfold same_value_zero. apply same_primitive_refl.
  destruct (Number_canon_cases v) as [->|[[n ->]|[x ->]]]; [exact Hp | reflexivity..].
Qed.

(** A string, number, boolean or [null] that is among the ids is found by
    [includes]. *)
Lemma includes_In ids v : is_primitive v = true -> In v ids -> includes ids v = true.
Proof.
  intros Hp Hin. unfold includes. apply existsb_exists. exists v. split; [exact Hin|].
  apply same_value_zero_refl; exact Hp.
Qed.

(** The last part up to the duplicate check. *)
Lemma update_index_to_check env data pluginId w sent pluginsRes w' pluginsData sha ids :
  fetch (get_index env) w = (inr pluginsRes, w') ->
  read_index pluginsRes = ok (pluginsData, sha) ->
  existingIds pluginsData = ok ids ->
  update_index env data pluginId (api_headers env) (after w sent [])
  = (if includes ids pluginId then res_json 400 (failure "该插件ID已存在")
     else
       (newPlugin <- lift (newPlugin data pluginId (GITHUB_REPO env)) ;;
        date <- now ;;
        pluginsData <- lift (add_plugin pluginsData newPlugin (before_T date)) ;;
        updateData <- lift (updateData data pluginsData sha) ;;
        await_fetch (put_index env updateData) ;;
        cn_name <- lift (get data "cn_name") ;;
        message <- lift (template [VStr "插件 "; cn_name; VStr " 提交成功！"]) ;;
        res_json 200 (VObj [("success", VBool true); ("message", VStr message)]))%M)
      (after w' (sent ++ [get_index env]) []).
Proof.
  intros Hf Hr He. unfold update_index. cbv zeta.
  step (contents_url_repository env "plugins.json").
  fold (get_index env). rewrite (bind_fetch _ _ _ _ _ _ _ Hf).
  step Hr. step He. reflexivity.
Qed.

(** C6 (as amended): when the [id] of a valid request is a string (or
    another primitive value) and is among the ids of the entries of the
    fetched index, the reply is 400 with [success: false] and the
    duplicate-id error.  By then the calls made are the writes of
    [plugin.py] and [config.json] and the read of the index, in this
    order: the index is not written. *)
Theorem duplicate_id_rejected env req w pluginId idText pluginData' configData'
    w2 pluginsRes w3 pluginsData sha ids :
  method req = "POST" ->
  valid (body req) pluginId idText ->
  truthy (GITHUB_TOKEN env) = true ->
  uploaded env (body req) pluginId idText w w2 pluginData' configData' ->
  fetch (get_index env) w2 = (inr pluginsRes, w3) ->
  read_index pluginsRes = ok (pluginsData, sha) ->
  existingIds pluginsData = ok ids ->
  is_primitive pluginId = true ->
  In pluginId ids ->
  handler env req w
  = (answer 400 (VObj [("success", VBool false); ("error", VStr "该插件ID已存在")]),
     after w3 [put_plugin env idText pluginData';
               put_config env idText configData';
               get_index env] []).
Proof.
  intros Hm Hv Ht Hu Hf Hr He Hp Hin.
  rewrite (handler_post _ _ _ Hm), (submit_valid _ _ _ _ _ Hv).
  destruct Hv as (_ & _ & Hs & _).
  rewrite (publish_uploaded _ _ _ _ _ _ _ _ Ht Hs Hu).
  rewrite (update_index_to_check _ _ _ _ _ _ _ _ _ _ Hf Hr He).
  rewrite (includes_In _ _ Hp Hin). reflexivity.
Qed.

Lemma template_message cn_name cnText :
  to_string cn_name = ok cnText ->
  template [VStr "插件 "; cn_name; VStr " 提交成功！"] = ok ("插件 " ++ cnText ++ " 提交成功！").
Proof.
  intros H. simpl. rewrite H. reflexivity.
Qed.

(** The run of a valid request up to the last call of [fetch]. *)
Lemma handler_to_index_put env req w pluginId idText pluginData' configData'
    w2 pluginsRes w3 pluginsData sha ids entry pluginsData' payload :
  method req = "POST" ->
  valid (body req) pluginId idText ->
  truthy (GITHUB_TOKEN env) = true ->
  uploaded env (body req) pluginId idText w w2 pluginData' configData' ->
  fetch (get_index env) w2 = (inr pluginsRes, w3) ->
  read_index pluginsRes = ok (pluginsData, sha) ->
  existingIds pluginsData = ok ids ->
  includes ids pluginId = false ->
  newPlugin (body req) pluginId (GITHUB_REPO env) = ok entry ->
  add_plugin pluginsData entry (before_T (Date_toISOString w3)) = ok pluginsData' ->
  updateData (body req) pluginsData' sha = ok payload ->
  handler env req w
  = try_catch
      (bind (await_fetch (put_index env payload))
         (fun _ =>
            (cn_name <- lift (get (body req) "cn_name") ;;
             message <- lift (template [VStr "插件 "; cn_name; VStr " 提交成功！"]) ;;
             res_json 200 (VObj [("success", VBool true); ("message", VStr message)]))%M)
         (after w3 [put_plugin env idText pluginData';
                    put_config env idText configData';
                    get_index env] [])).
Proof.
  intros Hm Hv Ht Hu Hf Hr He Hinc Hn Ha Hd.
  rewrite (handler_post _ _ _ Hm), (submit_valid _ _ _ _ _ Hv).
  destruct Hv as (_ & _ & Hs & _).
  rewrite (publish_uploaded _ _ _ _ _ _ _ _ Ht Hs Hu).
  rewrite (update_index_to_check _ _ _ _ _ _ _ _ _ _ Hf Hr He).
  rewrite Hinc. step Hn. rewrite bind_now. step Ha. step Hd. reflexivity.
Qed.

(** Once the two files are written and the index is read, nothing on the
    way to the last call of [fetch] can fail. *)
Lemma pluginData_cn_name data payload :
  pluginData data = ok payload ->
  exists cn_name cnText, get data "cn_name" = ok cn_name /\ to_string cn_name = ok cnText.
Proof.
  unfold pluginData. destruct (get data "cn_name") as [e|cn]; [discriminate|].
  cbn [rbind template to_string ok]. destruct (to_string cn) as [e|text] eqn:E;
    [discriminate|].
  intros _. exists cn, text. split; [reflexivity | exact E].
Qed.

Lemma existingIds_plugins pluginsData ids callee :
  existingIds pluginsData = ok ids ->
  exists plugins, plugins_of pluginsData callee = ok plugins.
Proof.
  unfold existingIds. destruct (plugins_of pluginsData "map") as [e|l] eqn:E; [discriminate|].
  intros _. destruct (plugins_of_array _ _ _ E) as (props & -> & Hl).
  exists l. unfold plugins_of. cbn [get rbind]. rewrite Hl. reflexivity.
Qed.

Lemma add_plugin_object pluginsData ids entry today :
  existingIds pluginsData = ok ids ->
  exists props, add_plugin pluginsData entry today = ok (VObj props).
Proof.
  intros He. destruct (existingIds_plugins _ _ "push" He) as [l Hl].
  destruct (plugins_of_array _ _ _ Hl) as (props & -> & _).
  unfold add_plugin. rewrite Hl. cbn [rbind assign]. eexists. reflexivity.
Qed.

Lemma updateData_object data props sha cn_name cnText :
  get data "cn_name" = ok cn_name ->
  to_string cn_name = ok cnText ->
  exists payload, updateData data (VObj props) sha = ok payload.
Proof.
  intros Hcn Hs. unfold updateData. rewrite Hcn. cbn [rbind template to_string ok].
  rewrite Hs. cbn [rbind]. eexists. reflexivity.
Qed.

Lemma newPlugin_object env props pluginId idText :
  to_string pluginId = ok idText ->
  exists entry, newPlugin (VObj props) pluginId (GITHUB_REPO env) = ok entry.
Proof.
  intros Hs. unfold newPlugin. cbn [get rbind].
  rewrite (template_download_url _ _ _ Hs). eexists. reflexivity.
Qed.

(** C7: a valid request that passes the duplicate check, its two files
    written, reaches the last call of [fetch], the write of the index, and
    is answered 200 with [success: true] and the message built from
    [cn_name], whatever the response to that call: its status is not
    looked at. *)
Theorem success_whatever_index_response env req w pluginId idText pluginData' configData'
    w2 pluginsRes w3 pluginsData sha ids :
  method req = "POST" ->
  valid (body req) pluginId idText ->
  truthy (GITHUB_TOKEN env) = true ->
  uploaded env (body req) pluginId idText w w2 pluginData' configData' ->
  fetch (get_index env) w2 = (inr pluginsRes, w3) ->
  read_index pluginsRes = ok (pluginsData, sha) ->
  existingIds pluginsData = ok ids ->
  includes ids pluginId = false ->
  exists updateData' cn_name cnText,
    get (body req) "cn_name" = ok cn_name
    /\ to_string cn_name = ok cnText
    /\ forall indexRes w4,
         fetch (put_index env updateData') w3 = (inr indexRes, w4) ->
         handler env req w
         = (answer 200 (VObj [("success", VBool true);
                              ("message", VStr ("插件 " ++ cnText ++ " 提交成功！"))]),
            after w4 [put_plugin env idText pluginData';
                      put_config env idText configData';
                      get_index env;
                      put_index env updateData'] []).
Proof.
  intros Hm Hv Ht Hu Hf Hr He Hinc.
  destruct (valid_object _ _ _ Hv) as [props Hobj].
  assert (Hs : to_string pluginId = ok idText) by apply Hv.
  assert (Hp : pluginData (body req) = ok pluginData')
    by (destruct Hu as (? & ? & ? & ? & _ & Hp & _); exact Hp).
  destruct (pluginData_cn_name _ _ Hp) as (cn & cnText & Hcn & Hcs).
  destruct (newPlugin_object env props _ _ Hs) as [entry Hn]. rewrite <- Hobj in Hn.
  destruct (add_plugin_object _ _ entry (before_T (Date_toISOString w3)) He)
    as [iprops Ha].
  destruct (updateData_object _ iprops sha _ _ Hcn Hcs) as [payload Hd].
  exists payload, cn, cnText. split; [exact Hcn|]. split; [exact Hcs|].
  intros indexRes w4 Hf4.
  rewrite (handler_to_index_put _ _ _ _ _ _ _ _ _ _ _ _ _ _ _ _
             Hm Hv Ht Hu Hf Hr He Hinc Hn Ha Hd).
  rewrite (bind_fetch _ _ _ _ _ _ _ Hf4).
  step Hcn. step (template_message _ _ Hcs). reflexivity.
Qed.

(** X16: when the last call of [fetch], the write of the index, is
    rejected (no response at all), the rejection is caught and answered
    500 with its message, after the two files were written. *)
Lemma index_write_rejected env req w pluginId idText pluginData' configData'
    w2 pluginsRes w3 pluginsData sha ids entry pluginsData' payload e w4 :
  method req = "POST" ->
  valid (body req) pluginId idText ->
  truthy (GITHUB_TOKEN env) = true ->
  uploaded env (body req) pluginId idText w w2 pluginData' configData' ->
  fetch (get_index env) w2 = (inr pluginsRes, w3) ->
  read_index pluginsRes = ok (pluginsData, sha) ->
  existingIds pluginsData = ok ids ->
  includes ids pluginId = false ->
  newPlugin (body req) pluginId (GITHUB_REPO env) = ok entry ->
  add_plugin pluginsData entry (before_T (Date_toISOString w3)) = ok pluginsData' ->
  updateData (body req) pluginsData' sha = ok payload ->
  fetch (put_index env payload) w3 = (inl e, w4) ->
  handler env req w
  = (answer 500 (VObj [("success", VBool false); ("error", VStr (message e))]),
     after w4 [put_plugin env idText pluginData';
               put_config env idText configData';
               get_index env;
               put_index env payload] [("Submit error:", message e)]).
Proof.
  intros Hm Hv Ht Hu Hf Hr He Hinc Hn Ha Hd Hf4.
  rewrite (handler_to_index_put _ _ _ _ _ _ _ _ _ _ _ _ _ _ _ _
             Hm Hv Ht Hu Hf Hr He Hinc Hn Ha Hd).
  rewrite (bind_fetch_rejected _ _ _ _ _ _ _ Hf4). reflexivity.
Qed.

End Index.

(** ** Failures on the way *)

Section Failures.
Context `{P : Platform}.

Lemma valid_configContent data pluginId idText :
  valid data pluginId idText -> exists c, configContent data pluginId = ok c.
Proof.
  intros Hv. destruct (valid_object _ _ _ Hv) as [props ->]. eexists; reflexivity.
Qed.

(** The [try] block of a valid request with a token, up to the call that
    writes [config.json]. *)
Lemma publish_to_config_put env data pluginId idText c p1 p2 w r1 w1 :
  truthy (GITHUB_TOKEN env) = true ->
  to_string pluginId = ok idText ->
  configContent data pluginId = ok c ->
  pluginData data = ok p1 ->
  configData data c = ok p2 ->
  fetch (put_plugin env idText p1) w = (inr r1, w1) ->
  Response_ok r1 = true ->
  publish env data pluginId (after w [] [])
  = bind (await_fetch (put_config env idText p2))
      (fun configRes =>
         if negb (Response_ok configRes) then
           (errorText <- lift (Response_text configRes) ;;
            console_error "GitHub API error (config.json):" errorText ;;
            error <- lift (template [VStr "上传 config.json 失败: ";
                                     VNum (Response_status configRes)]) ;;
            res_json 500 (failure error))%M
         else update_index env data pluginId (api_headers env))
      (after w1 [put_plugin env idText p1] []).
Proof.
  intros Ht Hs Hc Hp Hd Hf Hok.
  rewrite (publish_to_plugin_put _ _ _ _ _ _ _ Ht Hs Hc Hp).
  rewrite (bind_fetch _ _ _ _ _ _ _ Hf). rewrite Hok. cbv [negb].
  step (template_path _ _ "/config.json" Hs).
  step (contents_url_repository env ("plugins/" ++ idText ++ "/config.json")).
  step Hd. reflexivity.
Qed.

(** X1: a request whose method is not POST is answered 405 with the error
    [Method not allowed]; no header is set, nothing is read from the
    body, no call of [fetch] is made and nothing is logged. *)
Theorem method_gate env req w :
  method req <> "POST" ->
  handler env req w
  = ({| status := 405; headers := []; json := failure "Method not allowed" |},
     start w).
Proof.
  intros H. apply method_not_allowed. apply String.eqb_neq. exact H.
Qed.

(** X8: when [plugin.py] is written and the call that writes
    [plugins/<id>/config.json] is answered with a status outside 200..299
    and a body that can be read, the reply is 500 with an error that ends
    in that status, and the body is logged.  The two writes are the only
    calls: the index is not read, and [plugin.py] is not taken back. *)
Theorem config_upload_failure env req w pluginId idText c p1 p2 r1 w1 r2 w2 errorText :
  method req = "POST" ->
  valid (body req) pluginId idText ->
  truthy (GITHUB_TOKEN env) = true ->
  configContent (body req) pluginId = ok c ->
  pluginData (body req) = ok p1 ->
  configData (body req) c = ok p2 ->
  fetch (put_plugin env idText p1) w = (inr r1, w1) ->
  Response_ok r1 = true ->
  fetch (put_config env idText p2) w1 = (inr r2, w2) ->
  Response_ok r2 = false ->
  Response_text r2 = ok errorText ->
  handler env req w
  = (answer 500
       (VObj [("success", VBool false);
              ("error",
               VStr ("上传 config.json 失败: "
                       ++ Number_toString (VNum (Response_status r2))))]),
     after w2 [put_plugin env idText p1; put_config env idText p2]
       [("GitHub API error (config.json):", errorText)])
  /\ (Z.abs (Response_status r2) <= 2 ^ 53 ->
      Number_toString (VNum (Response_status r2))
      = NilZero.string_of_int (Z.to_int (Response_status r2))).
Proof.
  intros Hm Hv Ht Hc Hp Hd Hf1 Hok1 Hf2 Hok2 Htext.
  split; [|apply Number_toString_small].
  rewrite (handler_post _ _ _ Hm), (submit_valid _ _ _ _ _ Hv).
  destruct Hv as (_ & _ & Hs & _).
  rewrite (publish_to_config_put _ _ _ _ _ _ _ _ _ _ Ht Hs Hc Hp Hd Hf1 Hok1).
  rewrite (bind_fetch _ _ _ _ _ _ _ Hf2). rewrite Hok2. cbv [negb].
  step Htext. rewrite bind_console.
  step (template_status "上传 config.json 失败: " (Response_status r2)).
  reflexivity.
Qed.

(** X7: when the call that writes [plugin.py] is rejected (no response),
    the [catch] block answers 500 with the message of the rejection and
    logs it; no other call is made. *)
Theorem plugin_upload_rejected env req w pluginId idText p1 e w1 :
  method req = "POST" ->
  valid (body req) pluginId idText ->
  truthy (GITHUB_TOKEN env) = true ->
  pluginData (body req) = ok p1 ->
  fetch (put_plugin env idText p1) w = (inl e, w1) ->
  handler env req w
  = (answer 500 (failure (message e)),
     after w1 [put_plugin env idText p1] [("Submit error:", message e)]).
Proof.
  intros Hm Hv Ht Hp Hf.
  rewrite (handler_post _ _ _ Hm), (submit_valid _ _ _ _ _ Hv).
  destruct (valid_configContent _ _ _ Hv) as [c Hc].
  destruct Hv as (_ & _ & Hs & _).
  rewrite (publish_to_plugin_put _ _ _ _ _ _ _ Ht Hs Hc Hp).
  rewrite (bind_fetch_rejected _ _ _ _ _ _ _ Hf). reflexivity.
Qed.

(** X5: when the payload for [plugin.py] cannot be built (a [cn_name]
    with no string form, a [code] that [Buffer.from] refuses), the error
    is caught and answered 500 with its message, before any call of
    [fetch]. *)
Theorem payload_error_caught env req w pluginId idText e :
  method req = "POST" ->
  valid (body req) pluginId idText ->
  truthy (GITHUB_TOKEN env) = true ->
  pluginData (body req) = throw e ->
  handler env req w
  = (answer 500 (VObj [("success", VBool false); ("error", VStr (message e))]),
     after w [] [("Submit error:", message e)]).
Proof.
  intros Hm Hv Ht Hp.
  rewrite (handler_post _ _ _ Hm), (submit_valid _ _ _ _ _ Hv).
  destruct (valid_configContent _ _ _ Hv) as [c Hc].
  destruct Hv as (_ & _ & Hs & _).
  unfold publish. cbv zeta. rewrite Ht. cbv [negb].
  step Hc. step (headers_for_token _ Ht). step (template_path _ _ "/plugin.py" Hs).
  step (contents_url_repository env ("plugins/" ++ idText ++ "/plugin.py")).
  rewrite Hp. reflexivity.
Qed.

(** X10: when the index is fetched with success but cannot be read (the
    body breaks off or is not JSON, it has no [content], or the content
    decoded is not JSON), the error is caught and answered 500 with a
    message, which is logged; by then the two files are written, and the
    index is not.  The message is that of the error; for a [SyntaxError]
    it is the text of the engine, which is left open here. *)
Theorem index_unreadable env req w pluginId idText p1 p2 w2 pluginsRes w3 e :
  method req = "POST" ->
  valid (body req) pluginId idText ->
  truthy (GITHUB_TOKEN env) = true ->
  uploaded env (body req) pluginId idText w w2 p1 p2 ->
  fetch (get_index env) w2 = (inr pluginsRes, w3) ->
  read_index pluginsRes = throw e ->
  exists text,
    handler env req w
    = (answer 500 (VObj [("success", VBool false); ("error", VStr text)]),
       after w3 [put_plugin env idText p1; put_config env idText p2; get_index env]
         [("Submit error:", text)])
    /\ (forall msg, e <> SyntaxError msg -> text = message e).
Proof.
  intros Hm Hv Ht Hu Hf Hr. exists (message e). split; [|reflexivity].
  rewrite (handler_post _ _ _ Hm), (submit_valid _ _ _ _ _ Hv).
  destruct Hv as (_ & _ & Hs & _).
  rewrite (publish_uploaded _ _ _ _ _ _ _ _ Ht Hs Hu).
  unfold update_index. cbv zeta.
  step (contents_url_repository env "plugins.json").
  fold (get_index env). rewrite (bind_fetch _ _ _ _ _ _ _ Hf).
  rewrite Hr. reflexivity.
Qed.

(** X11: when the index read holds no array under [plugins], the call of
    [map] at line 126 throws; the error is caught and answered 500 after
    the two files are written, and the index is not written. *)
Theorem index_without_plugins env req w pluginId idText p1 p2 w2 pluginsRes w3
    pluginsData sha e :
  method req = "POST" ->
  valid (body req) pluginId idText ->
  truthy (GITHUB_TOKEN env) = true ->
  uploaded env (body req) pluginId idText w w2 p1 p2 ->
  fetch (get_index env) w2 = (inr pluginsRes, w3) ->
  read_index pluginsRes = ok (pluginsData, sha) ->
  existingIds pluginsData = throw e ->
  handler env req w
  = (answer 500 (VObj [("success", VBool false); ("error", VStr (message e))]),
     after w3 [put_plugin env idText p1; put_config env idText p2; get_index env]
       [("Submit error:", message e)]).
Proof.
  intros Hm Hv Ht Hu Hf Hr He.
  rewrite (handler_post _ _ _ Hm), (submit_valid _ _ _ _ _ Hv).
  destruct Hv as (_ & _ & Hs & _).
  rewrite (publish_uploaded _ _ _ _ _ _ _ _ Ht Hs Hu).
  unfold update_index. cbv zeta.
  step (contents_url_repository env "plugins.json").
  fold (get_index env). rewrite (bind_fetch _ _ _ _ _ _ _ Hf).
  step Hr. rewrite He. reflexivity.
Qed.

End Failures.

(** ** Properties created in order *)

Section Canonical.

(** The digits of an array index are in normal form. *)
Lemma array_index_digits k n :
  array_index k = Some n ->
  exists u, NilEmpty.uint_of_string k = Some u /\ unorm u = u /\ N.of_uint u = n.
Proof.
  unfold array_index. destruct k as [|d more]; [discriminate|].
  destruct ((d =? "0")%char && negb (more =? "")%string) eqn:Hz; [discriminate|].
  destruct (NilEmpty.uint_of_string (String d more)) as [u|] eqn:Hu; [|discriminate].
  destruct (N.of_uint u <? 4294967295)%N; [|discriminate].
  intros [= <-]. exists u. split; [reflexivity|]. split; [|reflexivity].
  cbn [NilEmpty.uint_of_string] in Hu.
  destruct (NilEmpty.uint_of_string more) as [u'|] eqn:Hmore; [|discriminate].
  destruct (d =? "0")%char eqn:Hd.
  - apply Ascii.eqb_eq in Hd. subst d. cbn [andb] in Hz.
    apply negb_false_iff, String.eqb_eq in Hz. subst more.
    cbn in Hmore. injection Hmore as <-. cbn in Hu. injection Hu as <-. reflexivity.
  - apply Ascii.eqb_neq in Hd.
    destruct d as [[] [] [] [] [] [] [] []]; cbn in Hu; try discriminate;
      injection Hu as <-; try reflexivity. congruence.
Qed.

Lemma array_index_inj k k' n :
  array_index k = Some n -> array_index k' = Some n -> k = k'.
Proof.
  intros H H'.
  destruct (array_index_digits _ _ H) as (u & Hu & Hn & Hv).
  destruct (array_index_digits _ _ H') as (u' & Hu' & Hn' & Hv').
  assert (E : u = u').
  { rewrite <- Hn, <- Hn'. apply DecimalN.Unsigned.of_iff. congruence. }
  subst u'. apply NilEmpty.sus in Hu, Hu'. congruence.
Qed.

End Canonical.

Section Created.

Lemma is_json_object_intro props :
  keys_ordered (map fst props) = true ->
  Forall (fun p => is_json (snd p) = true) props ->
  is_json (VObj props) = true.
Proof.
  intros Hk Hv. cbn [is_json]. rewrite Hk. cbn [andb].
  induction Hv as [|[k x] props Hx _ IH]; [reflexivity|].
  cbn [snd] in Hx. rewrite Hx. cbn [andb]. apply IH.
  cbn [map fst keys_ordered] in Hk. apply andb_true_iff in Hk. apply Hk.
Qed.

Lemma has_key_In k props : has_key k props = false -> ~ In k (map fst props).
Proof.
  induction props as [|[k' v'] props IH]; cbn [has_key map fst In]; [tauto|].
  intros H. apply orb_false_iff in H as [Hk Hrest]. apply String.eqb_neq in Hk.
  intros [E|Hin]; [congruence | exact (IH Hrest Hin)].
Qed.

Lemma map_fst_replace k v props : map fst (replace k v props) = map fst props.
Proof.
  induction props as [|[k' v'] props IH]; [reflexivity|]. cbn [replace].
  destruct (k =? k')%string; cbn [map fst]; [reflexivity | rewrite IH; reflexivity].
Qed.

Lemma values_replace (Q : value -> Prop) k v props :
  Q v -> Forall (fun p => Q (snd p)) props ->
  Forall (fun p => Q (snd p)) (replace k v props).
Proof.
  intros Hv H. induction H as [|[k' v'] props Hx Hrest IH]; [constructor|].
  cbn [replace]. destruct (k =? k')%string; constructor; assumption.
Qed.

Lemma values_insert_index (Q : value -> Prop) n k v props :
  Q v -> Forall (fun p => Q (snd p)) props ->
  Forall (fun p => Q (snd p)) (insert_index n k v props).
Proof.
  intros Hv H. induction H as [|[k' v'] props Hx Hrest IH]; [repeat constructor; exact Hv|].
  cbn [insert_index]. destruct (array_index k') as [m|];
    [destruct (m <? n)%N|]; repeat (constructor; try assumption).
Qed.

Lemma forallb_insert_index (p : string -> bool) n k v props :
  forallb p (map fst (insert_index n k v props))
  = p k && forallb p (map fst props).
Proof.
  induction props as [|[k' v'] props IH]; [reflexivity|].
  cbn [insert_index]. destruct (array_index k') as [m|];
    [destruct (m <? n)%N|]; cbn [map fst forallb]; try reflexivity.
  rewrite IH. destruct (p k), (p k'); reflexivity.
Qed.

(** A new index key goes to its place among the index keys. *)
Lemma keys_ordered_insert_index n k v props :
  well_formed k = true ->
  array_index k = Some n ->
  has_key k props = false ->
  keys_ordered (map fst props) = true ->
  keys_ordered (map fst (insert_index n k v props)) = true.
Proof.
  intros Hk Hn. induction props as [|[k' v'] props IH];
    [intros _ _; cbn [insert_index map fst keys_ordered forallb]; rewrite Hk; reflexivity|].
  cbn [has_key map fst keys_ordered]. intros Hfresh Hord.
  apply orb_false_iff in Hfresh as [Hne Hfresh].
  apply andb_true_iff in Hord as [Hhead Hord].
  apply andb_true_iff in Hhead as [Hk' Hhead].
  assert (Hstop :
    key_before k k' = true ->
    keys_ordered (k :: k' :: map fst props) = true).
  { intros Hb. cbn [keys_ordered forallb]. rewrite Hk, Hk', Hne, Hb, Hhead, Hord.
    cbn [negb andb]. rewrite andb_true_r.
    apply forallb_forall. intros x Hx.
    rewrite forallb_forall in Hhead. specialize (Hhead x Hx).
    apply andb_true_iff in Hhead as [_ Hkx].
    apply andb_true_iff. split.
    - apply negb_true_iff, String.eqb_neq. intros <-.
      exact (has_key_In _ _ Hfresh Hx).
    - unfold key_before in *. rewrite Hn in *.
      destruct (array_index k') as [m|], (array_index x) as [m'|];
        try reflexivity; try discriminate.
      apply N.ltb_lt in Hb, Hkx. apply N.ltb_lt. lia. }
  cbn [insert_index]. destruct (array_index k') as [m|] eqn:Hm.
  - destruct (m <? n)%N eqn:Hlt.
    + cbn [map fst keys_ordered]. rewrite forallb_insert_index, Hk', Hhead, (IH Hfresh Hord).
      rewrite String.eqb_sym, Hne. unfold key_before. rewrite Hm, Hn, Hlt. reflexivity.
    + apply Hstop. unfold key_before. rewrite Hn, Hm. apply N.ltb_lt.
      apply N.ltb_ge in Hlt. apply String.eqb_neq in Hne.
      assert (m <> n) by (intros ->; exact (Hne (array_index_inj _ _ _ Hn Hm))). lia.
  - apply Hstop. unfold key_before. rewrite Hn, Hm. reflexivity.
Qed.

Lemma keys_ordered_app_last ks k :
  well_formed k = true ->
  keys_ordered ks = true ->
  forallb (fun a => negb (a =? k)%string && key_before a k) ks = true ->
  keys_ordered (ks ++ [k]) = true.
Proof.
  intros Hwf. induction ks as [|a ks IH];
    [intros _ _; cbn [List.app keys_ordered forallb]; rewrite Hwf; reflexivity|].
  cbn [List.app keys_ordered forallb]. intros Hord Hk.
  apply andb_true_iff in Hord as [Ha Hord]. apply andb_true_iff in Ha as [Hwa Ha].
  apply andb_true_iff in Hk as [Hak Hk].
  rewrite Hwa, forallb_app, Ha, (IH Hord Hk). cbn [forallb]. rewrite Hak. reflexivity.
Qed.

(** CreateDataProperty keeps the properties in enumeration order. *)
Lemma keys_ordered_define_property k v props :
  well_formed k = true ->
  keys_ordered (map fst props) = true ->
  keys_ordered (map fst (define_property k v props)) = true.
Proof.
  intros Hwf Hord. unfold define_property. destruct (has_key k props) eqn:Hfresh.
  - rewrite map_fst_replace. exact Hord.
  - destruct (array_index k) as [n|] eqn:Hn.
    + apply keys_ordered_insert_index; assumption.
    + rewrite map_app. cbn [map fst].
      apply keys_ordered_app_last; [exact Hwf | exact Hord |].
      apply forallb_forall. intros a Ha. apply andb_true_iff. split.
      * apply negb_true_iff, String.eqb_neq. intros ->.
        exact (has_key_In _ _ Hfresh Ha).
      * unfold key_before. rewrite Hn. destruct (array_index a); reflexivity.
Qed.

Lemma values_define_property (Q : value -> Prop) k v props :
  Q v -> Forall (fun p => Q (snd p)) props ->
  Forall (fun p => Q (snd p)) (define_property k v props).
Proof.
  intros Hv H. unfold define_property. destruct (has_key k props).
  - apply values_replace; assumption.
  - destruct (array_index k).
    + apply values_insert_index; assumption.
    + apply Forall_app. split; [exact H | repeat constructor; exact Hv].
Qed.

End Created.

(** ** The written documents *)

Section Written.
Context `{P : Platform}.

Lemma identifier_char c :
  is_lower c || is_digit c || (c =? "_")%char = true -> lead_of c = Single.
Proof. destruct c as [[] [] [] [] [] [] [] []]; intros H; try reflexivity; discriminate. Qed.

Lemma ascii_identifier s : id_pattern s = true -> ascii_text s = true.
Proof.
  destruct s as [|c s]; [discriminate|]. cbn [id_pattern]. intros H.
  apply andb_true_iff in H as [Hc Hs]. unfold ascii_text.
  cbn [list_ascii_of_string forallb].
  rewrite (identifier_char c) by (rewrite Hc; reflexivity). cbn [andb].
  induction s as [|d s IH]; [reflexivity|]. cbn [all_chars] in Hs.
  apply andb_true_iff in Hs as [Hd Hs]. cbn [list_ascii_of_string forallb].
  rewrite (identifier_char d Hd). exact (IH Hs).
Qed.

(** The address of the new plugin is a well-formed string when the name
    of the repository is one. *)
Lemma well_formed_download_url env idText :
  well_formed (repository env) = true ->
  id_pattern idText = true ->
  well_formed ("https://raw.githubusercontent.com/" ++ repository env
                 ++ "/main/plugins/" ++ idText) = true.
Proof.
  intros Hrepo Hid. apply well_formed_ascii_app; [reflexivity|].
  apply (well_formed_app_ascii false (repository env) "/"%char ("main/plugins/" ++ idText));
    [exact Hrepo | reflexivity |].
  apply well_formed_ascii. apply (ascii_text_app "/main/plugins/"); [reflexivity|].
  exact (ascii_identifier _ Hid).
Qed.

Lemma is_json_newPlugin env props pluginId idText entry :
  valid (VObj props) pluginId idText ->
  is_json (VObj props) = true ->
  well_formed (repository env) = true ->
  newPlugin (VObj props) pluginId (GITHUB_REPO env) = ok entry ->
  is_json entry = true.
Proof.
  intros Hv Hjson Hrepo Hn.
  assert (Hs : to_string pluginId = ok idText) by apply Hv.
  assert (Hurl : well_formed ("https://raw.githubusercontent.com/" ++ repository env
                                ++ "/main/plugins/" ++ idText) = true)
    by (apply well_formed_download_url;
        [exact Hrepo | apply id_pattern_identifier; exact (proj2 (proj2 (proj2 Hv)))]).
  unfold newPlugin in Hn. cbn [get rbind] in Hn.
  rewrite (template_download_url _ _ _ Hs) in Hn.
  set (url := "https://raw.githubusercontent.com/" ++ repository env
                ++ "/main/plugins/" ++ idText) in *.
  cbn [rbind] in Hn. injection Hn as <-.
  assert (Hreq : forall k, In k required ->
            is_json (match lookup k props with Some v => v | None => VUndefined end) = true).
  { intros k Hin. rewrite <- field_object. apply is_json_truthy_field; [exact Hjson|].
    apply present_field. exact (valid_present _ _ _ _ Hv Hin). }
  assert (Hid : is_json pluginId = true).
  { rewrite <- (valid_id_field _ _ _ Hv), field_object. apply Hreq. simpl; auto. }
  assert (Hor : forall k fallback, is_json fallback = true ->
            is_json (or_else (match lookup k props with Some v => v | None => VUndefined end)
                       fallback) = true).
  { intros k fallback Hf. rewrite <- field_object. apply is_json_or_else; assumption. }
  cbn [is_json map fst].
  rewrite Hid, !Hreq by (simpl; auto 6).
  rewrite !Hor by (reflexivity || (apply Hreq; simpl; auto 6)).
  rewrite Hurl. reflexivity.
Qed.

Lemma is_json_app elems entry :
  is_json (VArr elems) = true -> is_json entry = true ->
  is_json (VArr (elems ++ [entry])) = true.
Proof.
  cbn [is_json]. intros He Hx. rewrite forallb_app, He. cbn [forallb]. rewrite Hx.
  reflexivity.
Qed.

Lemma is_json_add_plugin pluginsData entry today updated :
  is_json pluginsData = true -> is_json entry = true ->
  well_formed today = true ->
  add_plugin pluginsData entry today = ok updated ->
  is_json updated = true.
Proof.
  intros Hpd Hentry Htoday. unfold add_plugin.
  destruct (plugins_of pluginsData "push") as [e|plugins] eqn:Hp; [discriminate|].
  destruct (plugins_of_array _ _ _ Hp) as (props & -> & Hl).
  cbn [rbind assign]. intros [= <-].
  destruct (is_json_object _ Hpd) as [Hk Hvalues].
  apply is_json_object_intro.
  - apply keys_ordered_define_property; [reflexivity|].
    rewrite map_fst_replace. exact Hk.
  - apply (values_define_property (fun x => is_json x = true)); [exact Htoday|].
    apply (values_replace (fun x => is_json x = true)); [|exact Hvalues].
    apply is_json_app; [exact (lookup_is_json _ _ _ Hpd Hl) | exact Hentry].
Qed.


(** X15: for a request body and an index document that are JSON values
    (their numbers integers of at most 53 bits), the [content] written to
    [plugins.json], decoded from base64, read as UTF-8 and parsed, is the
    index document with the new entry added and the date set; the [sha]
    is sent along when it is truthy and left out otherwise, and the body
    of the call parses back to the payload.  The name of the repository
    and the date are strings, hence well-formed. *)
Theorem index_round_trip env data pluginId idText pluginsData sha
    entry today updated payload :
  valid data pluginId idText ->
  is_json data = true ->
  is_json pluginsData = true ->
  (truthy sha = true -> is_json sha = true) ->
  well_formed (repository env) = true ->
  well_formed today = true ->
  newPlugin data pluginId (GITHUB_REPO env) = ok entry ->
  add_plugin pluginsData entry today = ok updated ->
  updateData data updated sha = ok payload ->
  exists content,
    get payload "content" = ok (VStr content)
    /\ JSON_parse (Buffer_toString (Base64.decode content) utf8) = ok updated
    /\ defaulted sha VUndefined (field payload "sha")
    /\ exists text,
         fetch_body (put_index env payload) = VStr text
         /\ JSON_parse text = ok payload.
Proof.
  intros Hv Hjson Hpd Hsha Hrepo Htoday Hn Ha Hd.
  destruct (valid_object _ _ _ Hv) as [props ->].
  pose proof (is_json_newPlugin _ _ _ _ _ Hv Hjson Hrepo Hn) as Hentry.
  pose proof (is_json_add_plugin _ _ _ _ Hpd Hentry Htoday Ha) as Hup.
  destruct (JSON_parse_stringify updated 2 Hup) as (text & Ht & Hparse).
  pose proof (JSON_stringify_utf8 _ _ _ Hup Ht) as Hutf8.
  unfold updateData in Hd. rewrite Ht in Hd.
  destruct (get (VObj props) "cn_name") as [e|cn] eqn:Hcn; [discriminate|].
  cbn [rbind] in Hd.
  destruct (template [VStr "Add plugin to list: "; cn]) as [e|m] eqn:Hm; [discriminate|].
  pose proof (well_formed_commit_message _ _ _ "Add plugin to list: " _ _
                Hv Hjson eq_refl Hcn Hm) as Hmessage.
  pose proof (well_formed_ascii _ (ascii_encode (utf8_of_string text))) as Hcontent.
  cbn [rbind ok Buffer_from Buffer_toString] in Hd. cbv zeta in Hd.
  exists (Base64.encode (utf8_of_string text)).
  assert (Hread : JSON_parse (Buffer_toString
                                (Base64.decode (Base64.encode (utf8_of_string text))) utf8)
                  = ok updated).
  { cbn [Buffer_toString]. rewrite decode_encode, Hutf8. exact Hparse. }
  destruct (truthy sha) eqn:Hts; unfold ok in Hd; injection Hd as <-.
  - split; [reflexivity|]. split; [exact Hread|].
    split; [split; [reflexivity | congruence]|].
    apply JSON_parse_stringify.
    change (define_property "sha" sha ?l) with (l ++ [("sha", sha)])%list.
    cbn [List.app is_json map fst keys_ordered].
    rewrite Hmessage, Hcontent, (Hsha eq_refl). reflexivity.
  - split; [reflexivity|]. split; [exact Hread|].
    split; [split; [congruence | reflexivity]|].
    apply JSON_parse_stringify. cbn [is_json map fst keys_ordered].
    rewrite Hmessage, Hcontent. reflexivity.
Qed.

(** X9: when the read of the index is answered with a status outside
    200..299, whatever it is, the handler starts from the empty catalogue
    of version [1.0.0] with no [sha]: no id is a duplicate, and the
    document to write holds the new entry alone. *)
Theorem fresh_index pluginsRes :
  Response_ok pluginsRes = false ->
  exists pluginsData,
    read_index pluginsRes = ok (pluginsData, VNull)
    /\ existingIds pluginsData = ok []
    /\ forall entry today,
         add_plugin pluginsData entry today
         = ok (VObj [("version", VStr "1.0.0");
                     ("last_updated", VStr today);
                     ("plugins", VArr [entry])]).
Proof.
  intros Hok. unfold read_index. rewrite Hok. eexists. split; [reflexivity|].
  split; reflexivity.
Qed.

Lemma lookup_define_property k v props : lookup k (define_property k v props) = Some v.
Proof.
  unfold define_property. destruct (has_key k props) eqn:Hfresh.
  - apply lookup_replace. exact Hfresh.
  - destruct (array_index k) as [n|].
    + induction props as [|[k' v'] props IH]; cbn [insert_index lookup].
      * rewrite String.eqb_refl. reflexivity.
      * cbn [has_key] in Hfresh. apply orb_false_iff in Hfresh as [Hne Hfresh].
        destruct (array_index k') as [m|]; [destruct (m <? n)%N|]; cbn [lookup];
          rewrite ?Hne, ?String.eqb_refl; auto.
    + induction props as [|[k' v'] props IH]; cbn [List.app lookup].
      * rewrite String.eqb_refl. reflexivity.
      * cbn [has_key] in Hfresh. apply orb_false_iff in Hfresh as [Hne Hfresh].
        rewrite Hne. auto.
Qed.

(** X13: adding the entry puts it last in [plugins], sets [last_updated]
    and leaves every other property of the index document as it was. *)
Theorem add_plugin_keeps_document pluginsData plugins entry today :
  plugins_of pluginsData "push" = ok plugins ->
  exists updated,
    add_plugin pluginsData entry today = ok updated
    /\ field updated "plugins" = VArr (plugins ++ [entry])
    /\ field updated "last_updated" = VStr today
    /\ forall k, k <> "plugins" -> k <> "last_updated" ->
         field updated k = field pluginsData k.
Proof.
  intros Hp. destruct (plugins_of_array _ _ _ Hp) as (props & -> & Hl).
  exists (VObj (define_property "last_updated" (VStr today)
                  (replace "plugins" (VArr (plugins ++ [entry])) props))).
  split; [unfold add_plugin; rewrite Hp; reflexivity|].
  rewrite !field_object. split; [|split].
  - rewrite lookup_define_other by reflexivity.
    rewrite lookup_replace by (exact (lookup_has_key _ _ _ Hl)). reflexivity.
  - rewrite lookup_define_property. reflexivity.
  - intros k Hk1 Hk2. apply String.eqb_neq in Hk1, Hk2.
    rewrite field_object, lookup_define_other by exact Hk2.
    rewrite lookup_replace_other by exact Hk1. reflexivity.
Qed.

Lemma map_result_fields plugins ids :
  map_result (fun p => get p "id") plugins = ok ids ->
  ids = map (fun p => field p "id") plugins.
Proof.
  revert ids. induction plugins as [|p plugins IH]; cbn [map_result map].
  - intros ids [= <-]. reflexivity.
  - intros ids. unfold field at 1. destruct (get p "id") as [e|x]; [discriminate|].
    cbn [rbind]. destruct (map_result (fun p => get p "id") plugins) as [e|xs];
      [discriminate|].
    cbn [rbind]. intros [= <-]. rewrite (IH xs eq_refl). reflexivity.
Qed.

Lemma same_value_zero_string x s : same_value_zero x (VStr s) = true <-> x = VStr s.
Proof.
  unfold same_value_zero. cbn [Number_canon].
  destruct (Number_canon_cases x) as [->|[[n E]|[d E]]].
  - destruct x; cbn [same_primitive]; try (split; discriminate).
    + destruct x; split; discriminate.
    + rewrite String.eqb_eq. split; congruence.
  - rewrite E. split; [discriminate|]. intros ->. discriminate E.
  - rewrite E. split; [destruct d; discriminate|]. intros ->. discriminate E.
Qed.

(** X12: a string [id] is found a duplicate exactly when some entry of
    [plugins] has that string as its [id]; entries without an [id], or
    with an [id] that is not a string, never match. *)
Theorem duplicate_iff_entry_with_id pluginsData ids s :
  existingIds pluginsData = ok ids ->
  includes ids (VStr s) = true
  <-> exists plugins p,
        plugins_of pluginsData "map" = ok plugins
        /\ In p plugins /\ field p "id" = VStr s.
Proof.
  unfold existingIds. destruct (plugins_of pluginsData "map") as [e|plugins];
    [discriminate|].
  cbn [rbind]. intros Hids. apply map_result_fields in Hids. subst ids.
  unfold includes. rewrite existsb_exists. split.
  - intros (x & Hin & Hx). apply same_value_zero_string in Hx. subst x.
    apply in_map_iff in Hin as (p & Hp & Hin). exists plugins, p. auto.
  - intros (l & p & [= <-] & Hin & Hp). exists (VStr s). split.
    + apply in_map_iff. exists p. split; assumption.
    + apply same_value_zero_string. reflexivity.
Qed.

(** X14: [split('T')[0]] keeps what comes before the first [T]: of an ISO
    timestamp, the date. *)
Theorem last_updated_is_date date time :
  all_chars (fun c => negb (c =? "T")%char) date = true ->
  before_T (date ++ String "T" time) = date.
Proof.
  induction date as [|c date IH]; cbn [append before_T all_chars].
  - reflexivity.
  - intros H. apply andb_true_iff in H as [Hc Hrest]. apply negb_true_iff in Hc.
    rewrite Hc, (IH Hrest). reflexivity.
Qed.

End Written.

(** ** Every run *)

Section Endings.
Context `{P : Platform}.

Lemma bind_lift_inl {A B} (f : A -> M B) st e :
  bind (lift (inl e)) f st = (Throw e, st).
Proof. reflexivity. Qed.

Lemma bind_lift_inr {A B} (f : A -> M B) st a :
  bind (lift (inr a)) f st = f a st.
Proof. reflexivity. Qed.

Lemma try_catch_reply code obj w sent logged :
  try_catch (res_json code obj (after w sent logged))
  = (answer code obj, after w sent logged).
Proof. reflexivity. Qed.

Lemma check_required_cases data fields st :
  check_required data fields st = (Value tt, st)
  \/ (exists field,
        check_required data fields st
        = res_json 400 (failure ("缺少必填字段: " ++ field)) st)
  \/ (exists e, check_required data fields st = (Throw e, st)).
Proof.
  induction fields as [|f fields IH]; cbn [check_required]; [left; reflexivity|].
  destruct (get data f) as [e|x].
  - right; right. exists e. reflexivity.
  - rewrite bind_lift_inr. destruct (truthy x); cbn [negb]; [exact IH|].
    right; left. exists f. reflexivity.
Qed.

Lemma id_text_string data pluginId idText :
  get data "id" = ok pluginId -> to_string pluginId = ok idText -> id_text data = idText.
Proof. unfold id_text, ok. intros H1 H2. rewrite H1, H2. reflexivity. Qed.

Ltac thrown n :=
  rewrite ?bind_lift_inl, try_catch_throw; cbn [List.app];
  first [ exact (caught _ _ _ n VNull VNull VNull _)
        | match goal with
          | |- context [put_index _ ?p3] =>
              match goal with
              | |- context [put_config _ _ ?p2] =>
                  match goal with
                  | |- context [put_plugin _ _ ?p1] => exact (caught _ _ _ n p1 p2 p3 _)
                  end
              end
          | |- context [put_config _ _ ?p2] =>
              match goal with
              | |- context [put_plugin _ _ ?p1] => exact (caught _ _ _ n p1 p2 VNull _)
              end
          | |- context [put_plugin _ _ ?p1] => exact (caught _ _ _ n p1 VNull VNull _)
          end ].

Lemma update_index_ending env data pluginId idText p1 p2 w :
  to_string pluginId = ok idText ->
  ending env idText
    (try_catch (update_index env data pluginId (api_headers env)
                  (after w [put_plugin env idText p1; put_config env idText p2] []))).
Proof.
  intros Hs. unfold update_index. cbv zeta.
  step (contents_url_repository env "plugins.json"). fold (get_index env).
  destruct (fetch (get_index env) w) as [[e|pluginsRes] w3] eqn:Hf.
  { rewrite (bind_fetch_rejected _ _ _ _ _ _ _ Hf). thrown 3%nat. }
  rewrite (bind_fetch _ _ _ _ _ _ _ Hf). cbn [List.app].
  destruct (read_index pluginsRes) as [e|[pluginsData sha]]; [thrown 3%nat|].
  rewrite bind_lift_inr.
  destruct (existingIds pluginsData) as [e|ids]; [thrown 3%nat|].
  rewrite bind_lift_inr.
  destruct (includes ids pluginId).
  { rewrite try_catch_reply. exact (duplicate _ _ p1 p2 _). }
  destruct (newPlugin data pluginId (GITHUB_REPO env)) as [e|entry]; [thrown 3%nat|].
  rewrite bind_lift_inr, bind_now.
  destruct (add_plugin pluginsData entry (before_T (Date_toISOString w3))) as [e|updated];
    [thrown 3%nat|].
  rewrite bind_lift_inr.
  destruct (updateData data updated sha) as [e|p3]; [thrown 3%nat|].
  rewrite bind_lift_inr. fold (put_index env p3).
  destruct (fetch (put_index env p3) w3) as [[e|indexRes] w4] eqn:Hf4.
  { rewrite (bind_fetch_rejected _ _ _ _ _ _ _ Hf4). thrown 4%nat. }
  rewrite (bind_fetch _ _ _ _ _ _ _ Hf4). cbn [List.app].
  destruct (get data "cn_name") as [e|cn]; [thrown 4%nat|].
  rewrite bind_lift_inr.
  destruct (template [VStr "插件 "; cn; VStr " 提交成功！"]) as [e|m]; [thrown 4%nat|].
  rewrite bind_lift_inr, try_catch_reply. exact (published _ _ p1 p2 p3 m _).
Qed.

Lemma publish_ending env data pluginId idText w :
  to_string pluginId = ok idText ->
  ending env idText (try_catch (publish env data pluginId (after w [] []))).
Proof.
  intros Hs. unfold publish. cbv zeta.
  destruct (truthy (GITHUB_TOKEN env)) eqn:Ht; cbn [negb];
    [|rewrite try_catch_reply; apply not_configured].
  destruct (configContent data pluginId) as [e|c]; [thrown 0%nat|].
  rewrite bind_lift_inr. step (headers_for_token _ Ht).
  step (template_path _ _ "/plugin.py" Hs).
  step (contents_url_repository env ("plugins/" ++ idText ++ "/plugin.py")).
  destruct (pluginData data) as [e|p1]; [thrown 0%nat|].
  rewrite bind_lift_inr. fold (put_plugin env idText p1).
  destruct (fetch (put_plugin env idText p1) w) as [[e|pluginRes] w1] eqn:Hf1.
  { rewrite (bind_fetch_rejected _ _ _ _ _ _ _ Hf1). thrown 1%nat. }
  rewrite (bind_fetch _ _ _ _ _ _ _ Hf1). cbn [List.app].
  destruct (Response_ok pluginRes); cbn [negb].
  2:{ destruct (Response_text pluginRes) as [e|errorText]; [thrown 1%nat|].
      rewrite bind_lift_inr, bind_console.
      step (template_status "上传 plugin.py 失败: " (Response_status pluginRes)).
      rewrite try_catch_reply. exact (plugin_not_written _ _ p1 _ _ _). }
  step (template_path _ _ "/config.json" Hs).
  step (contents_url_repository env ("plugins/" ++ idText ++ "/config.json")).
  destruct (configData data c) as [e|p2]; [thrown 1%nat|].
  rewrite bind_lift_inr. fold (put_config env idText p2).
  destruct (fetch (put_config env idText p2) w1) as [[e|configRes] w2] eqn:Hf2.
  { rewrite (bind_fetch_rejected _ _ _ _ _ _ _ Hf2). thrown 2%nat. }
  rewrite (bind_fetch _ _ _ _ _ _ _ Hf2). cbn [List.app].
  destruct (Response_ok configRes); cbn [negb].
  2:{ destruct (Response_text configRes) as [e|errorText]; [thrown 2%nat|].
      rewrite bind_lift_inr, bind_console.
      step (template_status "上传 config.json 失败: " (Response_status configRes)).
      rewrite try_catch_reply. exact (config_not_written _ _ p1 p2 _ _ _). }
  apply update_index_ending. exact Hs.
Qed.

(** Every answer to a POST request is one of the endings. *)
Lemma handler_ending env req w :
  method req = "POST" -> ending env (id_text (body req)) (handler env req w).
Proof.
  intros Hm. rewrite (handler_post _ _ _ Hm). unfold submit.
  destruct (check_required_cases (body req) required (after w [] []))
    as [Hc|[[field Hc]|[e Hc]]].
  - rewrite (bind_value _ _ _ _ _ Hc).
    destruct (get (body req) "id") as [e|pluginId] eqn:Hid; [thrown 0%nat|].
    rewrite bind_lift_inr.
    destruct (to_string pluginId) as [e|idText] eqn:Hs; [thrown 0%nat|].
    rewrite bind_lift_inr, (id_text_string _ _ _ Hid Hs).
    destruct (id_pattern idText); cbn [negb].
    + apply publish_ending. exact Hs.
    + rewrite try_catch_reply. apply refused.
  - unfold bind at 1. rewrite Hc. cbn [res_json]. apply refused.
  - unfold bind at 1. rewrite Hc. thrown 0%nat.
Qed.

End Endings.

Section Runs.
Context `{P : Platform}.

Lemma method_cases (req : request) :
  method req = "POST" \/ (method req =? "POST")%string = false.
Proof.
  destruct (method req =? "POST")%string eqn:E; [left; apply String.eqb_eq; exact E | right; reflexivity].
Qed.

(** X17: every reply has status 200, 400, 405 or 500; the object sent is
    [{success: true, message}] with status 200 and [{success: false,
    error}] with the others. *)
Theorem reply_shape env req w :
  (status (fst (handler env req w)) = 200
   /\ exists message,
        json (fst (handler env req w))
        = VObj [("success", VBool true); ("message", VStr message)])
  \/ (In (status (fst (handler env req w))) [400; 405; 500]
      /\ exists error, json (fst (handler env req w)) = failure error).
Proof.
  destruct (method_cases req) as [Hm|Hm].
  - destruct (handler_ending env req w Hm); cbn [fst status json answer];
      first [ left; split; [reflexivity | eexists; reflexivity]
            | right; split; [cbn [In]; auto | eexists; reflexivity] ].
  - rewrite (method_not_allowed _ _ _ Hm). right. cbn [fst status json In].
    split; [auto | eexists; reflexivity].
Qed.

(** X18: whatever the request and the network do, the calls of [fetch]
    made are the first few of: the write of [plugin.py], the write of
    [config.json], the read of [plugins.json], the write of
    [plugins.json], each to the configured repository with the headers
    of lines 59 to 63.  So there are at most four, and the index is
    neither read nor written before both files were sent. *)
Theorem calls_follow_plan env req w :
  exists n pluginData' configData' updateData',
    calls (snd (handler env req w))
    = firstn n (plan env (id_text (body req)) pluginData' configData' updateData').
Proof.
  destruct (method_cases req) as [Hm|Hm].
  - destruct (handler_ending env req w Hm); cbn [snd calls after].
    + exists 0%nat, VNull, VNull, VNull. reflexivity.
    + exists 0%nat, VNull, VNull, VNull. reflexivity.
    + exists 1%nat, p1, VNull, VNull. reflexivity.
    + exists 2%nat, p1, p2, VNull. reflexivity.
    + exists 3%nat, p1, p2, VNull. reflexivity.
    + exists 4%nat, p1, p2, p3. reflexivity.
    + exists n, p1, p2, p3. reflexivity.
  - rewrite (method_not_allowed _ _ _ Hm). exists 0%nat, VNull, VNull, VNull. reflexivity.
Qed.

(** X19: a reply 200 comes after all four calls, a reply 405 after none,
    and a reply 400 after none (validation) or after the two writes and
    the read of the index (duplicate id). *)
Theorem calls_by_status env req w :
  (status (fst (handler env req w)) = 200 ->
   exists pluginData' configData' updateData',
     calls (snd (handler env req w))
     = plan env (id_text (body req)) pluginData' configData' updateData')
  /\ (status (fst (handler env req w)) = 405 -> calls (snd (handler env req w)) = [])
  /\ (status (fst (handler env req w)) = 400 ->
      calls (snd (handler env req w)) = []
      \/ exists pluginData' configData',
           calls (snd (handler env req w))
           = [put_plugin env (id_text (body req)) pluginData';
              put_config env (id_text (body req)) configData';
              get_index env]).
Proof.
  destruct (method_cases req) as [Hm|Hm].
  - destruct (handler_ending env req w Hm); cbn [fst snd status calls answer after];
      (split; [|split]); intros Hs; try discriminate Hs.
    + left; reflexivity.
    + right. exists p1, p2. reflexivity.
    + exists p1, p2, p3. reflexivity.
  - rewrite (method_not_allowed _ _ _ Hm). cbn [fst snd status calls start].
    (split; [|split]); intros Hs; try discriminate Hs; auto.
Qed.

(** X20: [console.error] is called at most once, and only on the way to a
    reply 500. *)
Theorem logs_by_status env req w :
  (status (fst (handler env req w)) <> 500 -> console (snd (handler env req w)) = [])
  /\ (List.length (console (snd (handler env req w))) <= 1)%nat.
Proof.
  destruct (method_cases req) as [Hm|Hm].
  - destruct (handler_ending env req w Hm); cbn [fst snd status console answer after];
      (split; [intros Hs; try reflexivity; contradiction Hs; reflexivity | cbn [List.length]; lia]).
  - rewrite (method_not_allowed _ _ _ Hm). cbn [fst snd status console start].
    split; [reflexivity | cbn [List.length]; lia].
Qed.

End Runs.

(** ** The configuration *)

Section Configuration.
Context `{P : Platform}.

Lemma plan_addresses env idText p1 p2 p3 n :
  Forall (fun c => exists path, fetch_url c = contents env path)
    (firstn n (plan env idText p1 p2 p3)).
Proof.
  assert (H : Forall (fun c => exists path, fetch_url c = contents env path)
                (plan env idText p1 p2 p3))
    by (repeat constructor; eexists; reflexivity).
  revert n. induction H as [|c l Hc _ IH]; intros [|n]; cbn [firstn]; constructor; auto.
Qed.

(** Every call of every run goes to the contents of the repository. *)
Lemma calls_addresses env req w :
  Forall (fun c => exists path, fetch_url c = contents env path)
    (calls (snd (handler env req w))).
Proof.
  destruct (method_cases req) as [Hm|Hm].
  - destruct (handler_ending env req w Hm); cbn [snd calls after];
      first [ apply Forall_nil | apply plan_addresses
            | apply (plan_addresses env _ _ _ _ 4) ].
  - rewrite (method_not_allowed _ _ _ Hm). constructor.
Qed.

(** C4: a valid POST request is answered 500 with [success: false] before
    any call of [fetch] when [GITHUB_TOKEN] is not configured.  When
    [GITHUB_REPO] is not configured, with or without a token, the
    repository is [VBHC-UHY/whitesalary-plugins]: every call that a run
    makes goes to the contents of that repository, and the index entry
    of the request has a [download_url] that points into it. *)
Theorem missing_token_rejected env req w pluginId idText :
  method req = "POST" ->
  valid (body req) pluginId idText ->
  (truthy (GITHUB_TOKEN env) = false ->
   handler env req w
   = (answer 500 (VObj [("success", VBool false); ("error", VStr "GitHub Token 未配置")]),
      after w [] []))
  /\ (truthy (getenv env "GITHUB_REPO") = false ->
      GITHUB_REPO env = VStr "VBHC-UHY/whitesalary-plugins"
      /\ Forall
           (fun c =>
              exists path,
                fetch_url c
                = "https://api.github.com/repos/VBHC-UHY/whitesalary-plugins/contents/"
                    ++ path)
           (calls (snd (handler env req w)))
      /\ exists entry,
           newPlugin (body req) pluginId (GITHUB_REPO env) = ok entry
           /\ field entry "download_url"
              = VStr ("https://raw.githubusercontent.com/VBHC-UHY/whitesalary-plugins/main/plugins/"
                        ++ idText)).
Proof.
  intros Hm Hv. split.
  - intros Ht. rewrite (handler_post _ _ _ Hm), (submit_valid _ _ _ _ _ Hv).
    unfold publish. rewrite Ht. reflexivity.
  - intros Hrepo.
    assert (Hdefault : repository env = "VBHC-UHY/whitesalary-plugins")
      by (unfold repository, GITHUB_REPO, or_else; rewrite Hrepo; reflexivity).
    split; [unfold GITHUB_REPO, or_else; rewrite Hrepo; reflexivity|]. split.
    + pose proof (calls_addresses env req w) as H. unfold contents in H.
      rewrite Hdefault in H. exact H.
    + destruct (valid_object _ _ _ Hv) as [props Hobj].
      assert (Hs : to_string pluginId = ok idText) by apply Hv.
      rewrite Hobj. unfold newPlugin. cbn [get rbind].
      rewrite (template_download_url _ _ _ Hs), Hdefault. cbn [rbind].
      eexists. split; reflexivity.
Qed.

End Configuration.

Section Identifiers.

Lemma all_chars_Forall (p : ascii -> bool) s :
  all_chars p s = true -> Forall (fun c => p c = true) (list_ascii_of_string s).
Proof.
  induction s as [|c s IH]; cbn [all_chars list_ascii_of_string]; [constructor|].
  intros H. apply andb_true_iff in H as [Hc Hs]. constructor; [exact Hc | exact (IH Hs)].
Qed.

(** X4: a string that passes the pattern of line 27 is not empty and
    holds lowercase letters, digits and underscores only; so it has no
    [/] and no [.], and the paths [plugins/<id>/...] stay in [plugins]. *)
Theorem accepted_id_is_plain (s : string) :
  id_pattern s = true ->
  s <> ""
  /\ Forall (fun c => is_lower c || is_digit c || (c =? "_")%char = true)
       (list_ascii_of_string s)
  /\ ~ In "/"%char (list_ascii_of_string s)
  /\ ~ In "."%char (list_ascii_of_string s).
Proof.
  destruct s as [|c s]; [discriminate|]. cbn [id_pattern]. intros H.
  apply andb_true_iff in H as [Hc Hs].
  assert (Hall : Forall (fun c => is_lower c || is_digit c || (c =? "_")%char = true)
                   (list_ascii_of_string (String c s))).
  { cbn [list_ascii_of_string]. constructor; [rewrite Hc; reflexivity|].
    apply all_chars_Forall. exact Hs. }
  split; [discriminate|]. split; [exact Hall|].
  rewrite Forall_forall in Hall.
  split; intros Hin; specialize (Hall _ Hin); discriminate Hall.
Qed.

End Identifiers.


(** ** The properties on examples *)

Lemma sample_valid : valid sample (VStr "newplug") "newplug".
Proof.
  split; [reflexivity|]. split; [reflexivity|]. split; [reflexivity|].
  apply id_pattern_identifier. reflexivity.
Defined.

Lemma cors_headers_on_post_example :
  cors (fst (@handler scripted sample_env (post sample)
               [created; created; not_found; created])).
Proof. apply (@cors_headers_on_post scripted). reflexivity. Defined.

(** C1 as stated fails: the answer to another method than POST is 405
    with none of the three headers. *)
Lemma cors_headers_missing_on_405 :
  let r := fst (@handler scripted sample_env {| method := "GET"; body := sample |} []) in
  status r = 405
  /\ header r "Access-Control-Allow-Origin" = None
  /\ header r "Access-Control-Allow-Methods" = None
  /\ header r "Access-Control-Allow-Headers" = None.
Proof. repeat split. Qed.

Lemma required_field_rejected_example :
  @handler scripted sample_env
    (post (VObj [("id", VStr "x"); ("cn_name", VStr ""); ("description", VNull);
                 ("code", VNum 0)])) []
  = (answer 400 (failure "缺少必填字段: cn_name"), @after scripted [] [] []).
Proof.
  apply (@required_field_rejected scripted sample_env _ [] ["id"] "cn_name"
           ["author"; "description"; "code"]);
    first [reflexivity | discriminate].
Defined.

(** C2 as stated fails: a POST request without a body lacks every required
    field, and is answered 500 with the message of the [TypeError]. *)
Lemma required_field_without_body :
  let r := fst (@handler scripted sample_env (post VUndefined) []) in
  present VUndefined "id" = false
  /\ status r = 500
  /\ json r = failure "Cannot read properties of undefined (reading 'id')".
Proof. repeat split. Qed.

Lemma id_format_checked_example :
  @handler scripted sample_env
    (post (VObj [("id", VStr "ab-c"); ("cn_name", VStr "n"); ("author", VStr "a");
                 ("description", VStr "d"); ("code", VStr "c")])) []
  = (answer 400 (failure "插件ID格式不正确"), @after scripted [] [] []).
Proof.
  apply (proj1 (@id_format_checked scripted sample_env
                  (post (VObj [("id", VStr "ab-c"); ("cn_name", VStr "n");
                               ("author", VStr "a"); ("description", VStr "d");
                               ("code", VStr "c")]))
                  [] (VStr "ab-c") "ab-c" eq_refl eq_refl eq_refl eq_refl)).
  intros H. apply id_pattern_identifier in H. discriminate.
Defined.

(** C3 as stated fails: an [id] that is an object with an own [toString]
    property is present (an object is truthy) and matches no pattern, as
    it has no string form; the test of the pattern throws, and the request
    is answered 500 with the message of the [TypeError], not 400. *)
Lemma id_without_string_form :
  let data := VObj [("id", VObj [("toString", VNum 1)]); ("cn_name", VStr "n");
                    ("author", VStr "a"); ("description", VStr "d");
                    ("code", VStr "c")] in
  let r := fst (@handler scripted sample_env (post data) []) in
  forallb (present data) required = true
  /\ to_string (field data "id")
     = throw (TypeError "Cannot convert object to primitive value")
  /\ status r = 500
  /\ json r = failure "Cannot convert object to primitive value".
Proof. repeat split. Qed.

Lemma missing_token_rejected_example :
  @handler scripted [] (post sample) [created]
  = (answer 500 (VObj [("success", VBool false); ("error", VStr "GitHub Token 未配置")]),
     @after scripted [created] [] [])
  /\ GITHUB_REPO sample_env = VStr "VBHC-UHY/whitesalary-plugins"
  /\ Forall
       (fun c =>
          exists path,
            fetch_url c
            = "https://api.github.com/repos/VBHC-UHY/whitesalary-plugins/contents/"
                ++ path)
       (calls (snd (@handler scripted sample_env (post sample)
                      [created; created; not_found; created]))).
Proof.
  split.
  - exact (proj1 (@missing_token_rejected scripted [] (post sample) [created]
                    (VStr "newplug") "newplug" eq_refl sample_valid) eq_refl).
  - destruct (proj2 (@missing_token_rejected scripted sample_env (post sample)
                       [created; created; not_found; created]
                       (VStr "newplug") "newplug" eq_refl sample_valid) eq_refl)
      as (Hrepo & Hcalls & _).
    split; [exact Hrepo | exact Hcalls].
Defined.

Lemma plugin_upload_failure_example :
  exists payload,
    @handler scripted sample_env (post sample) [not_found; created]
    = (answer 500
         (VObj [("success", VBool false); ("error", VStr "上传 plugin.py 失败: 404")]),
       @after scripted [created] [@put_plugin scripted sample_env "newplug" payload]
         [("GitHub API error (plugin.py):", "Not Found")]).
Proof.
  eexists.
  apply (proj1 (@plugin_upload_failure scripted sample_env (post sample)
                  [not_found; created] (VStr "newplug") "newplug" _
                  {| Response_status := 404; Response_text := ok "Not Found" |}
                  [created] "Not Found"
                  eq_refl sample_valid eq_refl eq_refl eq_refl eq_refl eq_refl)).
Defined.

(** C5 as stated fails: when the body of the refusal cannot be read to the
    end, [await pluginRes.text()] rejects at line 82; the [catch] block
    answers 500 with the message of that rejection, in which the status
    502 does not appear, and logs it in place of the body. *)
Lemma plugin_refusal_unread :
  let run := @handler scripted sample_env (post sample) [interrupted; created] in
  map (fun c => (fetch_method c, fetch_url c)) (calls (snd run))
  = [("PUT", contents sample_env "plugins/newplug/plugin.py")]
  /\ status (fst run) = 500
  /\ json (fst run) = VObj [("success", VBool false); ("error", VStr "terminated")]
  /\ console (snd run) = [("Submit error:", "terminated")].
Proof. repeat split. Qed.

(** The two files of the sample written, whatever comes next. *)
Lemma sample_uploaded_then rest :
  exists pluginData' configData',
    @uploaded scripted sample_env sample (VStr "newplug") "newplug"
      (created :: created :: rest) rest pluginData' configData'.
Proof.
  eexists _, _. unfold uploaded. eexists _, _, _, _.
  repeat (split; [reflexivity|]). reflexivity.
Defined.

Lemma sample_uploaded :
  exists pluginData' configData',
    @uploaded scripted sample_env sample (VStr "newplug") "newplug"
      [created; created; index_response (catalogue ["oldplug"; "newplug"])]
      [index_response (catalogue ["oldplug"; "newplug"])]
      pluginData' configData'.
Proof.
  eexists _, _. unfold uploaded. eexists _, _, _, _.
  repeat (split; [reflexivity|]). reflexivity.
Defined.

Lemma duplicate_id_rejected_example :
  exists pluginData' configData',
    @handler scripted sample_env (post sample)
      [created; created; index_response (catalogue ["oldplug"; "newplug"])]
    = (answer 400 (VObj [("success", VBool false); ("error", VStr "该插件ID已存在")]),
       @after scripted []
         [@put_plugin scripted sample_env "newplug" pluginData';
          @put_config scripted sample_env "newplug" configData';
          get_index sample_env] []).
Proof.
  destruct sample_uploaded as (p1 & p2 & Hu). exists p1, p2.
  eapply (@duplicate_id_rejected scripted sample_env (post sample) _
            (VStr "newplug") "newplug" p1 p2 _ _ []
            (catalogue ["oldplug"; "newplug"]) _ [VStr "oldplug"; VStr "newplug"]
            eq_refl sample_valid eq_refl Hu).
  - reflexivity.
  - vm_compute. reflexivity.
  - reflexivity.
  - reflexivity.
  - right. left. reflexivity.
Defined.

(** C6 as stated fails: an [id] that is the array [["abc"]] passes both
    validations (its string form is [abc]) and appears among the ids of
    the index, which holds ["abc"] and an array [["abc"]] as well; but
    [includes] compares an array by identity, finds no duplicate, and the
    request is answered 200 after the index is written. *)
Lemma duplicate_array_id_accepted :
  let run := @handler scripted sample_env (post listed)
               [created; created; index_response list_catalogue; created] in
  forallb (present listed) required = true
  /\ to_string (field listed "id") = ok "abc"
  /\ existingIds list_catalogue = ok [VStr "abc"; VArr [VStr "abc"]]
  /\ In (field listed "id") [VStr "abc"; VArr [VStr "abc"]]
  /\ map (fun c => (fetch_method c, fetch_url c)) (calls (snd run))
     = [("PUT", contents sample_env "plugins/abc/plugin.py");
        ("PUT", contents sample_env "plugins/abc/config.json");
        ("GET", contents sample_env "plugins.json");
        ("PUT", contents sample_env "plugins.json")]
  /\ status (fst run) = 200.
Proof.
  cbv zeta. repeat (split; [reflexivity|]).
  split; [right; left; reflexivity|]. split; vm_compute; reflexivity.
Qed.

(** An index with a rating of 4.5 is read, and the rating is printed back
    as it was. *)
Lemma read_rated_index :
  @read_index scripted rated_response = ok (rated_catalogue, VStr "0a1b")
  /\ to_string (VDbl (Finite false 5066549580791808 (-50))) = ok "4.5"
  /\ serialize "" "" rated_catalogue
     = "{" ++ quote "plugins" ++ ":[{" ++ quote "id" ++ ":" ++ quote "oldplug" ++ ","
         ++ quote "rating" ++ ":4.5}]}".
Proof. repeat split; vm_compute; reflexivity. Qed.

Lemma success_whatever_index_response_example :
  exists pluginData' configData' updateData',
    @handler scripted sample_env (post sample)
      [created; created; rated_index; server_error]
    = (answer 200 (VObj [("success", VBool true);
                         ("message", VStr "插件 测试 提交成功！")]),
       @after scripted []
         [@put_plugin scripted sample_env "newplug" pluginData';
          @put_config scripted sample_env "newplug" configData';
          get_index sample_env;
          @put_index scripted sample_env updateData'] []).
Proof.
  destruct (sample_uploaded_then [rated_index; server_error]) as (p1 & p2 & Hu).
  destruct (@success_whatever_index_response scripted sample_env (post sample)
              [created; created; rated_index; server_error]
              (VStr "newplug") "newplug" p1 p2
              [rated_index; server_error]
              rated_response
              [server_error] rated_catalogue (VStr "0a1b") [VStr "oldplug"]
              eq_refl sample_valid eq_refl Hu eq_refl
              ltac:(vm_compute; reflexivity) eq_refl eq_refl)
    as (payload & cn & cnText & Hcn & Hcs & H).
  exists p1, p2, payload.
  injection Hcn as <-. injection Hcs as <-.
  exact (H {| Response_status := 502; Response_text := ok "Bad Gateway" |} [] eq_refl).
Defined.

(** C7 as stated fails: when the write of the index fails with no response
    at all (the last call of [fetch] is rejected), a valid request whose
    two files were written and whose [id] is new is answered 500 with the
    message of the rejection, not 200. *)
Lemma index_write_rejected_example :
  let run := @handler scripted sample_env (post sample)
               [created; created; not_found; unreachable] in
  map (fun c => (fetch_method c, fetch_url c)) (calls (snd run))
  = [("PUT", contents sample_env "plugins/newplug/plugin.py");
     ("PUT", contents sample_env "plugins/newplug/config.json");
     ("GET", contents sample_env "plugins.json");
     ("PUT", contents sample_env "plugins.json")]
  /\ status (fst run) = 500
  /\ json (fst run) = failure "fetch failed".
Proof. repeat split. Qed.


Lemma index_entry_agrees_example :
  exists config entry,
    configContent sample (VStr "newplug") = ok config
    /\ newPlugin sample (VStr "newplug") (GITHUB_REPO sample_env) = ok entry
    /\ field entry "category" = field config "category"
    /\ field entry "downloads" = VNum 0
    /\ field entry "rating" = VNum 5
    /\ field entry "download_url"
       = VStr "https://raw.githubusercontent.com/VBHC-UHY/whitesalary-plugins/main/plugins/newplug".
Proof.
  destruct (@index_entry_agrees sample_env sample (VStr "newplug") "newplug" sample_valid)
    as (config & entry & Hc & He & Hsame & Hd & Hr & Hu & _).
  exists config, entry.
  split; [exact Hc|]. split; [exact He|].
  split; [apply Hsame; simpl; auto 10|].
  split; [exact Hd|]. split; [exact Hr | exact Hu].
Defined.

Lemma optional_field_defaults_example :
  exists config,
    configContent sample (VStr "newplug") = ok config
    /\ field config "full_description" = VStr "a plugin"
    /\ field config "usage" = VStr ""
    /\ field config "triggers" = VArr []
    /\ field config "keywords" = VArr [].
Proof.
  destruct (@optional_field_defaults sample (VStr "newplug") "newplug" sample_valid)
    as (config & Hc & Hfull & Husage & _ & _ & _ & Htrig & _ & Hkey).
  exists config.
  split; [exact Hc|]. split; [exact (proj2 Hfull eq_refl)|].
  split; [exact (proj2 Husage eq_refl)|].
  split; [exact (proj2 Htrig eq_refl) | exact Hkey].
Defined.

Lemma method_gate_example :
  @handler scripted sample_env {| method := "GET"; body := sample |} [created]
  = ({| status := 405; headers := []; json := failure "Method not allowed" |},
     @start scripted [created]).
Proof. apply method_gate. discriminate. Defined.

Lemma missing_body_caught_example :
  exists e,
    @handler scripted sample_env (post VNull) [created]
    = (answer 500 (failure (message e)),
       @after scripted [created] [] [("Submit error:", message e)]).
Proof.
  apply (@missing_body_caught scripted sample_env (post VNull) [created] eq_refl).
  right. reflexivity.
Defined.

Lemma id_conversion_caught_example :
  @handler scripted sample_env
    (post (VObj [("id", VObj [("toString", VNum 1)]); ("cn_name", VStr "n");
                 ("author", VStr "a"); ("description", VStr "d");
                 ("code", VStr "c")])) [created]
  = (answer 500 (failure "Cannot convert object to primitive value"),
     @after scripted [created] []
       [("Submit error:", "Cannot convert object to primitive value")]).
Proof.
  apply (@id_conversion_caught scripted sample_env
           (post (VObj [("id", VObj [("toString", VNum 1)]); ("cn_name", VStr "n");
                        ("author", VStr "a"); ("description", VStr "d");
                        ("code", VStr "c")])) [created]
           (VObj [("toString", VNum 1)])
           (TypeError "Cannot convert object to primitive value")
           eq_refl eq_refl eq_refl eq_refl).
Defined.

Lemma plugin_upload_rejected_example :
  exists payload,
    @handler scripted sample_env (post sample) [unreachable; created]
    = (answer 500 (failure "fetch failed"),
       @after scripted [created] [@put_plugin scripted sample_env "newplug" payload]
         [("Submit error:", "fetch failed")]).
Proof.
  eexists.
  apply (@plugin_upload_rejected scripted sample_env (post sample) [unreachable; created]
           (VStr "newplug") "newplug" _ (TypeError "fetch failed") [created]
           eq_refl sample_valid eq_refl eq_refl eq_refl).
Defined.

Lemma config_upload_failure_example :
  exists pluginData' configData',
    @handler scripted sample_env (post sample) [created; server_error; created]
    = (answer 500
         (VObj [("success", VBool false); ("error", VStr "上传 config.json 失败: 502")]),
       @after scripted [created]
         [@put_plugin scripted sample_env "newplug" pluginData';
          @put_config scripted sample_env "newplug" configData']
         [("GitHub API error (config.json):", "Bad Gateway")]).
Proof.
  eexists _, _.
  apply (proj1 (@config_upload_failure scripted sample_env (post sample)
                  [created; server_error; created] (VStr "newplug") "newplug" _ _ _
                  {| Response_status := 201; Response_text := ok "{}" |}
                  [server_error; created]
                  {| Response_status := 502; Response_text := ok "Bad Gateway" |}
                  [created] "Bad Gateway"
                  eq_refl sample_valid eq_refl eq_refl eq_refl eq_refl eq_refl eq_refl
                  eq_refl eq_refl eq_refl)).
Defined.

(** A surrogate alone is read from its escape and written back as that
    escape; a buffer gets U+FFFD for it, and the three bytes of its code
    in a buffer are read as three malformed bytes. *)
Lemma lone_surrogate_example :
  JSON_parse (String dquote ("\ud800" ++ String dquote "")) = ok (VStr lone_surrogate)
  /\ JSON_stringify (VStr lone_surrogate) 0
     = VStr (String dquote ("\ud800" ++ String dquote ""))
  /\ well_formed lone_surrogate = true
  /\ utf8_of_string lone_surrogate = replacement
  /\ string_of_utf8 lone_surrogate = replacement ++ replacement ++ replacement.
Proof. repeat split. Qed.

Lemma numbered_valid : valid numbered (VStr "newplug") "newplug".
Proof.
  split; [reflexivity|]. split; [reflexivity|]. split; [reflexivity|].
  apply id_pattern_identifier. reflexivity.
Defined.

Lemma payload_error_caught_example :
  @handler scripted sample_env (post numbered) [created]
  = (answer 500
       (VObj [("success", VBool false);
              ("error",
               VStr "The first argument must be of type string or an instance of Buffer, ArrayBuffer, or Array or an Array-like Object. Received type number (123)")]),
     @after scripted [created] []
       [("Submit error:",
         "The first argument must be of type string or an instance of Buffer, ArrayBuffer, or Array or an Array-like Object. Received type number (123)")]).
Proof.
  apply (@payload_error_caught scripted sample_env (post numbered) [created]
           (VStr "newplug") "newplug"
           (TypeError "The first argument must be of type string or an instance of Buffer, ArrayBuffer, or Array or an Array-like Object. Received type number (123)")
           eq_refl numbered_valid eq_refl eq_refl).
Defined.

Lemma index_unreadable_example :
  exists pluginData' configData' text,
    @handler scripted sample_env (post sample) [created; created; garbled]
    = (answer 500 (VObj [("success", VBool false); ("error", VStr text)]),
       @after scripted []
         [@put_plugin scripted sample_env "newplug" pluginData';
          @put_config scripted sample_env "newplug" configData';
          get_index sample_env]
         [("Submit error:", text)]).
Proof.
  destruct (sample_uploaded_then [garbled]) as (p1 & p2 & Hu).
  destruct (@index_unreadable scripted sample_env (post sample) [created; created; garbled]
              (VStr "newplug") "newplug" p1 p2 [garbled]
              {| Response_status := 200; Response_text := ok "<html>" |} []
              (SyntaxError "Unexpected token in JSON")
              eq_refl sample_valid eq_refl Hu eq_refl eq_refl)
    as (text & H & _).
  exists p1, p2, text. exact H.
Defined.


Lemma index_without_plugins_example :
  exists pluginData' configData',
    @handler scripted sample_env (post sample)
      [created; created; index_response (VObj [("version", VStr "1.0.0")])]
    = (answer 500 (failure "Cannot read properties of undefined (reading 'map')"),
       @after scripted []
         [@put_plugin scripted sample_env "newplug" pluginData';
          @put_config scripted sample_env "newplug" configData';
          get_index sample_env]
         [("Submit error:", "Cannot read properties of undefined (reading 'map')")]).
Proof.
  destruct (sample_uploaded_then [index_response (VObj [("version", VStr "1.0.0")])])
    as (p1 & p2 & Hu).
  exists p1, p2.
  eapply (@index_without_plugins scripted sample_env (post sample) _
            (VStr "newplug") "newplug" p1 p2 _ _ []
            (VObj [("version", VStr "1.0.0")]) _
            (TypeError "Cannot read properties of undefined (reading 'map')")
            eq_refl sample_valid eq_refl Hu).
  - reflexivity.
  - vm_compute. reflexivity.
  - reflexivity.
Defined.

Lemma index_write_rejected_witness :
  exists pluginData' configData' payload,
    @handler scripted sample_env (post sample) [created; created; not_found; unreachable]
    = (answer 500 (failure "fetch failed"),
       @after scripted []
         [@put_plugin scripted sample_env "newplug" pluginData';
          @put_config scripted sample_env "newplug" configData';
          get_index sample_env;
          @put_index scripted sample_env payload]
         [("Submit error:", "fetch failed")]).
Proof.
  destruct (sample_uploaded_then [not_found; unreachable]) as (p1 & p2 & Hu).
  exists p1, p2. eexists.
  eapply (@index_write_rejected scripted sample_env (post sample) _
            (VStr "newplug") "newplug" p1 p2 _
            {| Response_status := 404; Response_text := ok "Not Found" |} [unreachable]
            _ _ [] _ _ _ (TypeError "fetch failed") []
            eq_refl sample_valid eq_refl Hu eq_refl);
    reflexivity.
Defined.

Lemma fresh_index_example :
  exists pluginsData,
    @read_index scripted {| Response_status := 404; Response_text := ok "Not Found" |}
    = ok (pluginsData, VNull)
    /\ existingIds pluginsData = ok []
    /\ add_plugin pluginsData (VStr "entry") "2024-05-06"
       = ok (VObj [("version", VStr "1.0.0");
                   ("last_updated", VStr "2024-05-06");
                   ("plugins", VArr [VStr "entry"])]).
Proof.
  destruct (@fresh_index scripted
              {| Response_status := 404; Response_text := ok "Not Found" |} eq_refl)
    as (pd & Hr & He & Ha).
  exists pd. split; [exact Hr|]. split; [exact He | apply Ha].
Defined.

Lemma index_round_trip_example :
  exists entry updated payload content,
    newPlugin sample (VStr "newplug") (GITHUB_REPO sample_env) = ok entry
    /\ add_plugin (catalogue ["oldplug"]) entry "2024-05-06" = ok updated
    /\ @updateData scripted sample updated
         (VStr "3d21ec53a331a6f037a91c368710b99387d012c1") = ok payload
    /\ get payload "content" = ok (VStr content)
    /\ JSON_parse (Buffer_toString (Base64.decode content) utf8) = ok updated
    /\ field payload "sha" = VStr "3d21ec53a331a6f037a91c368710b99387d012c1".
Proof.
  eexists _, _, _.
  destruct (@index_round_trip scripted sample_env sample (VStr "newplug") "newplug"
              (catalogue ["oldplug"]) (VStr "3d21ec53a331a6f037a91c368710b99387d012c1")
              _ "2024-05-06" _ _
              sample_valid eq_refl eq_refl (fun _ => eq_refl) eq_refl eq_refl
              eq_refl eq_refl eq_refl)
    as (content & Hc & Hparse & Hsha & _).
  exists content.
  split; [reflexivity|]. split; [reflexivity|]. split; [reflexivity|].
  split; [exact Hc|]. split; [exact Hparse | exact (proj1 Hsha eq_refl)].
Defined.

Lemma add_plugin_keeps_document_example :
  exists updated,
    add_plugin (catalogue ["oldplug"]) (VStr "entry") "2024-05-06" = ok updated
    /\ field updated "last_updated" = VStr "2024-05-06"
    /\ field updated "version" = VStr "1.0.0".
Proof.
  destruct (add_plugin_keeps_document (catalogue ["oldplug"]) _ (VStr "entry")
              "2024-05-06" eq_refl)
    as (updated & Ha & _ & Hdate & Hkeep).
  exists updated. split; [exact Ha|]. split; [exact Hdate|].
  rewrite (Hkeep "version") by discriminate. reflexivity.
Defined.

Lemma duplicate_iff_entry_with_id_example :
  includes [VStr "oldplug"; VStr "newplug"] (VStr "newplug") = true
  <-> exists plugins p,
        plugins_of (catalogue ["oldplug"; "newplug"]) "map" = ok plugins
        /\ In p plugins /\ field p "id" = VStr "newplug".
Proof.
  exact (duplicate_iff_entry_with_id (catalogue ["oldplug"; "newplug"])
           [VStr "oldplug"; VStr "newplug"] "newplug" eq_refl).
Defined.

Lemma last_updated_is_date_example :
  before_T (@Date_toISOString scripted []) = "2024-05-06".
Proof.
  exact (last_updated_is_date "2024-05-06" "07:08:09.000Z" eq_refl).
Defined.

Lemma accepted_id_is_plain_example :
  "a1_b2" <> ""
  /\ ~ In "/"%char (list_ascii_of_string "a1_b2")
  /\ ~ In "."%char (list_ascii_of_string "a1_b2").
Proof.
  destruct (accepted_id_is_plain "a1_b2" eq_refl) as (H1 & _ & H2 & H3).
  split; [exact H1|]. split; [exact H2 | exact H3].
Defined.
